(** * The health-check exporter: a model of [collector/collector.go]
    and [main.go]

    The collector lists the pods of a cluster, probes the HTTP liveness
    endpoint of the first container of each pod in its own goroutine, and
    writes one gauge sample per probed pod to the channel it was handed.

    The development has four layers:
    - the values of the Go libraries the collector touches ([time],
      [strconv], [intstr], [metav1], [coreV1], [http], [prometheus]),
      as far as the collector reads them;
    - the body of [healthCheck], cut at the points where the goroutine
      waits for the outside world (the GET) or publishes (the send);
    - a process: a monotonic clock, the collector's mutex, and any number
      of [Collect] calls with their wait groups, goroutines and channels,
      advanced one event at a time by the scheduler and the environment;
    - the start of the process: the command line flags, the choice of the
      client's configuration in [NewMetrics], and [main] up to the call
      of [http.ListenAndServe], over the environment variables, the
      arguments, and the outcomes of the calls into the client
      libraries.

    The environment chooses the pods the list call returns, when each GET
    returns and what, and the order in which calls and goroutines run;
    the timeout of the HTTP client turns a late answer into an error, and
    nothing below depends on how late that is.  Of the Go runtime and the
    libraries this is taken: a panic that nothing recovers ends the
    process, once the deferred calls of the panicking goroutine have run;
    a sample sent on [ch] is received, the registry draining the channel
    while [Collect] runs; and strings are valid UTF-8, as the names and
    labels of API objects are, so that the check [MustNewConstMetric]
    makes of its label values passes.  For the start: the flags on
    [flag.CommandLine] are the three string flags this program defines,
    no imported package defining one when it is initialized; and
    handlers are registered as the [ServeMux] of Go up to 1.21 does it. *)

From Stdlib Require Import ZArith Ascii String DecimalString Lia.
From stdpp Require Import base option list gmap strings.

Open Scope Z_scope.

(** ** Results of Go code that may panic *)

Inductive result (A : Type) : Type :=
| Ok (a : A)
| Panic (msg : string).
Arguments Ok {A} a.
Arguments Panic {A} msg.

#[global] Instance result_ret : MRet result := λ A a, Ok a.
#[global] Instance result_bind : MBind result := λ A B f m,
  match m with
  | Ok a => f a
  | Panic msg => Panic msg
  end.

(** ** Package [strconv] *)
Module strconv.
(** [strconv.Itoa]: the decimal rendering of an [int], with a leading
    minus sign for a negative one. *)
Definition Itoa (i : Z) : string := NilZero.string_of_int (Z.to_int i).
End strconv.

(** [l[i]] on a slice: a run-time panic when [i] is out of range. *)
Definition index {A : Type} (l : list A) (i : nat) : result A :=
  match l !! i with
  | Some a => Ok a
  | None =>
      Panic ("runtime error: index out of range [" +:+ strconv.Itoa (Z.of_nat i)
             +:+ "] with length " +:+ strconv.Itoa (Z.of_nat (length l)))
  end.

(** The conversion [float64(i)] of an [int64]: the nearest double, ties to
    even.  The result is always an integer, so it is given as one.  Below
    [2^53] in magnitude the conversion is exact. *)
Definition float64 (i : Z) : Z :=
  let a := Z.abs i in
  if a <? 2 ^ 53 then i
  else
    let e := Z.log2 a - 52 in
    let q := Z.shiftr a e in
    let r := Z.land a (Z.ones e) in
    let half := Z.shiftl 1 (e - 1) in
    let q' := if r <? half then q
              else if half <? r then q + 1
              else if Z.even q then q else q + 1 in
    Z.sgn i * Z.shiftl q' e.

(** ** Package [time] *)
Module time.
(** A [Duration] is an [int64] count of nanoseconds. *)
Definition Duration : Type := Z.

Definition Nanosecond : Duration := 1.
Definition Millisecond : Duration := 1000000.
Definition Second : Duration := 1000000000.

Definition maxDuration : Duration := 2 ^ 63 - 1.
Definition minDuration : Duration := - 2 ^ 63.

(** Two's-complement wrap-around of an [int64] result. *)
Definition wrap64 (z : Z) : Z := (z + 2 ^ 63) mod 2 ^ 64 - 2 ^ 63.

(** What [time.Now] returns: a wall-clock reading and a reading of the
    process's monotonic clock, both in nanoseconds. *)
Record Time : Type := { wall : Z; mono : Z }.

(** [subMono t u]: [t - u] in [int64], saturated where it overflowed. *)
Definition subMono (t u : Z) : Duration :=
  let d := wrap64 (t - u) in
  if (d <? 0) && (u <? t) then maxDuration
  else if (0 <? d) && (t <? u) then minDuration
  else d.

(** [time.Since start], evaluated when the clock shows [now]: both
    carry a monotonic reading, so only those are subtracted. *)
Definition Since (now start : Time) : Duration := subMono (mono now) (mono start).

(** [Duration.Milliseconds]: the duration as a whole number of
    milliseconds. *)
Definition Milliseconds (d : Duration) : Z := Z.quot d Millisecond.
End time.

(** ** Package [k8s.io/apimachinery/pkg/util/intstr] *)
Module intstr.
(** Go's [intstr.Type]; the field of that name is [Type_] here. *)
Inductive Kind : Type := Int | String.

(** A port given as a number or as a name. *)
Record IntOrString : Type :=
  { Type_ : Kind; IntVal : Z; StrVal : string }.

Definition FromInt (val : Z) : IntOrString :=
  {| Type_ := Int; IntVal := val; StrVal := "" |}.
Definition FromString (val : string) : IntOrString :=
  {| Type_ := String; IntVal := 0; StrVal := val |}.
End intstr.

(** ** Package [k8s.io/apimachinery/pkg/apis/meta/v1] *)
Module metav1.
Record ObjectMeta : Type :=
  { Name : string; Namespace : string; Labels : gmap string string }.
End metav1.

(** ** Package [k8s.io/api/core/v1] *)
Module coreV1.
Definition URIScheme : Type := string.
Definition URISchemeHTTP : URIScheme := "HTTP".
Definition URISchemeHTTPS : URIScheme := "HTTPS".

Record HTTPGetAction : Type :=
  { Path : string; Port : intstr.IntOrString; Host : string; Scheme : URIScheme }.

(** Of a probe's handlers only [HTTPGet] is read; [None] is the nil
    pointer, whatever other handler (exec, TCP, gRPC) the probe has. *)
Record Probe : Type := { HTTPGet : option HTTPGetAction }.

Record Container : Type :=
  { Name : string; LivenessProbe : option Probe }.

Record PodSpec : Type := { Containers : list Container }.
Record PodStatus : Type := { PodIP : string }.

Record Pod : Type :=
  { ObjectMeta : metav1.ObjectMeta; Spec : PodSpec; Status : PodStatus }.
End coreV1.

(** ** Package [net/http] *)
Module http.
Record Response : Type := { StatusCode : Z }.

(** The pair [(resp, err)] that [Client.Get] returns.  A response that
    arrives comes with no error, whatever its status; with an error there
    is no response, or the one at which the redirect policy gave up. *)
Record Result : Type := { resp : option Response; err : option string }.

Record Client : Type := { Timeout : time.Duration }.
End http.

(** ** Package [github.com/prometheus/client_golang/prometheus] *)
Module prometheus.
Record Desc : Type :=
  { fqName : string; help : string; variableLabels : list string }.

Definition NewDesc (fqName help : string) (variableLabels : list string) : Desc :=
  {| fqName := fqName; help := help; variableLabels := variableLabels |}.

Inductive ValueType : Type := CounterValue | GaugeValue | UntypedValue.

(** A constant metric, with the time stamp [NewMetricWithTimestamp]
    wraps around it.  [value] is a [float64] that holds an integer. *)
Record Metric : Type :=
  { desc : Desc; valType : ValueType; value : Z;
    labelValues : list string; timestamp : option time.Time }.

(** [MustNewConstMetric] panics on a nil descriptor and when the number
    of label values differs from the number of the descriptor's labels. *)
Definition MustNewConstMetric (d : option Desc) (vt : ValueType) (v : Z)
    (lvs : list string) : result Metric :=
  match d with
  | None => Panic "runtime error: invalid memory address or nil pointer dereference"
  | Some d =>
      if bool_decide (length lvs = length (variableLabels d)) then
        Ok {| desc := d; valType := vt; value := v; labelValues := lvs;
              timestamp := None |}
      else Panic "inconsistent label cardinality"
  end.

Definition NewMetricWithTimestamp (t : time.Time) (m : Metric) : Metric :=
  {| desc := desc m; valType := valType m; value := value m;
     labelValues := labelValues m; timestamp := Some t |}.

(** The value a sample carries for the label called [name]. *)
Definition label (m : Metric) (name : string) : option string :=
  list_to_map (M := gmap string string)
    (zip (variableLabels (desc m)) (labelValues m)) !! name.
End prometheus.

(** ** Package [collector] *)

(** The [Metrics] struct without its mutex and its cluster client: the
    mutex is part of the process state below, and the client is the
    environment that answers the list call. *)
Record Metrics : Type :=
  { metrics : gmap string prometheus.Desc; httpClient : http.Client }.

Definition newGlobalMetric (metricName docString : string) (labels : list string)
    : prometheus.Desc :=
  prometheus.NewDesc metricName docString labels.

Definition NewMetrics : Metrics :=
  {| metrics :=
       {[ "container_health_check_duration_millisecond" :=
            newGlobalMetric "container_health_check_duration_millisecond"
              "The time(millisecond) taken to invoke the health check interface"
              ["namespace"; "container_name"; "pod_name"] ]};
     httpClient := {| http.Timeout := 3 * time.Second |} |}.

(** [Describe]: the descriptors sent to the channel. *)
Definition Describe (c : Metrics) : list prometheus.Desc :=
  (map_to_list (metrics c)).*2.

(** *** [healthCheck] *)

(** Lines 172-177: the scheme prefix of the probe's URL. *)
Definition probeScheme (httpGet : coreV1.HTTPGetAction) : string :=
  if String.eqb coreV1.URISchemeHTTP (coreV1.Scheme httpGet)
  then "http://" else "https://".

(** Line 179: the URL handed to [c.httpClient.Get]. *)
Definition probeURL (podIP : string) (httpGet : coreV1.HTTPGetAction) : string :=
  probeScheme httpGet +:+ podIP +:+ ":"
    +:+ strconv.Itoa (intstr.IntVal (coreV1.Port httpGet))
    +:+ coreV1.Path httpGet.

(** Lines 164-168: the HTTP liveness probe of the first container, if the
    pod declares one.  Indexing the container slice panics when it is
    empty. *)
Definition livenessHTTPGet (pod : coreV1.Pod) : result (option coreV1.HTTPGetAction) :=
  container0 ← index (coreV1.Containers (coreV1.Spec pod)) 0;
  match coreV1.LivenessProbe container0 with
  | Some livenessProbe => Ok (coreV1.HTTPGet livenessProbe)
  | None => Ok None
  end.

(** Lines 157-179, up to the call of [Get]: [Ok None] when the guard of
    line 166 fails, [Ok (Some url)] when a GET is issued. *)
Definition healthCheck_target (pod : coreV1.Pod) : result (option string) :=
  httpGet ← livenessHTTPGet pod;
  match httpGet with
  | Some httpGet =>
      let podIP := coreV1.PodIP (coreV1.Status pod) in
      Ok (Some (probeURL podIP httpGet))
  | None => Ok None
  end.

(** Lines 160-162: the label values of the pod's sample. *)
Definition podLabels (pod : coreV1.Pod) : list string :=
  let meta := coreV1.ObjectMeta pod in
  let podName := metav1.Name meta in
  let labels := metav1.Labels meta in
  let containerName := default "" (labels !! "app") in
  [metav1.Namespace meta; containerName; podName].

(** Lines 181-186: [-1] when [Get] returned an error, else the time since
    [start]. *)
Definition probeDuration (start : time.Time) (r : http.Result) (now : time.Time)
    : time.Duration :=
  match http.err r with
  | Some _ => -1
  | None => time.Since now start
  end.

(** Lines 181-191, from the return of [Get] to the constant metric. *)
Definition healthCheck_metric (c : Metrics) (pod : coreV1.Pod) (start : time.Time)
    (r : http.Result) (now : time.Time) : result prometheus.Metric :=
  let duration := probeDuration start r now in
  prometheus.MustNewConstMetric
    (metrics c !! "container_health_check_duration_millisecond")
    prometheus.GaugeValue (float64 duration) (podLabels pod).

(** The whole of [healthCheck] run without interruption: the clock shows
    [t0] at line 170, [net] answers the GET, the clock shows [t1] at line
    185 and [t2] at line 194.  The result is what was sent to [ch]. *)
Definition healthCheck (c : Metrics) (pod : coreV1.Pod) (t0 : time.Time)
    (net : string → http.Result) (t1 t2 : time.Time) : result (list prometheus.Metric) :=
  target ← healthCheck_target pod;
  match target with
  | Some url =>
      metric ← healthCheck_metric c pod t0 (net url) t1;
      Ok [prometheus.NewMetricWithTimestamp t2 metric]
  | None => Ok []
  end.

(** *** The process *)

(** A [healthCheck] goroutine is at one of four points: not yet run
    ([Ready]); inside [c.httpClient.Get], having read the clock at line
    170 ([InFlight]); past line 191 with its constant metric, about to
    send ([Built]); or returned ([Finished]), with what it sent to [ch]
    kept as a record of its run. *)
Inductive TaskState : Type :=
| Ready
| InFlight (start : time.Time) (url : string)
| Built (metric : prometheus.Metric)
| Finished (sent : option prometheus.Metric).

Record Task : Type := { tpod : coreV1.Pod; tstate : TaskState }.

(** A call of [Collect] is blocked in [c.mutex.Lock()] ([Blocked]), in
    the list call of line 124 ([Listing]), in the loop of lines 142-149
    with the items still to visit ([Looping]; at [wg.Wait()] once none is
    left), or has returned ([Returned]). *)
Inductive Phase : Type :=
| Blocked
| Listing
| Looping (rest : list coreV1.Pod)
| Returned.

(** One call of [Collect]: its program point, the pod list it fetched,
    the counter of its wait group, the goroutines it started, and the
    samples received on its channel so far, oldest first. *)
Record Call : Type :=
  { phase : Phase; items : list coreV1.Pod; wg : Z;
    tasks : list Task; ch : list prometheus.Metric }.

(** The process: the clock, whether the collector's mutex is locked, the
    calls of [Collect] made so far, and the panic that ended the process,
    if one did. *)
Record Proc : Type :=
  { clock : time.Time; mutex : bool; calls : list Call; crashed : option string }.

(** What [Pods("").List] returned. *)
Inductive ListResult : Type :=
| ListOk (pods : list coreV1.Pod)
| ListErr (msg : string).

(** What happens next is chosen by the scheduler and the environment:
    time passes, the wall clock is set, the registry calls [Collect]
    again ([Invoke]), call [i] takes its next step, or goroutine [j] of
    call [i] takes its next step. *)
Inductive Event : Type :=
| Tick (dt : Z)
| SetWall (w : Z)
| Invoke
| Lock (i : nat)
| List (i : nat) (res : ListResult)
| Go (i : nat)
| Wait (i : nat)
| Start (i j : nat)
| Response (i j : nat) (r : http.Result)
| Send (i j : nat).

Definition boot : Proc :=
  {| clock := {| time.wall := 0; time.mono := 0 |};
     mutex := false; calls := []; crashed := None |}.

Definition newCall : Call :=
  {| phase := Blocked; items := []; wg := 0; tasks := []; ch := [] |}.

Definition set_clock (t : time.Time) (s : Proc) : Proc :=
  {| clock := t; mutex := mutex s; calls := calls s; crashed := crashed s |}.
Definition set_mutex (b : bool) (s : Proc) : Proc :=
  {| clock := clock s; mutex := b; calls := calls s; crashed := crashed s |}.
Definition set_call (i : nat) (call : Call) (s : Proc) : Proc :=
  {| clock := clock s; mutex := mutex s; calls := <[i := call]> (calls s);
     crashed := crashed s |}.
Definition add_call (call : Call) (s : Proc) : Proc :=
  {| clock := clock s; mutex := mutex s; calls := calls s ++ [call];
     crashed := crashed s |}.
Definition panic (msg : string) (s : Proc) : Proc :=
  {| clock := clock s; mutex := mutex s; calls := calls s; crashed := Some msg |}.

Definition set_phase (p : Phase) (call : Call) : Call :=
  {| phase := p; items := items call; wg := wg call; tasks := tasks call;
     ch := ch call |}.
Definition set_items (l : list coreV1.Pod) (call : Call) : Call :=
  {| phase := phase call; items := l; wg := wg call; tasks := tasks call;
     ch := ch call |}.
Definition set_wg (n : Z) (call : Call) : Call :=
  {| phase := phase call; items := items call; wg := n; tasks := tasks call;
     ch := ch call |}.
Definition set_task (j : nat) (t : Task) (call : Call) : Call :=
  {| phase := phase call; items := items call; wg := wg call;
     tasks := <[j := t]> (tasks call); ch := ch call |}.
Definition at_state (st : TaskState) (t : Task) : Task :=
  {| tpod := tpod t; tstate := st |}.
Definition spawn (pod : coreV1.Pod) (call : Call) : Call :=
  {| phase := phase call; items := items call; wg := wg call;
     tasks := tasks call ++ [{| tpod := pod; tstate := Ready |}];
     ch := ch call |}.
Definition send (m : prometheus.Metric) (call : Call) : Call :=
  {| phase := phase call; items := items call; wg := wg call;
     tasks := tasks call; ch := ch call ++ [m] |}.

(** [c.mutex.Unlock()]: a fatal error when the mutex is not locked. *)
Definition Unlock (s : Proc) : Proc :=
  if mutex s then set_mutex false s
  else panic "fatal error: sync: unlock of unlocked mutex" s.

(** [waitGroup.Done()], deferred at line 155, in goroutine [j] of call
    [i], which ends with it having sent [sent]: a panic when the counter
    drops below zero. *)
Definition Done (i j : nat) (t : Task) (sent : option prometheus.Metric)
    (call : Call) (s : Proc) : Proc :=
  let call := set_task j (at_state (Finished sent) t) call in
  if wg call - 1 <? 0
  then panic "sync: negative WaitGroup counter" (set_call i call s)
  else set_call i (set_wg (wg call - 1) call) s.

(** Time passes: both clocks advance.  The monotonic reading is an
    [int64]; the process does not live to see it overflow. *)
Definition advance (dt : Z) (t : time.Time) : time.Time :=
  {| time.wall := time.wall t + dt; time.mono := time.mono t + dt |}.

Definition tick (dt : Z) (s : Proc) : option Proc :=
  if (0 <=? dt) && (time.mono (clock s) + dt <=? time.maxDuration)
  then Some (set_clock (advance dt (clock s)) s)
  else None.

(** Line 121: [c.mutex.Lock()] returns only when the mutex is free. *)
Definition Collect_Lock (i : nat) (call : Call) (s : Proc) : option Proc :=
  match phase call with
  | Blocked =>
      if mutex s then None
      else Some (set_call i (set_phase Listing call) (set_mutex true s))
  | _ => None
  end.

(** Lines 124-128: the list call returns.  On an error [Collect] panics;
    the deferred [Unlock] of line 122 runs, and the process ends. *)
Definition Collect_List (i : nat) (res : ListResult) (call : Call) (s : Proc)
    : option Proc :=
  match phase call with
  | Listing =>
      match res with
      | ListErr msg => Some (panic msg (Unlock s))
      | ListOk pods => Some (set_call i (set_phase (Looping pods) (set_items pods call)) s)
      end
  | _ => None
  end.

(** Lines 142-149, one turn of the loop: [wg.Add(1)], then a goroutine
    for a copy of the item. *)
Definition Collect_go (i : nat) (call : Call) (s : Proc) : option Proc :=
  match phase call with
  | Looping (item :: rest) =>
      Some (set_call i
              (set_phase (Looping rest) (spawn item (set_wg (wg call + 1) call))) s)
  | _ => None
  end.

(** Lines 151-152: [wg.Wait()] returns once the counter is zero; then
    [Collect] returns and the deferred [Unlock] runs. *)
Definition Collect_Wait (i : nat) (call : Call) (s : Proc) : option Proc :=
  match phase call with
  | Looping [] =>
      if bool_decide (wg call = 0)
      then Some (Unlock (set_call i (set_phase Returned call) s))
      else None
  | _ => None
  end.

(** Lines 155-179: goroutine [j] runs up to its GET.  Without a probe it
    returns at once; when indexing panics, the deferred [Done] runs and
    the process ends. *)
Definition healthCheck_start (i j : nat) (call : Call) (t : Task) (s : Proc)
    : option Proc :=
  match tstate t with
  | Ready =>
      match healthCheck_target (tpod t) with
      | Panic msg => Some (panic msg (Done i j t None call s))
      | Ok None => Some (Done i j t None call s)
      | Ok (Some url) => Some (set_call i (set_task j (at_state (InFlight (clock s) url) t) call) s)
      end
  | _ => None
  end.

(** Lines 179-191: the GET returns [r]. *)
Definition healthCheck_response (c : Metrics) (i j : nat) (r : http.Result)
    (call : Call) (t : Task) (s : Proc) : option Proc :=
  match tstate t with
  | InFlight start _ =>
      match healthCheck_metric c (tpod t) start r (clock s) with
      | Panic msg => Some (panic msg (Done i j t None call s))
      | Ok metric => Some (set_call i (set_task j (at_state (Built metric) t) call) s)
      end
  | _ => None
  end.

(** Line 194 and the return: the sample, stamped with the time of the
    send, goes to [ch]; then the deferred calls run, the [Close] of the
    response body where there is one, which changes nothing here, and
    [Done]. *)
Definition healthCheck_send (i j : nat) (call : Call) (t : Task) (s : Proc)
    : option Proc :=
  match tstate t with
  | Built metric =>
      let sample := prometheus.NewMetricWithTimestamp (clock s) metric in
      Some (Done i j t (Some sample) (send sample call) s)
  | _ => None
  end.

(** One event.  [None]: the event cannot happen in this state (the
    goroutine is blocked or is elsewhere, or the process has ended). *)
Definition step (c : Metrics) (e : Event) (s : Proc) : option Proc :=
  match crashed s with
  | Some _ => None
  | None =>
      match e with
      | Tick dt => tick dt s
      | SetWall w =>
          Some (set_clock {| time.wall := w; time.mono := time.mono (clock s) |} s)
      | Invoke => Some (add_call newCall s)
      | Lock i => call ← calls s !! i; Collect_Lock i call s
      | List i res => call ← calls s !! i; Collect_List i res call s
      | Go i => call ← calls s !! i; Collect_go i call s
      | Wait i => call ← calls s !! i; Collect_Wait i call s
      | Start i j =>
          call ← calls s !! i; t ← tasks call !! j; healthCheck_start i j call t s
      | Response i j r =>
          call ← calls s !! i; t ← tasks call !! j;
          healthCheck_response c i j r call t s
      | Send i j =>
          call ← calls s !! i; t ← tasks call !! j; healthCheck_send i j call t s
      end
  end.

(** A run: the events of a list, one after the other. *)
Fixpoint run (c : Metrics) (evs : list Event) (s : Proc) : option Proc :=
  match evs with
  | [] => Some s
  | e :: evs => s' ← step c e s; run c evs s'
  end.

(** The states the process can be in. *)
Definition reachable (s : Proc) : Prop :=
  ∃ evs, run NewMetrics evs boot = Some s.

(** *** What holds of every state the process can be in *)

(** What a goroutine has sent, and whether it has returned. *)
Definition sent (t : Task) : option prometheus.Metric :=
  match tstate t with
  | Finished o => o
  | _ => None
  end.

Definition finished (t : Task) : bool :=
  match tstate t with
  | Finished _ => true
  | _ => false
  end.

(** The number of goroutines of a list that have not returned. *)
Fixpoint running (l : list Task) : Z :=
  match l with
  | [] => 0
  | t :: l => (if finished t then 0 else 1) + running l
  end.

(** A call is [active] between the return of [Lock] and its own return,
    and [busy] while it is active or one of its goroutines still runs. *)
Definition active (call : Call) : bool :=
  match phase call with
  | Listing | Looping _ => true
  | Blocked | Returned => false
  end.

Definition busy (call : Call) : Prop :=
  active call = true ∨ ∃ t, t ∈ tasks call ∧ finished t = false.

(** The pod declares an HTTP liveness probe on its first container. *)
Definition probed (pod : coreV1.Pod) : Prop :=
  ∃ httpGet, livenessHTTPGet pod = Ok (Some httpGet).

(** The pod has a first container, and that one declares no HTTP
    liveness probe. *)
Definition unprobed (pod : coreV1.Pod) : Prop :=
  livenessHTTPGet pod = Ok None.

Definition healthDesc : prometheus.Desc :=
  newGlobalMetric "container_health_check_duration_millisecond"
    "The time(millisecond) taken to invoke the health check interface"
    ["namespace"; "container_name"; "pod_name"].

(** [m] is a sample of [pod]: the gauge of the collector, labelled with
    the pod's namespace, [app] label and name, with value [-1] or a
    duration that is not negative. *)
Definition sample_of (pod : coreV1.Pod) (m : prometheus.Metric) : Prop :=
  prometheus.desc m = healthDesc ∧
  prometheus.valType m = prometheus.GaugeValue ∧
  prometheus.labelValues m = podLabels pod ∧
  (prometheus.value m = -1 ∨ 0 ≤ prometheus.value m).

Definition task_ok (now : time.Time) (cr : option string) (t : Task) : Prop :=
  match tstate t with
  | Ready => True
  | InFlight start url =>
      healthCheck_target (tpod t) = Ok (Some url) ∧
      0 ≤ time.mono start ≤ time.mono now
  | Built m => probed (tpod t) ∧ sample_of (tpod t) m
  | Finished (Some m) => probed (tpod t) ∧ sample_of (tpod t) m
  | Finished None =>
      unprobed (tpod t) ∨ ((∃ msg, livenessHTTPGet (tpod t) = Panic msg) ∧ cr ≠ None)
  end.

Definition call_ok (now : time.Time) (cr : option string) (call : Call) : Prop :=
  wg call = running (tasks call) ∧
  ch call ≡ₚ omap sent (tasks call) ∧
  Forall (task_ok now cr) (tasks call) ∧
  match phase call with
  | Blocked | Listing => tasks call = []
  | Looping rest => (tpod <$> tasks call) ++ rest = items call
  | Returned => tpod <$> tasks call = items call ∧ running (tasks call) = 0
  end.

Definition proc_ok (s : Proc) : Prop :=
  0 ≤ time.mono (clock s) ≤ time.maxDuration ∧
  Forall (call_ok (clock s) (crashed s)) (calls s) ∧
  (∀ i1 i2 c1 c2, calls s !! i1 = Some c1 → calls s !! i2 = Some c2 →
     active c1 = true → active c2 = true → i1 = i2) ∧
  (crashed s = None →
     (mutex s = true ↔ ∃ i call, calls s !! i = Some call ∧ active call = true)).

(** *** The words of the specification *)

(** The first container of [pod] declares the HTTP liveness probe
    [httpGet]. *)
Definition declares (pod : coreV1.Pod) (httpGet : coreV1.HTTPGetAction) : Prop :=
  ∃ container0 others livenessProbe,
    coreV1.Containers (coreV1.Spec pod) = container0 :: others ∧
    coreV1.LivenessProbe container0 = Some livenessProbe ∧
    coreV1.HTTPGet livenessProbe = Some httpGet.

(** [pod] has a first container, and that one has no liveness probe or
    one without an HTTP GET action. *)
Definition lacks_probe (pod : coreV1.Pod) : Prop :=
  ∃ container0 others,
    coreV1.Containers (coreV1.Spec pod) = container0 :: others ∧
    (coreV1.LivenessProbe container0 = None ∨
     ∃ livenessProbe, coreV1.LivenessProbe container0 = Some livenessProbe ∧
                      coreV1.HTTPGet livenessProbe = None).

(** What a scrape yields for a pod of its list: [Some sample] for a pod
    that declares an HTTP liveness probe, [None] for any other. *)
Definition emitted (pod : coreV1.Pod) (o : option prometheus.Metric) : Prop :=
  match o with
  | Some sample => (∃ httpGet, declares pod httpGet) ∧ sample_of pod sample
  | None => ¬ ∃ httpGet, declares pod httpGet
  end.

(** The call an event is a step of, if it is one. *)
Definition caller (e : Event) : option nat :=
  match e with
  | Lock i | List i _ | Go i | Wait i | Start i _ | Response i _ _ | Send i _ => Some i
  | Tick _ | SetWall _ | Invoke => None
  end.

(** [e] is a step of call [i] past its list call, and if it is the
    return of a GET, the one of goroutine [j], then [net j] is what
    returns. *)
Definition drives (i : nat) (net : nat → http.Result) (e : Event) : Prop :=
  match e with
  | Go i' | Wait i' | Start i' _ | Send i' _ => i' = i
  | Response i' j r => i' = i ∧ r = net j
  | Tick _ | SetWall _ | Invoke | Lock _ | List _ _ => False
  end.

(** *** The work a call has left *)

(** The steps a goroutine, and a call in its loop, have left at most. *)
Definition remaining (t : Task) : nat :=
  match tstate t with
  | Ready => 3
  | InFlight _ _ => 2
  | Built _ => 1
  | Finished _ => 0
  end.

Fixpoint todo (l : list Task) : nat :=
  match l with
  | [] => 0
  | t :: l => (remaining t + todo l)%nat
  end.

Definition work (call : Call) : nat :=
  match phase call with
  | Looping rest => (4 * length rest + todo (tasks call) + 1)%nat
  | _ => 0%nat
  end.

(** *** Two runs that differ in what one GET returned *)

(** Two samples that agree on all but their value. *)
Definition same_but_value (m m' : prometheus.Metric) : Prop :=
  prometheus.desc m = prometheus.desc m' ∧
  prometheus.valType m = prometheus.valType m' ∧
  prometheus.labelValues m = prometheus.labelValues m' ∧
  prometheus.timestamp m = prometheus.timestamp m'.

(** A goroutine past its GET in two runs: at the same point in both,
    holding a metric of value [v] in the one and [v'] in the other, and
    the two metrics agree on everything else. *)
Definition task_differs (v v' : Z) (t t' : Task) : Prop :=
  tpod t' = tpod t ∧
  match tstate t, tstate t' with
  | Built m, Built m' | Finished (Some m), Finished (Some m') =>
      same_but_value m m' ∧ prometheus.value m = v ∧ prometheus.value m' = v'
  | _, _ => False
  end.

(** Two states of a call that are the same but for goroutine [j] and,
    once it has sent, the one place of its sample on the channel. *)
Definition call_differs_at (j : nat) (v v' : Z) (call call' : Call) : Prop :=
  phase call' = phase call ∧ items call' = items call ∧ wg call' = wg call ∧
  ∃ t t' pre post,
    tasks call !! j = Some t ∧ tasks call' = <[j := t']> (tasks call) ∧
    task_differs v v' t t' ∧
    ch call = pre ++ option_list (sent t) ++ post ∧
    ch call' = pre ++ option_list (sent t') ++ post.

(** Two states of the process that are the same but for call [i], whose
    two states differ as above. *)
Definition differs_at (i j : nat) (v v' : Z) (s s' : Proc) : Prop :=
  ∃ call call',
    calls s !! i = Some call ∧ s' = set_call i call' s ∧
    call_differs_at j v v' call call'.

(** *** Pods and answers for the scenarios *)

Definition mkPod (namespace name app podIP : string)
    (containers : list coreV1.Container) : coreV1.Pod :=
  {| coreV1.ObjectMeta :=
       {| metav1.Name := name; metav1.Namespace := namespace;
          metav1.Labels := {[ "app" := app ]} |};
     coreV1.Spec := {| coreV1.Containers := containers |};
     coreV1.Status := {| coreV1.PodIP := podIP |} |}.

Definition httpGetAction (scheme : coreV1.URIScheme) (port : intstr.IntOrString)
    (path : string) : coreV1.HTTPGetAction :=
  {| coreV1.Path := path; coreV1.Port := port; coreV1.Host := "";
     coreV1.Scheme := scheme |}.

Definition httpProbe (httpGet : coreV1.HTTPGetAction) : coreV1.Container :=
  {| coreV1.Name := "main";
     coreV1.LivenessProbe := Some {| coreV1.HTTPGet := Some httpGet |} |}.

Definition noProbe : coreV1.Container :=
  {| coreV1.Name := "main"; coreV1.LivenessProbe := None |}.

(** The pods of the specification's scenario, and some it leaves out. *)
Definition getHealthz : coreV1.HTTPGetAction :=
  httpGetAction "HTTP" (intstr.FromInt 8080) "/healthz".
Definition getNoScheme : coreV1.HTTPGetAction :=
  httpGetAction "" (intstr.FromInt 8080) "/healthz".
Definition getNamedPort : coreV1.HTTPGetAction :=
  httpGetAction "HTTP" (intstr.FromString "web") "/healthz".

Definition podA : coreV1.Pod :=
  mkPod "default" "a" "svcA" "10.0.0.1" [httpProbe getHealthz].
Definition podB : coreV1.Pod :=
  mkPod "default" "b" "svcB" "10.0.0.2" [noProbe].
Definition podNoContainer : coreV1.Pod :=
  mkPod "default" "c" "svcC" "10.0.0.3" [].
Definition podNoScheme : coreV1.Pod :=
  mkPod "default" "d" "svcD" "10.0.0.4" [httpProbe getNoScheme].
Definition podNoIP : coreV1.Pod :=
  mkPod "default" "e" "svcE" "" [httpProbe getHealthz].
Definition podNamedPort : coreV1.Pod :=
  mkPod "default" "f" "svcF" "10.0.0.6" [httpProbe getNamedPort].

Definition status (code : Z) : http.Result :=
  {| http.resp := Some {| http.StatusCode := code |}; http.err := None |}.
Definition refused : http.Result :=
  {| http.resp := None; http.err := Some "connect: connection refused" |}.

(** The start of a scrape, as call [i], up to the list of pods. *)
Definition listed (i : nat) (pods : list coreV1.Pod) : list Event :=
  [Invoke; Lock i; List i (ListOk pods)].

(** Goroutine [j] of call [i] is started and runs through; its GET takes
    [dt] nanoseconds and returns [r]. *)
Definition probeOf (i j : nat) (dt : Z) (r : http.Result) : list Event :=
  [Go i; Start i j; Tick dt; Response i j r; Send i j].

(** A whole scrape of one pod. *)
Definition scrapeOne (pod : coreV1.Pod) (dt : Z) (r : http.Result) : list Event :=
  listed 0 [pod] ++ probeOf 0 0 dt r ++ [Wait 0].

(** The state a run from [boot] ends in, and its first call. *)
Definition stateAfter (evs : list Event) : Proc :=
  default boot (run NewMetrics evs boot).
Definition firstCall (s : Proc) : Call := default newCall (calls s !! 0%nat).

(** A scrape of [podB] and [podA] caught when [podB]'s goroutine has
    returned and [podA]'s has sent its sample, before [wg.Wait()]
    returns. *)
Definition scrapeBA : list Event :=
  listed 0 [podB; podA] ++ [Go 0; Start 0 0] ++ probeOf 0 1 1000 (status 200).

(** A scrape of [podA] and a pod without containers, up to the start of
    the goroutine of the second. *)
Definition scrapeNoContainer : list Event :=
  listed 0 [podA; podNoContainer] ++ [Go 0; Go 0; Start 0 1].

(** A scrape of [podA] and [podB] with both goroutines started, and what
    follows the return of [podA]'s GET. *)
Definition scrapeABstarted : list Event :=
  listed 0 [podA; podB] ++ [Go 0; Go 0; Start 0 0; Start 0 1; Tick 2000].
Definition scrapeABrest : list Event :=
  [Tick 10; Send 0 0; Wait 0].

(** A scrape of one pod with its GET in flight for [dt] nanoseconds. *)
Definition inFlight (pod : coreV1.Pod) (dt : Z) : list Event :=
  listed 0 [pod] ++ [Go 0; Start 0 0; Tick dt].

(** Two calls of [Collect]: the second has locked the mutex and started
    the goroutine of [podA]; the first has not got past [Lock]. *)
Definition twoScrapes : list Event :=
  [Invoke; Invoke; Lock 1; List 1 (ListOk [podA]); Go 1; Start 1 0].

(** *** The order of the samples on a channel *)



(** *** A goroutine against [healthCheck] run in one go *)

(** The record [o] of a goroutine that has returned, in a process ended
    or not by the panic [cr], agrees with the result [r] of
    [healthCheck]: what it sent is what [healthCheck] sends, and a panic
    of [healthCheck] is the panic that ended the process. *)
Definition outcome_of (o : option prometheus.Metric) (cr : option string)
    (r : result (list prometheus.Metric)) : Prop :=
  match r with
  | Ok l => l = option_list o
  | Panic msg => o = None ∧ cr = Some msg
  end.

(** The goroutine [t] is where [healthCheck] would be for some readings
    of the clock, none later than [now], and some answer of the
    network. *)
Definition explained (now : time.Time) (cr : option string) (t : Task) : Prop :=
  match tstate t with
  | Ready => True
  | InFlight start url =>
      healthCheck_target (tpod t) = Ok (Some url) ∧ time.mono start ≤ time.mono now
  | Built metric =>
      ∃ start url r t1,
        healthCheck_target (tpod t) = Ok (Some url) ∧
        healthCheck_metric NewMetrics (tpod t) start r t1 = Ok metric ∧
        time.mono start ≤ time.mono t1 ≤ time.mono now
  | Finished o =>
      ∃ t0 net t1 t2,
        time.mono t0 ≤ time.mono t1 ≤ time.mono t2 ∧ time.mono t2 ≤ time.mono now ∧
        outcome_of o cr (healthCheck NewMetrics (tpod t) t0 net t1 t2)
  end.

(** *** Two samples on one channel *)

(** A scrape of [podA] and [podNoIP]: the GET for the second fails first,
    and its sample is sent before the first is answered. *)
Definition scrapeTwo : list Event :=
  listed 0 [podA; podNoIP] ++ [Go 0; Go 0; Start 0 0; Start 0 1; Tick 700;
    Response 0 1 refused; Tick 5; Send 0 1; Tick 300; Response 0 0 (status 200);
    Send 0 0].

(** The sample with value [value] and label values [labels], sent at [t]
    on both clocks. *)
Definition sampleAt (t value : Z) (labels : list string) : prometheus.Metric :=
  {| prometheus.desc := healthDesc; prometheus.valType := prometheus.GaugeValue;
     prometheus.value := value; prometheus.labelValues := labels;
     prometheus.timestamp := Some {| time.wall := t; time.mono := t |} |}.

(** ** The start of the process: [main] and [NewMetrics] *)

(** How a part of the start ends: it returns, the process exits with a
    code ([os.Exit]), or it panics. *)
Inductive outcome (A : Type) : Type :=
| Returns (a : A)
| Exits (code : Z)
| Panics (msg : string).
Arguments Returns {A} a.
Arguments Exits {A} code.
Arguments Panics {A} msg.

#[global] Instance outcome_ret : MRet outcome := λ A a, Returns a.
#[global] Instance outcome_bind : MBind outcome := λ A B f m,
  match m with
  | Returns a => f a
  | Exits code => Exits code
  | Panics msg => Panics msg
  end.

(** *** Package [os] *)
Module os.
(** [os.Getenv]: the value of the variable, empty when it is not set. *)
Definition Getenv (env : gmap string string) (key : string) : string :=
  default "" (env !! key).
End os.

(** *** Package [flag], for the flags of this program

    All flags of the program are string flags, so a flag set is its name
    (the name of the program, for [flag.CommandLine]), the flags defined
    with their present values, and the arguments not yet parsed.
    [CommandLine] handles errors with [ExitOnError]. *)
Module flag.
Record FlagSet : Type :=
  { name : string; formal : gmap string string; args : list string }.

Inductive Error : Type :=
| ErrHelp
| Errorf (msg : string).

Definition set_args (l : list string) (f : FlagSet) : FlagSet :=
  {| name := name f; formal := formal f; args := l |}.
Definition set_formal (m : gmap string string) (f : FlagSet) : FlagSet :=
  {| name := name f; formal := m; args := args f |}.

(** [name[i] == '='] for the first [i]: the text before it and the text
    after it. *)
Fixpoint cut (s : string) : string * option string :=
  match s with
  | EmptyString => (EmptyString, None)
  | String c s' =>
      if Ascii.eqb c "="%char then (EmptyString, Some s')
      else let '(n, v) := cut s' in (String c n, v)
  end.

(** [FlagSet.parseOne]: the flag set after it, whether a flag was
    seen, and the error. *)
Definition parseOne (f : FlagSet) : FlagSet * bool * option Error :=
  match args f with
  | [] => (f, false, None)
  | s :: rest =>
      match s with
      | String "-"%char (String c s2) =>
          let minuses2 := Ascii.eqb c "-"%char in
          if minuses2 && String.eqb s2 "" then (set_args rest f, false, None)
          else
            match (if minuses2 then s2 else String c s2) with
            | EmptyString => (f, false, Some (Errorf ("bad flag syntax: " +:+ s)))
            | String c0 name' =>
                if Ascii.eqb c0 "-"%char || Ascii.eqb c0 "="%char
                then (f, false, Some (Errorf ("bad flag syntax: " +:+ s)))
                else
                  let f := set_args rest f in
                  let '(name', value) := cut name' in
                  let name := String c0 name' in
                  match formal f !! name with
                  | None =>
                      if String.eqb name "help" || String.eqb name "h"
                      then (f, false, Some ErrHelp)
                      else (f, false,
                            Some (Errorf ("flag provided but not defined: -" +:+ name)))
                  | Some _ =>
                      match value, args f with
                      | Some value, _ =>
                          (set_formal (<[name := value]> (formal f)) f, true, None)
                      | None, value :: rest =>
                          (set_formal (<[name := value]> (formal f)) (set_args rest f),
                           true, None)
                      | None, [] =>
                          (f, false, Some (Errorf ("flag needs an argument: -" +:+ name)))
                      end
                  end
            end
      | _ => (f, false, None)
      end
  end.

(** The loop of [FlagSet.Parse]; every turn that goes on has used up
    an argument, so one turn more than there are arguments is enough. *)
Fixpoint parseLoop (turns : nat) (f : FlagSet) : FlagSet * option Error :=
  match turns with
  | O => (f, None)
  | S turns =>
      let '(f, seen, err) := parseOne f in
      if seen then parseLoop turns f else (f, err)
  end.

(** [flag.Parse()] is [CommandLine.Parse(os.Args[1:])]: the process
    exits with 2 after an error, and with 0 (since Go 1.15) after [-help]
    or [-h] when no such flag is defined. *)
Definition Parse (f : FlagSet) (arguments : list string) : outcome FlagSet :=
  match parseLoop (S (length arguments)) (set_args arguments f) with
  | (f, None) => Returns f
  | (_, Some ErrHelp) => Exits 0
  | (_, Some (Errorf _)) => Exits 2
  end.

(** [flag.String(name, value, usage)]: defining a flag a second time
    panics.  The pointer returned is the place of [name] in [formal]. *)
Definition String (f : FlagSet) (name value : string) : outcome FlagSet :=
  match formal f !! name with
  | Some _ =>
      Panics (if String.eqb (flag.name f) "" then "flag redefined: " +:+ name
              else flag.name f +:+ " flag redefined: " +:+ name)
  | None => Returns (set_formal (<[name := value]> (formal f)) f)
  end.

(** The string at the pointer [flag.String] returned for [name]. *)
Definition value (f : FlagSet) (name : string) : string :=
  default "" (formal f !! name).
End flag.

(** *** The default [ServeMux] of [net/http]

    Registration as up to Go 1.21: an empty pattern and a pattern
    registered before panic.  (From Go 1.22 patterns are parsed, and more
    of them are refused; these two still are.) *)
Module ServeMux.
Definition Handle (mux : list string) (pattern : string) : outcome (list string) :=
  if String.eqb pattern "" then Panics "http: invalid pattern"
  else if bool_decide (pattern ∈ mux)
       then Panics ("http: multiple registrations for " +:+ pattern)
       else Returns (mux ++ [pattern]).
End ServeMux.

(** *** What the start takes from outside the process

    The path [filepath.Join] makes of its elements, and whether
    [rest.InClusterConfig], [clientcmd.BuildConfigFromFlags] and
    [kubernetes.NewForConfig] succeed, each with its configuration or its
    error. *)
Record Outside (Config : Type) : Type :=
  { Join : list string → string;
    InClusterConfig : Config + string;
    BuildConfigFromFlags : string → string → Config + string;
    NewForConfig : Config → option string }.
Arguments Join {Config} o l.
Arguments InClusterConfig {Config} o.
Arguments BuildConfigFromFlags {Config} o masterUrl kubeconfigPath.
Arguments NewForConfig {Config} o config.

(** Lines 46-51. *)
Definition homeDir (env : gmap string string) : string :=
  let h := os.Getenv env "HOME" in
  if negb (String.eqb h "") then h
  else os.Getenv env "USERPROFILE".

(** Line 57: the test for a run inside a cluster. *)
Definition inCluster (env : gmap string string) : bool :=
  negb (String.eqb (os.Getenv env "KUBERNETES_SERVICE_HOST") "")
  && negb (String.eqb (os.Getenv env "KUBERNETES_SERVICE_PORT") "").

(** Lines 55-80 of [NewMetrics]: the configuration of the client, with
    the command line flags as this leaves them.  [arguments] is
    [os.Args[1:]]. *)
Definition NewMetrics_config {Config : Type} (o : Outside Config)
    (env : gmap string string) (arguments : list string) (cmd : flag.FlagSet)
    : outcome (flag.FlagSet * Config) :=
  if inCluster env then
    match InClusterConfig o with
    | inl config => Returns (cmd, config)
    | inr err => Panics err
    end
  else
    let home := homeDir env in
    cmd ← (if negb (String.eqb home "")
           then flag.String cmd "kubeconfig" (Join o [home; ".kube"; "config"])
           else flag.String cmd "kubeconfig" "");
    cmd ← flag.Parse cmd arguments;
    match BuildConfigFromFlags o "" (flag.value cmd "kubeconfig") with
    | inl config => Returns (cmd, config)
    | inr err => Panics err
    end.

(** [NewMetrics] as a whole: the flags as it leaves them, the
    configuration its client set was made from, and the collector. *)
Definition NewMetrics_from {Config : Type} (o : Outside Config)
    (env : gmap string string) (arguments : list string) (cmd : flag.FlagSet)
    : outcome (flag.FlagSet * Config * Metrics) :=
  '(cmd, config) ← NewMetrics_config o env arguments cmd;
  match NewForConfig o config with
  | Some err => Panics err
  | None => Returns (cmd, config, NewMetrics)
  end.

(** What [main] has set up when it calls [http.ListenAndServe]. *)
Record Server (Config : Type) : Type :=
  { addr : string; patterns : list string; config : Config; collector : Metrics }.
Arguments addr {Config} s.
Arguments patterns {Config} s.
Arguments config {Config} s.
Arguments collector {Config} s.

(** [main], for the program [program] ([os.Args[0]]) run with
    [arguments], up to the call of [http.ListenAndServe], which does not
    return while the server runs.  The two flags of lines 17-18 are
    defined when the package is initialized.  The registry accepts the
    collector: [Describe] gives it one descriptor, and a valid one. *)
Definition main {Config : Type} (o : Outside Config) (env : gmap string string)
    (program : string) (arguments : list string) : outcome (Server Config) :=
  let CommandLine := {| flag.name := program; flag.formal := ∅; flag.args := [] |} in
  cmd ← flag.String CommandLine "web.listen-port" "8089";
  cmd ← flag.String cmd "web.telemetry-path" "/metrics";
  cmd ← flag.Parse cmd arguments;
  '(cmd, config, metrics) ← NewMetrics_from o env arguments cmd;
  mux ← ServeMux.Handle [] (flag.value cmd "web.telemetry-path");
  mux ← ServeMux.Handle mux "/";
  Returns {| addr := ":" +:+ flag.value cmd "web.listen-port"; patterns := mux;
             config := config; collector := metrics |}.

(** The flags of [main], as the initialization of the package leaves
    them. *)
Definition mainFlags (program : string) : flag.FlagSet :=
  {| flag.name := program;
     flag.formal :=
       <["web.telemetry-path" := "/metrics"]> (<["web.listen-port" := "8089"]> ∅);
     flag.args := [] |}.

(** The path of the kubeconfig file when the command line gives none. *)
Definition defaultKubeconfig {Config : Type} (o : Outside Config)
    (env : gmap string string) : string :=
  if String.eqb (homeDir env) "" then ""
  else Join o [homeDir env; ".kube"; "config"].

(** The flag set [f] with the flag [k] defined, with value [v]. *)
Definition define (k v : string) (f : flag.FlagSet) : flag.FlagSet :=
  flag.set_formal (<[k := v]> (flag.formal f)) f.

(** The flag set [g] with the values [u] written over its own, and
    [rest] left to parse. *)
Definition updated (u : gmap string string) (rest : list string) (g : flag.FlagSet)
    : flag.FlagSet :=
  {| flag.name := flag.name g; flag.formal := u ∪ flag.formal g; flag.args := rest |}.

(** A start outside a cluster, for the scenarios: [HOME] is set, and
    the kubeconfig file is found where the path is not empty. *)
Definition laptop : Outside string :=
  {| Join := String.concat "/";
     InClusterConfig := inr "unable to load in-cluster configuration";
     BuildConfigFromFlags := λ _ kubeconfigPath,
       if String.eqb kubeconfigPath ""
       then inr "invalid configuration: no configuration has been provided"
       else inl kubeconfigPath;
     NewForConfig := λ _, None |}.

Definition atHome : gmap string string := {[ "HOME" := "/home/u" ]}.

(** * Properties *)

(** ** Arithmetic of the conversions *)

Lemma float64_exact i : Z.abs i < 2 ^ 53 → float64 i = i.
Proof.
  intros H. unfold float64.
  destruct (Z.ltb_spec (Z.abs i) (2 ^ 53)); [done | lia].
Qed.

Lemma float64_nonneg i : 0 ≤ i → 0 ≤ float64 i.
Proof.
  intros Hi. unfold float64.
  destruct (Z.ltb_spec (Z.abs i) (2 ^ 53)) as [|Hbig]; [done |].
  apply Z.mul_nonneg_nonneg; [lia |].
  apply Z.shiftl_nonneg.
  assert (0 ≤ Z.shiftr (Z.abs i) (Z.log2 (Z.abs i) - 52))
    by (apply Z.shiftr_nonneg; lia).
  repeat case_match; lia.
Qed.

Lemma wrap64_small z : - 2 ^ 63 ≤ z < 2 ^ 63 → time.wrap64 z = z.
Proof.
  intros H. unfold time.wrap64. rewrite Z.mod_small; lia.
Qed.

Lemma subMono_exact t u :
  0 ≤ u ≤ t → t ≤ time.maxDuration → time.subMono t u = t - u.
Proof.
  unfold time.maxDuration. intros Hu Ht. unfold time.subMono.
  rewrite wrap64_small by lia.
  destruct (Z.ltb_spec (t - u) 0); [lia |].
  destruct (Z.ltb_spec 0 (t - u)), (Z.ltb_spec t u); simpl; lia.
Qed.

Lemma healthCheck_metric_NewMetrics pod start r now :
  healthCheck_metric NewMetrics pod start r now =
  Ok {| prometheus.desc := healthDesc;
        prometheus.valType := prometheus.GaugeValue;
        prometheus.value := float64 (probeDuration start r now);
        prometheus.labelValues := podLabels pod;
        prometheus.timestamp := None |}.
Proof. reflexivity. Qed.

(** ** Lists of goroutines *)

Section lists.
Context {A : Type}.
Implicit Types l : list A.

Lemma insert_split l j x y :
  l !! j = Some x →
  ∃ l1 l2, l = l1 ++ x :: l2 ∧ <[j := y]> l = l1 ++ y :: l2 ∧ j = length l1.
Proof.
  intros H. apply list_elem_of_split_length in H as (l1 & l2 & -> & ->).
  exists l1, l2. split_and!; [done | | done].
  rewrite insert_app_r_alt by lia. by rewrite Nat.sub_diag.
Qed.
End lists.

Lemma running_app l1 l2 : running (l1 ++ l2) = running l1 + running l2.
Proof. induction l1 as [|t l1 IH]; simpl; lia. Qed.

Lemma running_nonneg l : 0 ≤ running l.
Proof. induction l as [|t l IH]; simpl; [lia | destruct (finished t); lia]. Qed.

Lemma running_zero l : running l = 0 → Forall (λ t, finished t = true) l.
Proof.
  induction l as [|t l IH]; simpl; intros H; [constructor |].
  pose proof (running_nonneg l).
  destruct (finished t) eqn:E; [| lia]. constructor; [done | apply IH; lia].
Qed.

Lemma running_insert l j t t' :
  l !! j = Some t → finished t = false →
  running (<[j := t']> l) = running l - 1 + (if finished t' then 0 else 1).
Proof.
  intros Hj Ht. destruct (insert_split l j t t' Hj) as (l1 & l2 & -> & -> & _).
  rewrite !running_app. simpl. rewrite Ht. lia.
Qed.

Lemma running_lookup l j t :
  l !! j = Some t → finished t = false → 1 ≤ running l.
Proof.
  intros Hj Ht. apply list_elem_of_split_length in Hj as (l1 & l2 & -> & _).
  rewrite running_app. simpl. rewrite Ht.
  pose proof (running_nonneg l1). pose proof (running_nonneg l2). lia.
Qed.

Lemma sent_insert l j t t' :
  l !! j = Some t → sent t = None →
  omap sent (<[j := t']> l) ≡ₚ option_list (sent t') ++ omap sent l.
Proof.
  intros Hj Ht. destruct (insert_split l j t t' Hj) as (l1 & l2 & -> & -> & _).
  rewrite !omap_app. simpl. rewrite Ht.
  destruct (sent t'); simpl; [| done].
  by rewrite Permutation_middle.
Qed.

Lemma tpod_insert (l : list Task) j t t' :
  l !! j = Some t → tpod t' = tpod t → tpod <$> <[j := t']> l = tpod <$> l.
Proof.
  intros Hj Ht. rewrite list_fmap_insert, Ht.
  apply list_insert_id. by rewrite list_lookup_fmap, Hj.
Qed.

Lemma task_ok_mono now now' cr cr' t :
  time.mono now ≤ time.mono now' → (cr ≠ None → cr' ≠ None) →
  task_ok now cr t → task_ok now' cr' t.
Proof.
  intros Hnow Hcr. unfold task_ok.
  destruct (tstate t) as [| start url | m | [m|]]; try done.
  - intros [? ?]. split; [done | lia].
  - intros [? | [? ?]]; [by left | right; auto].
Qed.

Lemma call_ok_mono now now' cr cr' call :
  time.mono now ≤ time.mono now' → (cr ≠ None → cr' ≠ None) →
  call_ok now cr call → call_ok now' cr' call.
Proof.
  intros Hnow Hcr (Hwg & Hch & Htasks & Hphase).
  refine (conj _ (conj _ (conj _ _))); try done.
  eapply Forall_impl; [done |]. intros t. by apply task_ok_mono.
Qed.

(** ** The invariant is kept by every event *)

Ltac split4 := refine (conj _ (conj _ (conj _ _))).

Lemma lookup_set_call_old (l : list Call) i call call' k c :
  l !! i = Some call → active call' = active call →
  <[i := call']> l !! k = Some c →
  ∃ c0, l !! k = Some c0 ∧ active c0 = active c.
Proof.
  intros Hi Hact Hk. apply list_lookup_insert_Some in Hk as [(-> & -> & _) | [_ Hk]].
  - by exists call.
  - by exists c.
Qed.

Lemma lookup_set_call_new (l : list Call) i call call' k c0 :
  l !! i = Some call → active call' = active call →
  l !! k = Some c0 →
  ∃ c, <[i := call']> l !! k = Some c ∧ active c = active c0.
Proof.
  intros Hi Hact Hk. destruct (decide (i = k)) as [-> | Hne].
  - exists call'. rewrite list_lookup_insert_eq by (by eapply lookup_lt_Some).
    split; [done |]. congruence.
  - exists c0. by rewrite list_lookup_insert_ne.
Qed.

Lemma proc_ok_set_call s i call call' :
  proc_ok s → calls s !! i = Some call →
  call_ok (clock s) (crashed s) call' → active call' = active call →
  proc_ok (set_call i call' s).
Proof.
  intros (Hclock & Hcalls & Hone & Hmutex) Hi Hcall Hact.
  split4; simpl; [done | by apply Forall_insert | |].
  - intros i1 i2 c1 c2 H1 H2 A1 A2.
    destruct (lookup_set_call_old _ _ _ _ _ _ Hi Hact H1) as (d1 & H1' & E1).
    destruct (lookup_set_call_old _ _ _ _ _ _ Hi Hact H2) as (d2 & H2' & E2).
    eapply Hone; [done | done | congruence | congruence].
  - intros Hcr. rewrite (Hmutex Hcr). split.
    + intros (k & c0 & Hk & A).
      destruct (lookup_set_call_new _ _ _ call' _ _ Hi Hact Hk) as (c & Hk' & E).
      exists k, c. split; [done | congruence].
    + intros (k & c & Hk & A).
      destruct (lookup_set_call_old _ _ _ _ _ _ Hi Hact Hk) as (c0 & Hk' & E).
      exists k, c0. split; [done | congruence].
Qed.

Lemma proc_ok_panic s msg : proc_ok s → proc_ok (panic msg s).
Proof.
  intros (Hclock & Hcalls & Hone & Hmutex).
  split4; simpl; [done | | done | done].
  eapply Forall_impl; [done |]. intros call. by apply call_ok_mono.
Qed.

Lemma proc_ok_set_mutex s b :
  proc_ok s → crashed s ≠ None → proc_ok (set_mutex b s).
Proof.
  intros (Hclock & Hcalls & Hone & Hmutex) Hcr.
  split4; simpl; done.
Qed.

Lemma proc_ok_set_clock s t :
  proc_ok s → time.mono (clock s) ≤ time.mono t ≤ time.maxDuration →
  proc_ok (set_clock t s).
Proof.
  intros (Hclock & Hcalls & Hone & Hmutex) Ht.
  split4; simpl; [lia | | done | done].
  eapply Forall_impl; [done |]. intros call. apply call_ok_mono; [lia | done].
Qed.

Lemma call_ok_newCall now cr : call_ok now cr newCall.
Proof. by split4. Qed.

Lemma proc_ok_add_call s : proc_ok s → proc_ok (add_call newCall s).
Proof.
  intros (Hclock & Hcalls & Hone & Hmutex).
  assert (Hold : ∀ k c, (calls s ++ [newCall]) !! k = Some c → active c = true →
                        calls s !! k = Some c).
  { intros k c Hk A. apply lookup_app_Some in Hk as [Hk | [_ Hk]]; [done |].
    apply list_lookup_singleton_Some in Hk as [_ <-]. done. }
  split4; simpl; [done | | |].
  - apply Forall_app. split; [done |]. constructor; [apply call_ok_newCall | constructor].
  - intros i1 i2 c1 c2 H1 H2 A1 A2. eapply Hone; eauto.
  - intros Hcr. rewrite (Hmutex Hcr). split.
    + intros (k & c & Hk & A). exists k, c. split; [| done].
      by apply lookup_app_l_Some.
    + intros (k & c & Hk & A). exists k, c. split; [| done]. by apply Hold.
Qed.

Lemma proc_ok_lookup s i call :
  proc_ok s → calls s !! i = Some call → call_ok (clock s) (crashed s) call.
Proof.
  intros (_ & Hcalls & _) Hi. by eapply Forall_lookup_1 in Hcalls.
Qed.

Lemma proc_ok_Lock s i call :
  proc_ok s → crashed s = None → calls s !! i = Some call →
  phase call = Blocked → mutex s = false →
  proc_ok (set_call i (set_phase Listing call) (set_mutex true s)).
Proof.
  intros Hok Hcr Hi Hph Hmu.
  pose proof (proc_ok_lookup _ _ _ Hok Hi) as (Hwg & Hch & Htasks & Hp).
  destruct Hok as (Hclock & Hcalls & Hone & Hmutex).
  assert (Hnone : ∀ k c, calls s !! k = Some c → active c = false).
  { intros k c Hk. destruct (active c) eqn:A; [| done].
    assert (mutex s = true) by (apply (Hmutex Hcr); eauto). congruence. }
  assert (Hlt : (i < length (calls s))%nat) by (by eapply lookup_lt_Some).
  assert (Honly : ∀ k c, <[i := set_phase Listing call]> (calls s) !! k = Some c →
                         active c = true → k = i).
  { intros k c Hk A. apply list_lookup_insert_Some in Hk as [(-> & _) | [_ Hk]]; [done |].
    apply Hnone in Hk. congruence. }
  split4; simpl; [done | | |].
  - apply Forall_insert; [done |]. rewrite Hph in Hp. by split4.
  - intros i1 i2 c1 c2 H1 H2 A1 A2.
    apply Honly in H1; [| done]. apply Honly in H2; [| done]. congruence.
  - intros _. split; [| done]. intros _.
    exists i, (set_phase Listing call). by rewrite list_lookup_insert_eq.
Qed.

Lemma proc_ok_Wait s i call :
  proc_ok s → crashed s = None → calls s !! i = Some call →
  phase call = Looping [] → wg call = 0 →
  Unlock (set_call i (set_phase Returned call) s)
    = set_mutex false (set_call i (set_phase Returned call) s) ∧
  proc_ok (set_mutex false (set_call i (set_phase Returned call) s)).
Proof.
  intros Hok Hcr Hi Hph Hzero.
  pose proof (proc_ok_lookup _ _ _ Hok Hi) as (Hwg & Hch & Htasks & Hp).
  destruct Hok as (Hclock & Hcalls & Hone & Hmutex).
  assert (A : active call = true) by (unfold active; by rewrite Hph).
  assert (Hmu : mutex s = true) by (apply (Hmutex Hcr); eauto).
  split; [unfold Unlock; simpl; by rewrite Hmu |].
  assert (Hnone : ∀ k c, <[i := set_phase Returned call]> (calls s) !! k = Some c →
                         active c = false).
  { intros k c Hk. apply list_lookup_insert_Some in Hk as [(-> & <- & _) | [Hne Hk]]; [done |].
    destruct (active c) eqn:A'; [| done]. exfalso. apply Hne. eapply Hone; eauto. }
  split4; simpl; [done | | |].
  - apply Forall_insert; [done |]. rewrite Hph in Hp. rewrite app_nil_r in Hp.
    split4; simpl; try done. split; congruence.
  - intros i1 i2 c1 c2 H1 H2 A1 A2. apply Hnone in H1. congruence.
  - intros _. split; [done |]. intros (k & c & Hk & A'). apply Hnone in Hk. congruence.
Qed.

Lemma unfinished_sent t : finished t = false → sent t = None.
Proof. unfold finished, sent. by destruct (tstate t). Qed.

Lemma healthCheck_target_Some pod url :
  healthCheck_target pod = Ok (Some url) →
  ∃ httpGet, livenessHTTPGet pod = Ok (Some httpGet) ∧
             url = probeURL (coreV1.PodIP (coreV1.Status pod)) httpGet.
Proof.
  unfold healthCheck_target. destruct (livenessHTTPGet pod) as [[h|]|]; simpl; [| done..].
  intros [= <-]. by exists h.
Qed.

Lemma healthCheck_target_None pod :
  healthCheck_target pod = Ok None → unprobed pod.
Proof.
  unfold healthCheck_target, unprobed.
  by destruct (livenessHTTPGet pod) as [[h|]|].
Qed.

Lemma healthCheck_target_Panic pod msg :
  healthCheck_target pod = Panic msg → livenessHTTPGet pod = Panic msg.
Proof.
  unfold healthCheck_target.
  destruct (livenessHTTPGet pod) as [[h|]|]; simpl; congruence.
Qed.

Lemma call_ok_update now cr call call' j t t' :
  call_ok now cr call → tasks call !! j = Some t → finished t = false →
  task_ok now cr t' → tpod t' = tpod t →
  phase call' = phase call → items call' = items call →
  tasks call' = <[j := t']> (tasks call) →
  wg call' = wg call - 1 + (if finished t' then 0 else 1) →
  ch call' ≡ₚ ch call ++ option_list (sent t') →
  call_ok now cr call'.
Proof.
  intros (Hwg & Hch & Htasks & Hp) Hj Hun Ht' Hpod Ephase Eitems Etasks Ewg Ech.
  pose proof (running_lookup _ _ _ Hj Hun) as Hrun.
  split4.
  - rewrite Ewg, Etasks, (running_insert _ _ t) by done. lia.
  - rewrite Ech, Etasks, (sent_insert _ _ t) by (by auto using unfinished_sent).
    rewrite Hch. apply Permutation_app_comm.
  - rewrite Etasks. by apply Forall_insert.
  - rewrite Ephase, Eitems, Etasks. destruct (phase call).
    + rewrite Hp in Hj. done.
    + rewrite Hp in Hj. done.
    + by rewrite (tpod_insert _ _ t).
    + lia.
Qed.

Lemma Done_eq i j t o call s :
  tasks call !! j = Some t → finished t = false → wg call = running (tasks call) →
  Done i j t o call s
  = set_call i (set_wg (wg call - 1) (set_task j (at_state (Finished o) t) call)) s.
Proof.
  intros Hj Hun Hwg. unfold Done. simpl.
  pose proof (running_lookup _ _ _ Hj Hun).
  destruct (Z.ltb_spec (wg call - 1) 0); [lia | done].
Qed.

Lemma sample_of_metric pod start r now :
  0 ≤ time.mono start ≤ time.mono now → time.mono now ≤ time.maxDuration →
  sample_of pod
    {| prometheus.desc := healthDesc;
       prometheus.valType := prometheus.GaugeValue;
       prometheus.value := float64 (probeDuration start r now);
       prometheus.labelValues := podLabels pod;
       prometheus.timestamp := None |}.
Proof.
  intros Hstart Hnow. split4; simpl; try done.
  unfold probeDuration. destruct (http.err r); [by left | right].
  apply float64_nonneg. unfold time.Since. rewrite subMono_exact; lia.
Qed.

Lemma step_ok e s s' :
  proc_ok s → step NewMetrics e s = Some s' → proc_ok s'.
Proof.
  intros Hok. unfold step. destruct (crashed s) eqn:Hcr; [done |].
  destruct e as [dt | w | | i | i res | i | i | i j | i j r | i j]; simpl.
  - (* Tick *)
    unfold tick. destruct (Z.leb_spec 0 dt), (Z.leb_spec (time.mono (clock s) + dt) time.maxDuration);
      simpl; intros [= <-].
    apply proc_ok_set_clock; [done | simpl; lia].
  - (* SetWall *)
    intros [= <-]. apply proc_ok_set_clock; [done | simpl].
    destruct Hok as (? & _). lia.
  - (* Invoke *)
    intros [= <-]. by apply proc_ok_add_call.
  - (* Lock *)
    destruct (calls s !! i) as [call|] eqn:Hi; simpl; [| done].
    unfold Collect_Lock. destruct (phase call) eqn:Hph; try done.
    destruct (mutex s) eqn:Hmu; [done |]. intros [= <-].
    by apply proc_ok_Lock.
  - (* List *)
    destruct (calls s !! i) as [call|] eqn:Hi; simpl; [| done].
    unfold Collect_List. destruct (phase call) eqn:Hph; try done.
    destruct res as [pods | msg]; intros [= <-].
    + pose proof (proc_ok_lookup _ _ _ Hok Hi) as (Hwg & Hch & Htasks & Hp).
      rewrite Hph in Hp.
      eapply proc_ok_set_call; [done | done | | by unfold active; simpl; rewrite Hph].
      split4; simpl; try done. rewrite Hp. reflexivity.
    + unfold Unlock. destruct (mutex s) eqn:Hmu.
      * apply (proc_ok_set_mutex (panic msg s)); [by apply proc_ok_panic | done].
      * by do 2 apply proc_ok_panic.
  - (* Go *)
    destruct (calls s !! i) as [call|] eqn:Hi; simpl; [| done].
    unfold Collect_go. destruct (phase call) as [| | [|item rest] |] eqn:Hph; try done.
    intros [= <-].
    pose proof (proc_ok_lookup _ _ _ Hok Hi) as (Hwg & Hch & Htasks & Hp).
    rewrite Hph in Hp.
    eapply proc_ok_set_call; [done | done | | by unfold active; simpl; rewrite Hph].
    split4; simpl.
    + rewrite running_app. simpl. lia.
    + rewrite omap_app. simpl. by rewrite app_nil_r.
    + apply Forall_app. split; [done |]. by repeat constructor.
    + rewrite fmap_app. simpl. by rewrite <- app_assoc.
  - (* Wait *)
    destruct (calls s !! i) as [call|] eqn:Hi; simpl; [| done].
    unfold Collect_Wait. destruct (phase call) as [| | [|item rest] |] eqn:Hph; try done.
    case_bool_decide as Hz; [| done]. intros [= <-].
    destruct (proc_ok_Wait s i call) as [-> ?]; done.
  - (* Start *)
    destruct (calls s !! i) as [call|] eqn:Hi; simpl; [| done].
    destruct (tasks call !! j) as [t|] eqn:Hj; simpl; [| done].
    unfold healthCheck_start. destruct (tstate t) eqn:Hst; try done.
    assert (Hun : finished t = false) by (unfold finished; by rewrite Hst).
    pose proof (proc_ok_lookup _ _ _ Hok Hi) as Hcall.
    pose proof Hcall as (Hwg & _).
    destruct (healthCheck_target (tpod t)) as [[url|]|msg] eqn:Htarget; intros [= <-].
    + eapply proc_ok_set_call; [done | done | | done].
      eapply (call_ok_update _ _ call _ j t (at_state (InFlight (clock s) url) t));
        try done; simpl; [| lia | by rewrite app_nil_r].
      unfold task_ok. simpl. split; [done |]. destruct Hok as (? & _). lia.
    + rewrite Done_eq by done.
      eapply proc_ok_set_call; [done | done | | done].
      eapply (call_ok_update _ _ call _ j t (at_state (Finished None) t));
        try done; simpl; [| lia | by rewrite app_nil_r].
      unfold task_ok. simpl. left. by apply healthCheck_target_None.
    + rewrite Done_eq by done.
      eapply (proc_ok_set_call (panic msg s)); [by apply proc_ok_panic | done | | done].
      eapply (call_ok_update _ _ call _ j t (at_state (Finished None) t));
        try done; simpl;
        [by apply (call_ok_mono (clock s) _ (crashed s)); [lia | |] | | lia
        | by rewrite app_nil_r].
      unfold task_ok. simpl. right. split; [| done].
      exists msg. by apply healthCheck_target_Panic.
  - (* Response *)
    destruct (calls s !! i) as [call|] eqn:Hi; simpl; [| done].
    destruct (tasks call !! j) as [t|] eqn:Hj; simpl; [| done].
    unfold healthCheck_response. destruct (tstate t) as [| start url | |] eqn:Hst; try done.
    assert (Hun : finished t = false) by (unfold finished; by rewrite Hst).
    pose proof (proc_ok_lookup _ _ _ Hok Hi) as Hcall.
    pose proof Hcall as (Hwg & _ & Htasks & _).
    eapply Forall_lookup_1 in Htasks; [| done]. unfold task_ok in Htasks.
    rewrite Hst in Htasks. destruct Htasks as [Htarget Hstart].
    rewrite healthCheck_metric_NewMetrics. intros [= <-].
    eapply proc_ok_set_call; [done | done | | done].
    eapply (call_ok_update _ _ call _ j t (at_state (Built _) t));
      try done; simpl; [| lia | by rewrite app_nil_r].
    unfold task_ok. simpl. split.
    + apply healthCheck_target_Some in Htarget as (h & ? & _). by exists h.
    + apply sample_of_metric; [done |]. by destruct Hok as ([? ?] & _).
  - (* Send *)
    destruct (calls s !! i) as [call|] eqn:Hi; simpl; [| done].
    destruct (tasks call !! j) as [t|] eqn:Hj; simpl; [| done].
    unfold healthCheck_send. destruct (tstate t) as [| | metric |] eqn:Hst; try done.
    assert (Hun : finished t = false) by (unfold finished; by rewrite Hst).
    pose proof (proc_ok_lookup _ _ _ Hok Hi) as Hcall.
    pose proof Hcall as (Hwg & _ & Htasks & _).
    eapply Forall_lookup_1 in Htasks; [| done]. unfold task_ok in Htasks.
    rewrite Hst in Htasks. destruct Htasks as [Hprobed Hsample].
    intros [= <-]. rewrite Done_eq by done.
    eapply proc_ok_set_call; [done | done | | done].
    eapply (call_ok_update _ _ call _ j t
              (at_state (Finished (Some (prometheus.NewMetricWithTimestamp (clock s) metric))) t));
      try done; simpl; lia.
Qed.

Lemma run_ok evs s s' :
  proc_ok s → run NewMetrics evs s = Some s' → proc_ok s'.
Proof.
  revert s. induction evs as [|e evs IH]; simpl; intros s Hok.
  - by intros [= <-].
  - destruct (step NewMetrics e s) as [s1|] eqn:Hstep; simpl; [| done].
    apply IH. by eapply step_ok.
Qed.

Lemma proc_ok_boot : proc_ok boot.
Proof.
  split4; simpl; [done | constructor | done |].
  intros _. split; [done |]. by intros (i & call & ? & _).
Qed.

Lemma reachable_ok s : reachable s → proc_ok s.
Proof. intros [evs Hrun]. eapply run_ok; [apply proc_ok_boot | done]. Qed.

(** ** Which pods are probed *)

Lemma livenessHTTPGet_Some pod httpGet :
  livenessHTTPGet pod = Ok (Some httpGet) ↔ declares pod httpGet.
Proof.
  unfold livenessHTTPGet, declares, index.
  destruct (coreV1.Containers (coreV1.Spec pod)) as [|c cs]; simpl.
  - split; [done | by intros (? & ? & ? & ? & _)].
  - split.
    + destruct (coreV1.LivenessProbe c) as [lp|] eqn:E; [| done].
      intros [= H]. by exists c, cs, lp.
    + intros (c' & cs' & lp & [= <- <-] & -> & ->). done.
Qed.

Lemma livenessHTTPGet_None pod :
  livenessHTTPGet pod = Ok None ↔ lacks_probe pod.
Proof.
  unfold livenessHTTPGet, lacks_probe, index.
  destruct (coreV1.Containers (coreV1.Spec pod)) as [|c cs]; simpl.
  - split; [done | by intros (? & ? & ? & _)].
  - split.
    + destruct (coreV1.LivenessProbe c) as [lp|] eqn:E.
      * intros [= H]. exists c, cs. split; [done |]. right. by exists lp.
      * intros _. exists c, cs. split; [done |]. by left.
    + intros (c' & cs' & [= <- <-] & [-> | (lp & -> & ->)]); done.
Qed.

Lemma livenessHTTPGet_Panic pod msg :
  livenessHTTPGet pod = Panic msg ↔
  coreV1.Containers (coreV1.Spec pod) = [] ∧
  msg = "runtime error: index out of range [0] with length 0".
Proof.
  unfold livenessHTTPGet, index.
  destruct (coreV1.Containers (coreV1.Spec pod)) as [|c cs]; simpl.
  - split; [by intros [= <-] | by intros [_ ->]].
  - split; [| by intros [? _]]. by destruct (coreV1.LivenessProbe c).
Qed.

Lemma healthCheck_target_declares pod httpGet :
  declares pod httpGet →
  healthCheck_target pod
  = Ok (Some (probeURL (coreV1.PodIP (coreV1.Status pod)) httpGet)).
Proof.
  intros H. apply livenessHTTPGet_Some in H. unfold healthCheck_target.
  by rewrite H.
Qed.

(** ** The value and the labels of a sample *)

Lemma Describe_NewMetrics : Describe NewMetrics = [healthDesc].
Proof. reflexivity. Qed.

Lemma sample_of_labels pod m :
  sample_of pod m →
  prometheus.label m "namespace" = Some (metav1.Namespace (coreV1.ObjectMeta pod)) ∧
  prometheus.label m "container_name"
    = Some (default "" (metav1.Labels (coreV1.ObjectMeta pod) !! "app")) ∧
  prometheus.label m "pod_name" = Some (metav1.Name (coreV1.ObjectMeta pod)).
Proof.
  intros (Hdesc & _ & Hlabels & _). unfold prometheus.label.
  rewrite Hdesc, Hlabels. unfold podLabels. simpl.
  split_and!; reflexivity.
Qed.

Lemma probeDuration_failure start r now msg :
  http.err r = Some msg → probeDuration start r now = -1.
Proof. unfold probeDuration. by intros ->. Qed.

Lemma probeDuration_success start r now :
  http.err r = None → 0 ≤ time.mono start ≤ time.mono now →
  time.mono now ≤ time.maxDuration →
  probeDuration start r now = time.mono now - time.mono start.
Proof.
  unfold probeDuration, time.Since. intros -> ? ?. by apply subMono_exact.
Qed.

(** ** What the invariant says of a goroutine *)

Lemma reachable_call s i call :
  reachable s → calls s !! i = Some call → call_ok (clock s) (crashed s) call.
Proof. intros Hs. apply proc_ok_lookup. by apply reachable_ok. Qed.

Lemma reachable_stateAfter evs :
  is_Some (run NewMetrics evs boot) → reachable (stateAfter evs).
Proof.
  intros [s Hs]. exists evs. unfold stateAfter. by rewrite Hs.
Qed.

Lemma probed_declares pod : probed pod ↔ ∃ httpGet, declares pod httpGet.
Proof.
  unfold probed. split; intros [h H]; exists h; by apply livenessHTTPGet_Some.
Qed.

Lemma task_ok_emitted now cr t :
  task_ok now cr t → finished t = true → emitted (tpod t) (sent t).
Proof.
  unfold task_ok, finished, sent, emitted.
  destruct (tstate t) as [| | | [m|]]; try done.
  - intros [Hp Hs] _. split; [by apply probed_declares | done].
  - intros Hn _ [h Hh]. apply livenessHTTPGet_Some in Hh.
    destruct Hn as [Hn | [[msg Hn] _]]; unfold unprobed in *; congruence.
Qed.

Lemma task_ok_lacks now cr t :
  task_ok now cr t → lacks_probe (tpod t) →
  tstate t = Ready ∨ tstate t = Finished None.
Proof.
  unfold task_ok. intros Hok Hl. apply livenessHTTPGet_None in Hl.
  destruct (tstate t) as [| start url | m | [m|]]; auto.
  - destruct Hok as [Hok _]. apply healthCheck_target_Some in Hok as (h & Hh & _).
    congruence.
  - destruct Hok as [[h Hh] _]. congruence.
  - destruct Hok as [[h Hh] _]. congruence.
Qed.

Lemma task_ok_sent now cr t sample :
  task_ok now cr t → sent t = Some sample →
  (∃ httpGet, declares (tpod t) httpGet) ∧ sample_of (tpod t) sample.
Proof.
  unfold task_ok, sent. destruct (tstate t) as [| | | [m|]]; try done.
  intros [Hp Hs] [= <-]. split; [by apply probed_declares | done].
Qed.

Lemma call_ok_pods now cr call t :
  call_ok now cr call → t ∈ tasks call → tpod t ∈ items call.
Proof.
  intros (_ & _ & _ & Hp) Ht.
  assert (tpod t ∈ tpod <$> tasks call) by (by apply list_elem_of_fmap_2).
  destruct (phase call).
  - rewrite Hp in Ht. by apply elem_of_nil in Ht.
  - rewrite Hp in Ht. by apply elem_of_nil in Ht.
  - rewrite <- Hp. apply elem_of_app. by left.
  - destruct Hp as [<- _]. done.
Qed.

Lemma omap_id_fmap {A B} (f : A → option B) (l : list A) :
  omap id (f <$> l) = omap f l.
Proof.
  induction l as [|x l IH]; [done |]. rewrite fmap_cons.
  cbn [omap list_omap]. fold (omap id (f <$> l)). fold (omap f l).
  rewrite IH. by destruct (f x).
Qed.

Lemma returned_outs now cr call :
  call_ok now cr call → phase call = Returned →
  Forall2 emitted (items call) (sent <$> tasks call).
Proof.
  intros (_ & _ & Htasks & Hp) Hph. rewrite Hph in Hp. destruct Hp as [<- Hrun].
  apply running_zero in Hrun.
  apply Forall2_fmap. apply Forall_Forall2_diag.
  rewrite Forall_forall in Htasks, Hrun. apply Forall_forall. intros t Ht.
  eapply task_ok_emitted; eauto.
Qed.

(** ** A call in its loop always gets to its return *)

Lemma todo_app l1 l2 : todo (l1 ++ l2) = (todo l1 + todo l2)%nat.
Proof. induction l1 as [|t l1 IH]; simpl; lia. Qed.

Lemma todo_insert l j t t' :
  l !! j = Some t →
  (todo (<[j := t']> l) + remaining t = todo l + remaining t')%nat.
Proof.
  intros Hj. destruct (insert_split l j t t' Hj) as (l1 & l2 & -> & -> & _).
  rewrite !todo_app. simpl. lia.
Qed.

Lemma running_pick l :
  running l ≠ 0 → ∃ j t, l !! j = Some t ∧ finished t = false.
Proof.
  induction l as [|t l IH]; simpl; [done |].
  destruct (finished t) eqn:E.
  - intros H. destruct IH as (j & t' & Hj & Ht'); [lia |]. by exists (S j), t'.
  - intros _. by exists 0%nat, t.
Qed.

Lemma lookup_set_call s i call call' :
  calls s !! i = Some call → calls (set_call i call' s) !! i = Some call'.
Proof.
  intros Hi. simpl. apply list_lookup_insert_eq. by eapply lookup_lt_Some.
Qed.

Lemma progress s i call rest net :
  proc_ok s → crashed s = None → calls s !! i = Some call →
  phase call = Looping rest →
  (∀ pod, pod ∈ items call → coreV1.Containers (coreV1.Spec pod) ≠ []) →
  ∃ e s' call',
    drives i net e ∧ step NewMetrics e s = Some s' ∧ crashed s' = None ∧
    calls s' !! i = Some call' ∧ items call' = items call ∧
    (phase call' = Returned ∨
     (∃ rest', phase call' = Looping rest') ∧ (work call' < work call)%nat).
Proof.
  intros Hok Hcr Hi Hph Hpods.
  pose proof (proc_ok_lookup _ _ _ Hok Hi) as Hcall.
  pose proof Hcall as (Hwg & Hch & Htasks & Hp). rewrite Hph in Hp.
  destruct rest as [|item rest].
  { destruct (decide (wg call = 0)) as [Hz | Hnz].
    - exists (Wait i). eexists _, _.
      destruct (proc_ok_Wait s i call) as [HU _]; try done.
      split; [done |]. split.
      + unfold step. rewrite Hcr. simpl. rewrite Hi. simpl.
        unfold Collect_Wait. rewrite Hph. rewrite bool_decide_eq_true_2 by done.
        by rewrite HU.
      + split; [done |]. split; [by apply (lookup_set_call s i call) |]. split; [done | by left].
    - rewrite Hwg in Hnz. destruct (running_pick _ Hnz) as (j & t & Hj & Hun).
      pose proof (Forall_lookup_1 _ _ _ _ Htasks Hj) as Ht.
      assert (Hin : tpod t ∈ items call).
      { eapply call_ok_pods; [done |]. by eapply list_elem_of_lookup_2. }
      unfold task_ok in Ht. unfold finished in Hun.
      destruct (tstate t) as [| start url | metric | o] eqn:Hst; [| | | done].
      + exists (Start i j).
        assert (Hstep : step NewMetrics (Start i j) s = healthCheck_start i j call t s).
        { unfold step. rewrite Hcr. simpl. rewrite Hi. simpl. by rewrite Hj. }
        unfold healthCheck_start in Hstep. rewrite Hst in Hstep.
        destruct (healthCheck_target (tpod t)) as [[url|]|msg] eqn:Htarget.
        * eexists _, _. split; [done |]. split; [exact Hstep |].
          split; [done |]. split; [by apply (lookup_set_call s i call) |].
          split; [done |]. right. split; [by exists [] |].
          unfold work. simpl. rewrite Hph. simpl.
          pose proof (todo_insert (tasks call) j t (at_state (InFlight (clock s) url) t) Hj) as E.
          unfold remaining in E. simpl in E. rewrite Hst in E. lia.
        * rewrite Done_eq in Hstep by (done || (unfold finished; by rewrite Hst)).
          eexists _, _. split; [done |]. split; [exact Hstep |].
          split; [done |]. split; [by apply (lookup_set_call s i call) |].
          split; [done |]. right. split; [by exists [] |].
          unfold work. simpl. rewrite Hph. simpl.
          pose proof (todo_insert (tasks call) j t (at_state (Finished None) t) Hj) as E.
          unfold remaining in E. simpl in E. rewrite Hst in E. lia.
        * apply healthCheck_target_Panic, livenessHTTPGet_Panic in Htarget as [Hnil _].
          by apply Hpods in Hin.
      + exists (Response i j (net j)).
        assert (Hstep : step NewMetrics (Response i j (net j)) s
                        = healthCheck_response NewMetrics i j (net j) call t s).
        { unfold step. rewrite Hcr. simpl. rewrite Hi. simpl. by rewrite Hj. }
        unfold healthCheck_response in Hstep. rewrite Hst in Hstep.
        rewrite healthCheck_metric_NewMetrics in Hstep.
        eexists _, _. split; [done |]. split; [exact Hstep |].
        split; [done |]. split; [by apply (lookup_set_call s i call) |].
        split; [done |]. right. split; [by exists [] |].
        unfold work. simpl. rewrite Hph. simpl.
        match goal with |- context [<[j := ?t']> _] =>
          pose proof (todo_insert (tasks call) j t t' Hj) as E end.
        unfold remaining in E. simpl in E. rewrite Hst in E. lia.
      + exists (Send i j).
        assert (Hstep : step NewMetrics (Send i j) s = healthCheck_send i j call t s).
        { unfold step. rewrite Hcr. simpl. rewrite Hi. simpl. by rewrite Hj. }
        unfold healthCheck_send in Hstep. rewrite Hst in Hstep.
        rewrite Done_eq in Hstep by (done || (unfold finished; by rewrite Hst)).
        eexists _, _. split; [done |]. split; [exact Hstep |].
        split; [done |]. split; [by apply (lookup_set_call s i call) |].
        split; [done |]. right. split; [by exists [] |].
        unfold work. simpl. rewrite Hph. simpl.
        match goal with |- context [<[j := ?t']> _] =>
          pose proof (todo_insert (tasks call) j t t' Hj) as E end.
        unfold remaining in E. simpl in E. rewrite Hst in E. lia. }
  exists (Go i). eexists _, _. split; [done |]. split.
  - unfold step. rewrite Hcr. simpl. rewrite Hi. simpl.
    unfold Collect_go. by rewrite Hph.
  - split; [done |]. split; [by apply (lookup_set_call s i call) |].
    split; [done |]. right. split; [by exists rest |].
    unfold work. simpl. rewrite Hph. simpl. rewrite todo_app. simpl. lia.
Qed.

Lemma completes n : ∀ s i call rest net,
  (work call ≤ n)%nat →
  proc_ok s → crashed s = None → calls s !! i = Some call →
  phase call = Looping rest →
  (∀ pod, pod ∈ items call → coreV1.Containers (coreV1.Spec pod) ≠ []) →
  ∃ evs s' call',
    Forall (drives i net) evs ∧ run NewMetrics evs s = Some s' ∧
    crashed s' = None ∧ calls s' !! i = Some call' ∧
    phase call' = Returned ∧ items call' = items call.
Proof.
  induction n as [|n IH]; intros s i call rest net Hn Hok Hcr Hi Hph Hpods.
  { unfold work in Hn. rewrite Hph in Hn. lia. }
  destruct (progress s i call rest net) as (e & s1 & call1 & He & Hstep & Hcr1 & Hi1 & Hit & Hnext);
    try done.
  destruct Hnext as [Hret | [[rest1 Hph1] Hlt]].
  - exists [e], s1, call1. split; [by constructor |]. simpl. rewrite Hstep.
    by split_and!.
  - destruct (IH s1 i call1 rest1 net) as (evs & s' & call' & Hevs & Hrun & ? & ? & ? & ?);
      try done.
    + lia.
    + by eapply step_ok.
    + by rewrite Hit.
    + exists (e :: evs), s', call'. split; [by constructor |]. simpl. rewrite Hstep.
      simpl. split_and!; try done. congruence.
Qed.

(** ** What a step of a goroutine presupposes *)

Lemma step_Start_inv c s s' i j :
  step c (Start i j) s = Some s' →
  ∃ call t,
    crashed s = None ∧ calls s !! i = Some call ∧ tasks call !! j = Some t ∧
    tstate t = Ready ∧
    s' = match healthCheck_target (tpod t) with
         | Panic msg => panic msg (Done i j t None call s)
         | Ok None => Done i j t None call s
         | Ok (Some url) => set_call i (set_task j (at_state (InFlight (clock s) url) t) call) s
         end.
Proof.
  unfold step. destruct (crashed s); [done |]. simpl.
  destruct (calls s !! i) as [call|] eqn:Hi; simpl; [| done].
  destruct (tasks call !! j) as [t|] eqn:Hj; simpl; [| done].
  unfold healthCheck_start. destruct (tstate t) eqn:Hst; try done.
  intros H. exists call, t. split_and!; try done.
  revert H. by destruct (healthCheck_target (tpod t)) as [[url|]|msg]; intros [= <-].
Qed.

Lemma step_Tick_inv c s s' dt :
  step c (Tick dt) s = Some s' →
  crashed s = None ∧ s' = set_clock (advance dt (clock s)) s.
Proof.
  unfold step. destruct (crashed s); [done |]. unfold tick.
  destruct (_ && _); [| done]. by intros [= <-].
Qed.

Lemma step_Response_inv c s s' i j r :
  step c (Response i j r) s = Some s' →
  ∃ call t start url,
    crashed s = None ∧ calls s !! i = Some call ∧ tasks call !! j = Some t ∧
    tstate t = InFlight start url ∧
    s' = match healthCheck_metric c (tpod t) start r (clock s) with
         | Panic msg => panic msg (Done i j t None call s)
         | Ok metric => set_call i (set_task j (at_state (Built metric) t) call) s
         end.
Proof.
  unfold step. destruct (crashed s); [done |]. simpl.
  destruct (calls s !! i) as [call|] eqn:Hi; simpl; [| done].
  destruct (tasks call !! j) as [t|] eqn:Hj; simpl; [| done].
  unfold healthCheck_response. destruct (tstate t) as [| start url | |] eqn:Hst; try done.
  intros H. exists call, t, start, url. split_and!; try done.
  revert H. by destruct (healthCheck_metric c (tpod t) start r (clock s)); intros [= <-].
Qed.

Lemma step_Send_inv c s s' i j :
  step c (Send i j) s = Some s' →
  ∃ call t metric,
    crashed s = None ∧ calls s !! i = Some call ∧ tasks call !! j = Some t ∧
    tstate t = Built metric ∧
    s' = Done i j t (Some (prometheus.NewMetricWithTimestamp (clock s) metric))
           (send (prometheus.NewMetricWithTimestamp (clock s) metric) call) s.
Proof.
  unfold step. destruct (crashed s); [done |]. simpl.
  destruct (calls s !! i) as [call|] eqn:Hi; simpl; [| done].
  destruct (tasks call !! j) as [t|] eqn:Hj; simpl; [| done].
  unfold healthCheck_send. destruct (tstate t) as [| | metric |] eqn:Hst; try done.
  intros [= <-]. by exists call, t, metric.
Qed.

Lemma calls_Done_same i j t o call s :
  calls (Done i j t o call s) !! i
  = (if decide (i < length (calls s))%nat
     then Some (set_wg (if wg call - 1 <? 0 then wg call else wg call - 1)
                  (set_task j (at_state (Finished o) t) call))
     else None).
Proof.
  unfold Done. simpl. destruct (wg call - 1 <? 0); simpl;
    case_decide; (by rewrite list_lookup_insert_eq) || (apply lookup_ge_None; rewrite length_insert; lia).
Qed.

(** ** A goroutine left alone runs [healthCheck] *)

Lemma goroutine_runs_healthCheck s i j call t dt1 r dt2 s' :
  calls s !! i = Some call → tasks call !! j = Some t → tstate t = Ready →
  run NewMetrics [Start i j; Tick dt1; Response i j r; Tick dt2; Send i j] s = Some s' →
  ∃ call' sample,
    calls s' !! i = Some call' ∧ ch call' = ch call ++ [sample] ∧
    healthCheck NewMetrics (tpod t) (clock s) (λ _, r)
      (advance dt1 (clock s)) (advance dt2 (advance dt1 (clock s))) = Ok [sample].
Proof.
  intros Hi Hj Hst.
  assert (Hlt : (i < length (calls s))%nat) by (by eapply lookup_lt_Some).
  assert (Hltj : (j < length (tasks call))%nat) by (by eapply lookup_lt_Some).
  simpl.
  destruct (step _ (Start i j) s) as [s1|] eqn:H1; simpl; [| done].
  destruct (step _ (Tick dt1) s1) as [s2|] eqn:H2; simpl; [| done].
  destruct (step _ (Response i j r) s2) as [s3|] eqn:H3; simpl; [| done].
  destruct (step _ (Tick dt2) s3) as [s4|] eqn:H4; simpl; [| done].
  destruct (step _ (Send i j) s4) as [s5|] eqn:H5; simpl; [| done]. intros [= <-].
  apply step_Start_inv in H1 as (call0 & t0 & Hcr & Hi0 & Hj0 & _ & ->).
  rewrite Hi in Hi0. injection Hi0 as <-. rewrite Hj in Hj0. injection Hj0 as <-.
  apply step_Tick_inv in H2 as [Hcr1 ->].
  apply step_Response_inv in H3 as (call2 & t2 & start & url & _ & Hi2 & Hj2 & Hst2 & ->).
  apply step_Tick_inv in H4 as [Hcr3 ->].
  apply step_Send_inv in H5 as (call4 & t4 & metric & _ & Hi4 & Hj4 & Hst4 & ->).
  unfold healthCheck.
  destruct (healthCheck_target (tpod t)) as [[url0|]|msg] eqn:Htarget; simpl in *.
  - rewrite list_lookup_insert_eq in Hi2 by done. injection Hi2 as <-. simpl in Hj2.
    rewrite list_lookup_insert_eq in Hj2 by done. injection Hj2 as <-.
    simpl in Hst2. injection Hst2 as <- <-.
    rewrite healthCheck_metric_NewMetrics in *. simpl in *.
    rewrite list_lookup_insert_eq in Hi4 by (by rewrite ?length_insert).
    injection Hi4 as <-. simpl in Hj4.
    rewrite list_lookup_insert_eq in Hj4 by (by rewrite ?length_insert).
    injection Hj4 as <-. simpl in Hst4. injection Hst4 as <-.
    unfold Done. simpl.
    match goal with |- context [if ?b then _ else _] => destruct b end; simpl;
      eexists _, _; (split; [apply list_lookup_insert_eq; by rewrite !length_insert |]);
      by split.
  - rewrite calls_Done_same in Hi2. rewrite decide_True in Hi2 by done.
    injection Hi2 as <-. simpl in Hj2.
    rewrite list_lookup_insert_eq in Hj2 by done. injection Hj2 as <-. done.
  - done.
Qed.

(** ** One call at a time *)

Lemma busy_active now cr call : call_ok now cr call → busy call → active call = true.
Proof.
  intros (_ & _ & _ & Hp) [Hact | (t & Ht & Hun)]; [done |].
  unfold active. destruct (phase call); try done.
  - rewrite Hp in Ht. by apply elem_of_nil in Ht.
  - destruct Hp as [_ Hrun]. apply running_zero in Hrun.
    rewrite Forall_forall in Hrun. apply Hrun in Ht. congruence.
Qed.

Lemma idle_call_cannot_step now cr call s i e :
  call_ok now cr call → active call = false → calls s !! i = Some call →
  caller e = Some i → (crashed s = None → mutex s = true) →
  step NewMetrics e s = None.
Proof.
  intros (_ & _ & _ & Hp) Hact Hi He Hmu. unfold step.
  destruct (crashed s); [done |]. specialize (Hmu eq_refl).
  assert (Htasks : ∀ j t, tasks call !! j = Some t → finished t = true).
  { intros j t Hj. unfold active in Hact. destruct (phase call); try done.
    - by rewrite Hp in Hj.
    - destruct Hp as [_ Hrun]. apply running_zero in Hrun.
      by eapply Forall_lookup_1 in Hrun. }
  unfold active in Hact.
  destruct e as [| | | i' | i' res | i' | i' | i' j | i' j r | i' j]; simpl in He;
    try done; injection He as ->; simpl; rewrite Hi; simpl.
  - unfold Collect_Lock. destruct (phase call); try done. by rewrite Hmu.
  - unfold Collect_List. by destruct (phase call).
  - unfold Collect_go. by destruct (phase call).
  - unfold Collect_Wait. by destruct (phase call).
  - destruct (tasks call !! j) as [t|] eqn:Hj; [| done]. simpl.
    apply Htasks in Hj. unfold healthCheck_start, finished in *. by destruct (tstate t).
  - destruct (tasks call !! j) as [t|] eqn:Hj; [| done]. simpl.
    apply Htasks in Hj. unfold healthCheck_response, finished in *. by destruct (tstate t).
  - destruct (tasks call !! j) as [t|] eqn:Hj; [| done]. simpl.
    apply Htasks in Hj. unfold healthCheck_send, finished in *. by destruct (tstate t).
Qed.

(** ** A step of one call leaves the others alone *)

Lemma set_call_twice s i X Y : set_call i X (set_call i Y s) = set_call i X s.
Proof. unfold set_call. simpl. by rewrite list_insert_insert_eq. Qed.

Lemma set_call_swap s i k X Y :
  i ≠ k → set_call k X (set_call i Y s) = set_call i Y (set_call k X s).
Proof. intros Hne. unfold set_call. simpl. by rewrite list_insert_insert_ne. Qed.

Lemma set_call_Unlock s i Y : Unlock (set_call i Y s) = set_call i Y (Unlock s).
Proof. unfold Unlock. simpl. by destruct (mutex s). Qed.

Lemma set_call_Done s i k j t o X Y :
  i ≠ k → Done k j t o X (set_call i Y s) = set_call i Y (Done k j t o X s).
Proof.
  intros Hne. unfold Done.
  destruct (wg (set_task j (at_state (Finished o) t) X) - 1 <? 0).
  - change (panic ?m (set_call k ?c (set_call i Y s)))
      with (set_call k c (set_call i Y (panic m s))).
    by rewrite set_call_swap.
  - by rewrite set_call_swap.
Qed.

Lemma step_frame c e s i Y :
  caller e ≠ Some i → (i < length (calls s))%nat →
  step c e (set_call i Y s) = set_call i Y <$> step c e s.
Proof.
  intros He Hlt. unfold step. simpl. destruct (crashed s); [done |].
  assert (Hlook : ∀ k, k ≠ i → calls (set_call i Y s) !! k = calls s !! k).
  { intros k Hk. simpl. by apply list_lookup_insert_ne. }
  destruct e as [dt | w | | k | k res | k | k | k j | k j r | k j]; simpl in He.
  - unfold tick. simpl. by destruct (_ && _).
  - done.
  - simpl. f_equal. unfold add_call, set_call. simpl. by rewrite insert_app_l.
  - assert (Hk : k ≠ i) by congruence. simpl. rewrite list_lookup_insert_ne by done.
    destruct (calls s !! k) as [call|]; [| done]. simpl.
    unfold Collect_Lock. destruct (phase call); try done. simpl.
    destruct (mutex s); [done |]. simpl. f_equal.
    change (set_mutex true (set_call i Y s)) with (set_call i Y (set_mutex true s)).
    by rewrite set_call_swap.
  - assert (Hk : k ≠ i) by congruence. simpl. rewrite list_lookup_insert_ne by done.
    destruct (calls s !! k) as [call|]; [| done]. simpl.
    unfold Collect_List. destruct (phase call); try done.
    destruct res; simpl; f_equal.
    + by rewrite set_call_swap.
    + rewrite set_call_Unlock. done.
  - assert (Hk : k ≠ i) by congruence. simpl. rewrite list_lookup_insert_ne by done.
    destruct (calls s !! k) as [call|]; [| done]. simpl.
    unfold Collect_go. destruct (phase call) as [| | [|item rest] |]; try done.
    simpl. f_equal. by rewrite set_call_swap.
  - assert (Hk : k ≠ i) by congruence. simpl. rewrite list_lookup_insert_ne by done.
    destruct (calls s !! k) as [call|]; [| done]. simpl.
    unfold Collect_Wait. destruct (phase call) as [| | [|item rest] |]; try done.
    case_bool_decide; [| done]. simpl. f_equal.
    rewrite set_call_swap by done. by rewrite set_call_Unlock.
  - assert (Hk : k ≠ i) by congruence. simpl. rewrite list_lookup_insert_ne by done.
    destruct (calls s !! k) as [call|]; [| done]. simpl.
    destruct (tasks call !! j) as [t|]; [| done]. simpl.
    unfold healthCheck_start. destruct (tstate t); try done.
    destruct (healthCheck_target (tpod t)) as [[url|]|msg]; simpl; f_equal.
    + by rewrite set_call_swap.
    + by rewrite set_call_Done.
    + rewrite set_call_Done by done. done.
  - assert (Hk : k ≠ i) by congruence. simpl. rewrite list_lookup_insert_ne by done.
    destruct (calls s !! k) as [call|]; [| done]. simpl.
    destruct (tasks call !! j) as [t|]; [| done]. simpl.
    unfold healthCheck_response. destruct (tstate t); try done. simpl.
    destruct (healthCheck_metric _ _ _ _ _); simpl; f_equal.
    + by rewrite set_call_swap.
    + rewrite set_call_Done by done. done.
  - assert (Hk : k ≠ i) by congruence. simpl. rewrite list_lookup_insert_ne by done.
    destruct (calls s !! k) as [call|]; [| done]. simpl.
    destruct (tasks call !! j) as [t|]; [| done]. simpl.
    unfold healthCheck_send. destruct (tstate t); try done. simpl. f_equal.
    by rewrite set_call_Done.
Qed.

Lemma calls_Unlock s : calls (Unlock s) = calls s.
Proof. unfold Unlock. by destruct (mutex s). Qed.

Lemma calls_Done s k j t o X i :
  i ≠ k → calls (Done k j t o X s) !! i = calls s !! i.
Proof.
  intros Hne. unfold Done.
  destruct (_ <? 0); simpl; by rewrite list_lookup_insert_ne.
Qed.

Lemma step_other_call c e s s' i call :
  caller e ≠ Some i → calls s !! i = Some call → step c e s = Some s' →
  calls s' !! i = Some call.
Proof.
  intros He Hi. unfold step. destruct (crashed s); [done |].
  destruct e as [dt | w | | k | k res | k | k | k j | k j r | k j]; simpl in He.
  - unfold tick. destruct (_ && _); [| done]. by intros [= <-].
  - by intros [= <-].
  - intros [= <-]. simpl. by apply lookup_app_l_Some.
  - assert (Hk : k ≠ i) by congruence. simpl.
    destruct (calls s !! k) as [callk|]; [| done]. simpl.
    unfold Collect_Lock. destruct (phase callk); try done.
    destruct (mutex s); [done |]. intros [= <-]. simpl.
    by rewrite list_lookup_insert_ne.
  - assert (Hk : k ≠ i) by congruence. simpl.
    destruct (calls s !! k) as [callk|]; [| done]. simpl.
    unfold Collect_List. destruct (phase callk); try done.
    destruct res; intros [= <-]; simpl.
    + by rewrite list_lookup_insert_ne.
    + by rewrite calls_Unlock.
  - assert (Hk : k ≠ i) by congruence. simpl.
    destruct (calls s !! k) as [callk|]; [| done]. simpl.
    unfold Collect_go. destruct (phase callk) as [| | [|item rest] |]; try done.
    intros [= <-]. simpl. by rewrite list_lookup_insert_ne.
  - assert (Hk : k ≠ i) by congruence. simpl.
    destruct (calls s !! k) as [callk|]; [| done]. simpl.
    unfold Collect_Wait. destruct (phase callk) as [| | [|item rest] |]; try done.
    case_bool_decide; [| done]. intros [= <-]. rewrite calls_Unlock. simpl.
    by rewrite list_lookup_insert_ne.
  - assert (Hk : k ≠ i) by congruence. simpl.
    destruct (calls s !! k) as [callk|]; [| done]. simpl.
    destruct (tasks callk !! j) as [t|]; [| done]. simpl.
    unfold healthCheck_start. destruct (tstate t); try done.
    destruct (healthCheck_target (tpod t)) as [[url|]|msg]; intros [= <-]; simpl.
    + by rewrite list_lookup_insert_ne.
    + by rewrite calls_Done.
    + by rewrite calls_Done.
  - assert (Hk : k ≠ i) by congruence. simpl.
    destruct (calls s !! k) as [callk|]; [| done]. simpl.
    destruct (tasks callk !! j) as [t|]; [| done]. simpl.
    unfold healthCheck_response. destruct (tstate t); try done.
    destruct (healthCheck_metric _ _ _ _ _); intros [= <-]; simpl.
    + by rewrite list_lookup_insert_ne.
    + by rewrite calls_Done.
  - assert (Hk : k ≠ i) by congruence. simpl.
    destruct (calls s !! k) as [callk|]; [| done]. simpl.
    destruct (tasks callk !! j) as [t|]; [| done]. simpl.
    unfold healthCheck_send. destruct (tstate t); try done.
    intros [= <-]. by rewrite calls_Done.
Qed.

(** ** Every step of a call in its loop is a step towards its return *)

Lemma todo_Done i j t o call s :
  tasks call !! j = Some t → (i < length (calls s))%nat →
  ∃ call', calls (Done i j t o call s) !! i = Some call' ∧
           phase call' = phase call ∧
           (todo (tasks call') + remaining t = todo (tasks call))%nat.
Proof.
  intros Hj Hlt. rewrite calls_Done_same. rewrite decide_True by done.
  eexists. split; [done |]. split; [done |]. simpl.
  by rewrite (todo_insert _ _ t).
Qed.

Lemma step_decreases s i call rest e s' :
  calls s !! i = Some call → phase call = Looping rest →
  caller e = Some i → step NewMetrics e s = Some s' →
  ∃ call', calls s' !! i = Some call' ∧ (work call' < work call)%nat.
Proof.
  intros Hi Hph He.
  assert (Hlt : (i < length (calls s))%nat) by (by eapply lookup_lt_Some).
  unfold step. destruct (crashed s); [done |].
  destruct e as [| | | k | k res | k | k | k j | k j r | k j]; simpl in He;
    try done; injection He as ->; simpl; rewrite Hi; simpl.
  - unfold Collect_Lock. by rewrite Hph.
  - unfold Collect_List. by rewrite Hph.
  - unfold Collect_go. rewrite Hph. destruct rest as [|item rest]; [done |].
    intros [= <-]. eexists. split; [simpl; by apply list_lookup_insert_eq |].
    unfold work. simpl. rewrite Hph, todo_app. simpl. lia.
  - unfold Collect_Wait. rewrite Hph. destruct rest as [|item rest]; [| done].
    case_bool_decide; [| done]. intros [= <-]. rewrite calls_Unlock.
    eexists. split; [simpl; by apply list_lookup_insert_eq |].
    unfold work. simpl. rewrite Hph. lia.
  - destruct (tasks call !! j) as [t|] eqn:Hj; [| done]. simpl.
    unfold healthCheck_start. destruct (tstate t) eqn:Hst; try done.
    destruct (healthCheck_target (tpod t)) as [[url|]|msg]; intros [= <-].
    + eexists. split; [simpl; by apply list_lookup_insert_eq |].
      unfold work. simpl. rewrite Hph.
      pose proof (todo_insert (tasks call) j t (at_state (InFlight (clock s) url) t) Hj) as E.
      unfold remaining in E. simpl in E. rewrite Hst in E. lia.
    + destruct (todo_Done i j t None call s Hj Hlt) as (call' & Hc & Hp & E).
      exists call'. split; [done |]. unfold work. rewrite Hp, Hph.
      unfold remaining in E. rewrite Hst in E. lia.
    + destruct (todo_Done i j t None call s Hj Hlt) as (call' & Hc & Hp & E).
      exists call'. split; [done |]. unfold work. rewrite Hp, Hph.
      unfold remaining in E. rewrite Hst in E. lia.
  - destruct (tasks call !! j) as [t|] eqn:Hj; [| done]. simpl.
    unfold healthCheck_response. destruct (tstate t) eqn:Hst; try done.
    destruct (healthCheck_metric _ _ _ _ _) as [metric|msg]; intros [= <-].
    + eexists. split; [simpl; by apply list_lookup_insert_eq |].
      unfold work. simpl. rewrite Hph.
      pose proof (todo_insert (tasks call) j t (at_state (Built metric) t) Hj) as E.
      unfold remaining in E. simpl in E. rewrite Hst in E. lia.
    + destruct (todo_Done i j t None call s Hj Hlt) as (call' & Hc & Hp & E).
      exists call'. split; [done |]. unfold work. rewrite Hp, Hph.
      unfold remaining in E. rewrite Hst in E. lia.
  - destruct (tasks call !! j) as [t|] eqn:Hj; [| done]. simpl.
    unfold healthCheck_send. destruct (tstate t) eqn:Hst; try done. intros [= <-].
    destruct (todo_Done i j t (Some (prometheus.NewMetricWithTimestamp (clock s) metric))
                (send (prometheus.NewMetricWithTimestamp (clock s) metric) call) s Hj Hlt)
      as (call' & Hc & Hp & E).
    exists call'. split; [done |]. unfold work. rewrite Hp. simpl. rewrite Hph.
    simpl in E. unfold remaining in E. rewrite Hst in E. lia.
Qed.

(** ** Runs that differ in one answer stay alike *)

Lemma call_differs_phase j v v' call call' p :
  call_differs_at j v v' call call' →
  call_differs_at j v v' (set_phase p call) (set_phase p call').
Proof. intros (? & ? & ? & ?). by split_and!. Qed.

Lemma call_differs_items j v v' call call' l :
  call_differs_at j v v' call call' →
  call_differs_at j v v' (set_items l call) (set_items l call').
Proof. intros (? & ? & ? & ?). by split_and!. Qed.

Lemma call_differs_wg j v v' call call' n :
  call_differs_at j v v' call call' →
  call_differs_at j v v' (set_wg n call) (set_wg n call').
Proof. intros (? & ? & ? & ?). by split_and!. Qed.

Lemma call_differs_spawn j v v' call call' pod :
  call_differs_at j v v' call call' →
  call_differs_at j v v' (spawn pod call) (spawn pod call').
Proof.
  intros (? & ? & ? & t & t' & pre & post & Hj & Htasks & ? & ? & ?).
  split_and!; try done. exists t, t', pre, post. simpl. split_and!; try done.
  - by apply lookup_app_l_Some.
  - rewrite Htasks. rewrite insert_app_l; [done |]. by eapply lookup_lt_Some.
Qed.

Lemma call_differs_send j v v' call call' m :
  call_differs_at j v v' call call' →
  call_differs_at j v v' (send m call) (send m call').
Proof.
  intros (? & ? & ? & t & t' & pre & post & Hj & Htasks & ? & Hch & Hch').
  split_and!; try done. exists t, t', pre, (post ++ [m]). simpl.
  rewrite Hch, Hch'. split_and!; try done; by rewrite <- !app_assoc.
Qed.

Lemma call_differs_task j v v' call call' j' t2 :
  j' ≠ j → call_differs_at j v v' call call' →
  call_differs_at j v v' (set_task j' t2 call) (set_task j' t2 call').
Proof.
  intros Hne (? & ? & ? & t & t' & pre & post & Hj & Htasks & ? & ? & ?).
  split_and!; try done. exists t, t', pre, post. simpl. split_and!; try done.
  - by rewrite list_lookup_insert_ne.
  - rewrite Htasks. by apply list_insert_insert_ne.
Qed.

Lemma call_differs_lookup j v v' call call' j' :
  j' ≠ j → call_differs_at j v v' call call' →
  tasks call' !! j' = tasks call !! j'.
Proof.
  intros Hne (_ & _ & _ & t & t' & pre & post & Hj & -> & _).
  by apply list_lookup_insert_ne.
Qed.

Lemma Done_same_call c i j t o X s :
  Done i j t o c (set_call i X s) = Done i j t o c s.
Proof. unfold Done. by rewrite !set_call_twice. Qed.

Lemma Done_differs i j v v' j' t o call call' s :
  j' ≠ j → (i < length (calls s))%nat → call_differs_at j v v' call call' →
  ∃ X X',
    calls (Done i j' t o call s) !! i = Some X ∧
    Done i j' t o call' s = set_call i X' (Done i j' t o call s) ∧
    call_differs_at j v v' X X'.
Proof.
  intros Hne Hlt Hd. pose proof Hd as (_ & _ & Hwg & _).
  unfold Done. simpl. rewrite Hwg. destruct (wg call - 1 <? 0); eexists _, _.
  - split; [simpl; by apply list_lookup_insert_eq |].
    split; [unfold panic, set_call; simpl; by rewrite list_insert_insert_eq |].
    by apply call_differs_task.
  - split; [simpl; by apply list_lookup_insert_eq |].
    split; [by rewrite set_call_twice |].
    by apply call_differs_wg, call_differs_task.
Qed.

Lemma step_same_call c e s s2 i j v v' call call' :
  caller e = Some i → calls s !! i = Some call →
  call_differs_at j v v' call call' → step c e s = Some s2 →
  ∃ X X',
    calls s2 !! i = Some X ∧
    step c e (set_call i call' s) = Some (set_call i X' s2) ∧
    call_differs_at j v v' X X'.
Proof.
  intros He Hi Hd. pose proof Hd as (Hph & Hit & Hwg & t & t' & pre & post & Hj & Htasks & Ht & Hch & Hch').
  assert (Hlt : (i < length (calls s))%nat) by (by eapply lookup_lt_Some).
  assert (Hi' : calls (set_call i call' s) !! i = Some call')
    by (simpl; by apply list_lookup_insert_eq).
  unfold step. simpl. destruct (crashed s); [done |].
  destruct e as [| | | k | k res | k | k | k j' | k j' r | k j']; simpl in He;
    try done; injection He as ->; simpl in *; rewrite Hi, Hi'; simpl.
  - (* Lock *)
    unfold Collect_Lock. simpl. rewrite Hph. destruct (phase call); try done.
    destruct (mutex s); [done |]. intros [= <-]. eexists _, _.
    split; [simpl; by apply list_lookup_insert_eq |].
    split; [| by apply call_differs_phase].
    unfold set_call, set_mutex. simpl. by rewrite !list_insert_insert_eq.
  - (* List *)
    unfold Collect_List. rewrite Hph. destruct (phase call); try done.
    destruct res as [pods | msg]; intros [= <-].
    + eexists _, _. split; [simpl; by apply list_lookup_insert_eq |].
      split; [| by apply call_differs_phase, call_differs_items].
      by rewrite !set_call_twice.
    + exists call, call'. split; [simpl; by rewrite calls_Unlock |].
      split; [| done]. by rewrite set_call_Unlock.
  - (* Go *)
    unfold Collect_go. rewrite Hph. destruct (phase call) as [| | [|item rest] |]; try done.
    intros [= <-]. eexists _, _. split; [simpl; by apply list_lookup_insert_eq |].
    split; [by rewrite !set_call_twice |]. rewrite Hwg.
    by apply call_differs_phase, call_differs_spawn, call_differs_wg.
  - (* Wait *)
    unfold Collect_Wait. rewrite Hph, Hwg. destruct (phase call) as [| | [|item rest] |]; try done.
    case_bool_decide; [| done]. intros [= <-]. eexists _, _.
    split; [rewrite calls_Unlock; simpl; by apply list_lookup_insert_eq |].
    split; [| by apply call_differs_phase].
    by rewrite <- set_call_Unlock, !set_call_twice.
  - (* Start *)
    destruct (decide (j' = j)) as [-> | Hne].
    { rewrite Hj. simpl. unfold healthCheck_start. destruct Ht as [_ Ht].
      by destruct (tstate t). }
    rewrite (call_differs_lookup _ _ _ _ _ _ Hne Hd).
    destruct (tasks call !! j') as [t2|]; [| done]. simpl.
    unfold healthCheck_start. destruct (tstate t2); try done.
    destruct (healthCheck_target (tpod t2)) as [[url|]|msg]; intros [= <-].
    + eexists _, _. split; [simpl; by apply list_lookup_insert_eq |].
      split; [by rewrite !set_call_twice |]. by apply call_differs_task.
    + rewrite Done_same_call.
      destruct (Done_differs i j v v' j' t2 None call call' s) as (X & X' & ? & -> & ?);
        try done. by exists X, X'.
    + rewrite Done_same_call.
      destruct (Done_differs i j v v' j' t2 None call call' s) as (X & X' & ? & -> & ?);
        try done. by exists X, X'.
  - (* Response *)
    destruct (decide (j' = j)) as [-> | Hne].
    { rewrite Hj. simpl. unfold healthCheck_response. destruct Ht as [_ Ht].
      by destruct (tstate t). }
    rewrite (call_differs_lookup _ _ _ _ _ _ Hne Hd).
    destruct (tasks call !! j') as [t2|]; [| done]. simpl.
    unfold healthCheck_response. destruct (tstate t2); try done.
    destruct (healthCheck_metric _ _ _ _ _); intros [= <-].
    + eexists _, _. split; [simpl; by apply list_lookup_insert_eq |].
      split; [by rewrite !set_call_twice |]. by apply call_differs_task.
    + rewrite Done_same_call.
      destruct (Done_differs i j v v' j' t2 None call call' s) as (X & X' & ? & -> & ?);
        try done. by exists X, X'.
  - (* Send *)
    destruct (decide (j' = j)) as [-> | Hne].
    + rewrite Hj, Htasks. rewrite list_lookup_insert_eq by (by eapply lookup_lt_Some).
      simpl. unfold healthCheck_send. destruct Ht as [Hpod Ht].
      destruct (tstate t) as [| | m |] eqn:Hst; try done.
      destruct (tstate t') as [| | m' |] eqn:Hst'; try done.
      destruct Ht as (Hsame & Hv & Hv'). intros [= <-].
      rewrite Done_same_call. unfold Done. simpl. rewrite Hwg.
      assert (Hsent : sent t = None) by (unfold sent; by rewrite Hst).
      assert (Hsent' : sent t' = None) by (unfold sent; by rewrite Hst').
      rewrite Hsent in Hch. rewrite Hsent' in Hch'. simpl in Hch, Hch'.
      assert (Hdiff : ∀ n, call_differs_at j v v'
        (set_wg n (set_task j (at_state (Finished (Some (prometheus.NewMetricWithTimestamp (clock s) m))) t)
           (send (prometheus.NewMetricWithTimestamp (clock s) m) call)))
        (set_wg n (set_task j (at_state (Finished (Some (prometheus.NewMetricWithTimestamp (clock s) m'))) t')
           (send (prometheus.NewMetricWithTimestamp (clock s) m') call')))).
      { intros n. split_and!; try done. eexists _, _, (pre ++ post), []. simpl.
        split; [by apply list_lookup_insert_eq; eapply lookup_lt_Some |].
        split; [by rewrite Htasks, !list_insert_insert_eq |].
        split.
        - split; [done |]. simpl. destruct Hsame as (? & ? & ? & ?). by split_and!.
        - by rewrite Hch, Hch'. }
      destruct (wg call - 1 <? 0); eexists _, _.
      * split; [simpl; by apply list_lookup_insert_eq |].
        split; [unfold panic, set_call; simpl; by rewrite list_insert_insert_eq |].
        apply (call_differs_wg _ _ _ _ _ (wg call)) in Hd.
        specialize (Hdiff (wg call)). destruct Hdiff as (? & ? & ? & ?).
        by split_and!.
      * split; [simpl; by apply list_lookup_insert_eq |].
        split; [by rewrite set_call_twice |]. apply Hdiff.
    + rewrite (call_differs_lookup _ _ _ _ _ _ Hne Hd).
      destruct (tasks call !! j') as [t2|]; [| done]. simpl.
      unfold healthCheck_send. destruct (tstate t2); try done. intros [= <-].
      cbn [clock set_call]. rewrite Done_same_call.
      destruct (Done_differs i j v v' j' t2
                  (Some (prometheus.NewMetricWithTimestamp (clock s) metric))
                  (send (prometheus.NewMetricWithTimestamp (clock s) metric) call)
                  (send (prometheus.NewMetricWithTimestamp (clock s) metric) call') s)
        as (X & X' & HX & -> & ?); try done.
      * by apply call_differs_send.
      * by exists X, X'.
Qed.

Lemma step_differs c e s s' s2 i j v v' :
  differs_at i j v v' s s' → step c e s = Some s2 →
  ∃ s2', step c e s' = Some s2' ∧ differs_at i j v v' s2 s2'.
Proof.
  intros (call & call' & Hi & -> & Hd) Hstep.
  destruct (decide (caller e = Some i)) as [He | He].
  - destruct (step_same_call c e s s2 i j v v' call call') as (X & X' & HX & Hstep' & HXd);
      try done.
    exists (set_call i X' s2). split; [done |]. by exists X, X'.
  - exists (set_call i call' s2). split.
    + rewrite step_frame by (done || by eapply lookup_lt_Some). by rewrite Hstep.
    + exists call, call'. split; [| done]. by eapply step_other_call.
Qed.

Lemma run_differs c evs s s' s2 i j v v' :
  differs_at i j v v' s s' → run c evs s = Some s2 →
  ∃ s2', run c evs s' = Some s2' ∧ differs_at i j v v' s2 s2'.
Proof.
  revert s s'. induction evs as [|e evs IH]; simpl; intros s s' Hd.
  - intros [= <-]. by exists s'.
  - destruct (step c e s) as [s1|] eqn:Hstep; simpl; [| done].
    destruct (step_differs c e s s' s1 i j v v') as (s1' & -> & Hd1); try done.
    simpl. by apply IH.
Qed.

Lemma run_app c evs1 evs2 s :
  run c (evs1 ++ evs2) s = s1 ← run c evs1 s; run c evs2 s1.
Proof.
  revert s. induction evs1 as [|e evs1 IH]; simpl; intros s; [done |].
  destruct (step c e s); simpl; [apply IH | done].
Qed.

Lemma Response_differs s i j r r' s1 :
  step NewMetrics (Response i j r) s = Some s1 →
  ∃ s1' start,
    step NewMetrics (Response i j r') s = Some s1' ∧
    differs_at i j (float64 (probeDuration start r (clock s)))
      (float64 (probeDuration start r' (clock s))) s1 s1'.
Proof.
  intros Hstep.
  apply step_Response_inv in Hstep as (call & t & start & url & Hcr & Hi & Hj & Hst & ->).
  rewrite healthCheck_metric_NewMetrics.
  assert (Hlt : (i < length (calls s))%nat) by (by eapply lookup_lt_Some).
  assert (Hltj : (j < length (tasks call))%nat) by (by eapply lookup_lt_Some).
  eexists _, start. split.
  - unfold step. rewrite Hcr. simpl. rewrite Hi. simpl. rewrite Hj. simpl.
    unfold healthCheck_response. rewrite Hst. by rewrite healthCheck_metric_NewMetrics.
  - eexists _, _. split; [simpl; by apply list_lookup_insert_eq |].
    split; [by rewrite set_call_twice |].
    split_and!; try done. eexists _, _, (ch call), []. simpl.
    split; [by apply list_lookup_insert_eq |].
    split; [by rewrite list_insert_insert_eq |].
    split; [by repeat split |]. by rewrite !app_nil_r.
Qed.

(** ** The scenario pods *)

Lemma declares_httpProbe namespace name app podIP httpGet others :
  declares (mkPod namespace name app podIP (httpProbe httpGet :: others)) httpGet.
Proof. by eexists _, _, _. Qed.

Lemma lacks_probe_podB : lacks_probe podB.
Proof. eexists _, _. split; [reflexivity | by left]. Qed.

Lemma differs_at_sym i j v v' s s' :
  differs_at i j v v' s s' → differs_at i j v' v s' s.
Proof.
  intros (call & call' & Hi & -> & Hph & Hit & Hwg & t & t' & pre & post
          & Hj & Htasks & [Hpod Ht] & Hch & Hch').
  assert (Hlt : (i < length (calls s))%nat) by (by eapply lookup_lt_Some).
  assert (Hltj : (j < length (tasks call))%nat) by (by eapply lookup_lt_Some).
  exists call', call. split; [simpl; by apply list_lookup_insert_eq |]. split.
  - rewrite set_call_twice. destruct s as [cl mu cs cr]. unfold set_call. simpl in *.
    by rewrite list_insert_id.
  - split_and!; try done. exists t', t, pre, post.
    rewrite Htasks. split; [by apply list_lookup_insert_eq |].
    split; [by rewrite list_insert_insert_eq, list_insert_id |].
    split; [| done]. split; [done |].
    destruct (tstate t) as [| | m | [m|]], (tstate t') as [| | m' | [m'|]]; try done;
      destruct Ht as ((? & ? & ? & ?) & ? & ?); by repeat split.
Qed.

Lemma differs_at_spec i j v v' s s' :
  differs_at i j v v' s s' →
  crashed s' = crashed s ∧ clock s' = clock s ∧ mutex s' = mutex s ∧
  (∀ k, k ≠ i → calls s' !! k = calls s !! k) ∧
  ∃ call call',
    calls s !! i = Some call ∧ calls s' !! i = Some call' ∧
    call_differs_at j v v' call call' ∧
    (∀ j', j' ≠ j → tasks call' !! j' = tasks call !! j').
Proof.
  intros (call & call' & Hi & -> & Hd). simpl. split_and!; try done.
  - intros k Hk. by apply list_lookup_insert_ne.
  - exists call, call'. split; [done |].
    split; [apply list_lookup_insert_eq; by eapply lookup_lt_Some |].
    split; [done |]. intros j' Hj'. by eapply call_differs_lookup.
Qed.

(** * The claims *)

(** C1: the sample of a probe that succeeded is said to carry the round
    trip in milliseconds, as the name and the help text of the metric say
    too.  A GET of [podA] that takes five milliseconds and is answered
    with status 200 yields one sample, and its value is 5000000, the
    round trip in nanoseconds; in milliseconds the round trip is 5. *)
Theorem value_is_nanoseconds :
  let evs := scrapeOne podA (5 * time.Millisecond) (status 200) in
  run NewMetrics evs boot = Some (stateAfter evs) ∧
  phase (firstCall (stateAfter evs)) = Returned ∧
  prometheus.value <$> ch (firstCall (stateAfter evs)) = [5000000] ∧
  time.Milliseconds (5 * time.Millisecond) = 5 ∧
  prometheus.value <$> ch (firstCall (stateAfter evs))
    ≠ [time.Milliseconds (5 * time.Millisecond)].
Proof. vm_compute. by split_and!. Qed.

(** C2, as stated, fails: the probe of [podNoScheme] leaves the scheme
    unset, which is not the HTTPS scheme, and the URL of its GET is an
    https one. *)
Lemma unset_scheme_gives_https :
  declares podNoScheme getNoScheme ∧
  coreV1.Scheme getNoScheme = "" ∧
  coreV1.Scheme getNoScheme ≠ coreV1.URISchemeHTTPS ∧
  probeScheme getNoScheme ≠ "http://" ∧
  healthCheck_target podNoScheme = Ok (Some "https://10.0.0.4:8080/healthz").
Proof. split; [apply declares_httpProbe |]. by split_and!. Qed.

(** C2, amended: the URL of the GET for a pod starts with the scheme
    prefix of its probe, which is [http://] when the scheme field is
    [HTTP] and [https://] for every other value, the empty one
    included. *)
Theorem scheme_is_http_only_for_HTTP pod httpGet :
  declares pod httpGet →
  (∃ rest, healthCheck_target pod = Ok (Some (probeScheme httpGet +:+ rest))) ∧
  (coreV1.Scheme httpGet = coreV1.URISchemeHTTP → probeScheme httpGet = "http://") ∧
  (coreV1.Scheme httpGet ≠ coreV1.URISchemeHTTP → probeScheme httpGet = "https://").
Proof.
  intros H. split; [| split].
  - eexists. by rewrite (healthCheck_target_declares _ _ H).
  - unfold probeScheme. by intros ->.
  - unfold probeScheme. intros Hne.
    destruct (String.eqb_spec coreV1.URISchemeHTTP (coreV1.Scheme httpGet)); congruence.
Qed.

Lemma scheme_is_http_only_for_HTTP_witness :
  declares podNoScheme getNoScheme ∧
  (∃ rest, healthCheck_target podNoScheme
           = Ok (Some (probeScheme getNoScheme +:+ rest))) ∧
  probeScheme getNoScheme = "https://".
Proof.
  assert (Hd : declares podNoScheme getNoScheme) by apply declares_httpProbe.
  split; [exact Hd |].
  destruct (scheme_is_http_only_for_HTTP podNoScheme getNoScheme Hd) as (H1 & _ & H3).
  split; [exact H1 |]. apply H3. discriminate.
Defined.

(** C3: a pod with no container is said to be skipped without a panic.
    With [podA] and a pod without containers in the list, the goroutine
    of the second panics on [spec.Containers[0]]: the process ends, no
    event can follow, and the sample of [podA] was not written. *)
Theorem pod_without_container_ends_process :
  let s := stateAfter scrapeNoContainer in
  run NewMetrics scrapeNoContainer boot = Some s ∧
  crashed s = Some "runtime error: index out of range [0] with length 0" ∧
  ch (firstCall s) = [] ∧
  ∀ e, step NewMetrics e s = None.
Proof. vm_compute. by split_and!. Qed.




(** C5: when [Collect] has returned, the pods of the list it fetched
    and the samples on its channel match one to one: one sample for each
    pod whose first container declares an HTTP liveness probe, whatever
    its GET returned, and none for any other pod; at every moment the
    channel holds what the goroutines have sent, each sample once.  And
    [Collect] does return: from its loop on, if every pod of the list
    has a container, its own steps lead to its return, whatever the GETs
    return, and each step it or one of its goroutines takes leaves it
    less to do. *)
Theorem probed_pod_has_one_sample s i call :
  reachable s → calls s !! i = Some call →
  ch call ≡ₚ omap sent (tasks call) ∧
  (phase call = Returned →
     ∃ outs, Forall2 emitted (items call) outs ∧ ch call ≡ₚ omap id outs) ∧
  (∀ rest net,
     phase call = Looping rest → crashed s = None →
     (∀ pod, pod ∈ items call → coreV1.Containers (coreV1.Spec pod) ≠ []) →
     ∃ evs s' call',
       Forall (drives i net) evs ∧ run NewMetrics evs s = Some s' ∧
       crashed s' = None ∧ calls s' !! i = Some call' ∧
       phase call' = Returned ∧ items call' = items call) ∧
  (∀ rest e s',
     phase call = Looping rest → caller e = Some i →
     step NewMetrics e s = Some s' →
     ∃ call', calls s' !! i = Some call' ∧ (work call' < work call)%nat).
Proof.
  intros Hs Hi. pose proof (reachable_call _ _ _ Hs Hi) as Hcall.
  pose proof Hcall as (_ & Hch & _).
  split; [done |]. split; [| split].
  - intros Hph. exists (sent <$> tasks call). split.
    + by eapply returned_outs.
    + by rewrite omap_id_fmap.
  - intros rest net Hph Hcr Hpods.
    eapply (completes (work call)); try done. by apply reachable_ok.
  - intros rest e s' Hph He Hstep. by eapply step_decreases.
Qed.

Lemma probed_pod_has_one_sample_witness :
  let s := stateAfter scrapeBA in
  (reachable s ∧ calls s !! 0%nat = Some (firstCall s)) ∧
  ch (firstCall s) ≡ₚ omap sent (tasks (firstCall s)) ∧
  ∃ evs s' call',
    run NewMetrics evs s = Some s' ∧
    calls s' !! 0%nat = Some call' ∧ phase call' = Returned.
Proof.
  intros s.
  assert (Hr : reachable s) by (apply reachable_stateAfter; vm_compute; eauto).
  assert (Hi : calls s !! 0%nat = Some (firstCall s)) by (vm_compute; reflexivity).
  split; [by split |].
  destruct (probed_pod_has_one_sample _ _ _ Hr Hi) as (H1 & _ & H3 & _).
  split; [exact H1 |].
  destruct (H3 [] (λ _, refused)) as (evs & s' & call' & _ & Hrun & _ & Hi' & Hph & _).
  - vm_compute. reflexivity.
  - vm_compute. reflexivity.
  - intros pod Hin. vm_compute in Hin.
    apply elem_of_cons in Hin as [-> | Hin]; [discriminate |].
    apply elem_of_cons in Hin as [-> | Hin]; [discriminate |].
    by apply elem_of_nil in Hin.
  - by exists evs, s', call'.
Defined.

(** C6: a pod whose first container has no liveness probe, or one
    without an HTTP GET action, never has a sample: its goroutine is
    waiting to run or has returned having sent nothing.  The samples on
    the channel are those the goroutines sent, each once, and each
    carries the namespace, the [app] label and the name of the pod of
    its goroutine, a pod of the list fetched in this cycle. *)
Theorem unprobed_pod_has_no_sample s i call :
  reachable s → calls s !! i = Some call →
  (∀ j t, tasks call !! j = Some t → lacks_probe (tpod t) →
     sent t = None ∧ (tstate t = Ready ∨ tstate t = Finished None)) ∧
  ch call ≡ₚ omap sent (tasks call) ∧
  (∀ sample, sample ∈ ch call →
     ∃ j t, tasks call !! j = Some t ∧ sent t = Some sample ∧
       tpod t ∈ items call ∧
       (∃ httpGet, declares (tpod t) httpGet) ∧
       prometheus.label sample "namespace"
         = Some (metav1.Namespace (coreV1.ObjectMeta (tpod t))) ∧
       prometheus.label sample "container_name"
         = Some (default "" (metav1.Labels (coreV1.ObjectMeta (tpod t)) !! "app")) ∧
       prometheus.label sample "pod_name"
         = Some (metav1.Name (coreV1.ObjectMeta (tpod t)))).
Proof.
  intros Hs Hi. pose proof (reachable_call _ _ _ Hs Hi) as Hcall.
  pose proof Hcall as (Hwg & Hch & Htasks & Hp).
  split; [| split; [done |]].
  - intros j t Hj Hl. eapply Forall_lookup_1 in Htasks; [| done].
    destruct (task_ok_lacks _ _ _ Htasks Hl) as [E | E]; unfold sent; rewrite E; auto.
  - intros sample Hin. rewrite Hch in Hin.
    apply list_elem_of_omap in Hin as (t & Ht & Hsent).
    pose proof Ht as Ht'. apply list_elem_of_lookup in Ht' as [j Hj].
    eapply Forall_lookup_1 in Htasks; [| done].
    destruct (task_ok_sent _ _ _ _ Htasks Hsent) as (Hd & Hsample).
    destruct (sample_of_labels _ _ Hsample) as (? & ? & ?).
    exists j, t. split_and!; try done. by eapply call_ok_pods.
Qed.

Lemma unprobed_pod_has_no_sample_witness :
  let s := stateAfter scrapeBA in
  (reachable s ∧ calls s !! 0%nat = Some (firstCall s)) ∧
  (∃ t, tasks (firstCall s) !! 0%nat = Some t ∧
        lacks_probe (tpod t) ∧ sent t = None) ∧
  ch (firstCall s) ≡ₚ omap sent (tasks (firstCall s)).
Proof.
  intros s.
  assert (Hr : reachable s) by (apply reachable_stateAfter; vm_compute; eauto).
  assert (Hi : calls s !! 0%nat = Some (firstCall s)) by (vm_compute; reflexivity).
  split; [by split |].
  destruct (unprobed_pod_has_no_sample _ _ _ Hr Hi) as (H1 & H2 & _).
  split; [| exact H2].
  eexists. split; [vm_compute; reflexivity |].
  split; [exact lacks_probe_podB |].
  eapply proj1, (H1 0%nat); [vm_compute; reflexivity | exact lacks_probe_podB].
Defined.

(** C7: take any run in which a GET returns an error, and the run with
    the same events in which that GET returns anything else.  Each is
    possible whenever the other is, and they end or go on alike: in
    states that are the same but for the goroutine of that GET and the
    place of its sample on the channel.  What that goroutine holds or
    has sent has value [-1] in the first run, and the descriptor, labels
    and time stamp it has in the second; no other call, goroutine or
    sample is touched by the failure, and the process does not end by
    it. *)
Theorem failed_probe_is_local evs1 evs2 i j r r' msg :
  http.err r = Some msg →
  (∀ s, run NewMetrics (evs1 ++ Response i j r :: evs2) boot = Some s →
     ∃ s' v', run NewMetrics (evs1 ++ Response i j r' :: evs2) boot = Some s' ∧
              differs_at i j (-1) v' s s') ∧
  (∀ s', run NewMetrics (evs1 ++ Response i j r' :: evs2) boot = Some s' →
     ∃ s v', run NewMetrics (evs1 ++ Response i j r :: evs2) boot = Some s ∧
             differs_at i j (-1) v' s s') ∧
  (∀ v' s s', differs_at i j (-1) v' s s' →
     crashed s' = crashed s ∧ clock s' = clock s ∧ mutex s' = mutex s ∧
     (∀ k, k ≠ i → calls s' !! k = calls s !! k) ∧
     ∃ call call',
       calls s !! i = Some call ∧ calls s' !! i = Some call' ∧
       call_differs_at j (-1) v' call call' ∧
       (∀ j', j' ≠ j → tasks call' !! j' = tasks call !! j')) ∧
  (∀ s s1, step NewMetrics (Response i j r) s = Some s1 → crashed s1 = None).
Proof.
  intros Herr. split; [| split; [| split]].
  - intros s. rewrite !run_app. simpl.
    destruct (run NewMetrics evs1 boot) as [s0|]; simpl; [| done].
    destruct (step NewMetrics (Response i j r) s0) as [s1|] eqn:Hstep; simpl; [| done].
    intros Hrun.
    destruct (Response_differs s0 i j r r' s1 Hstep) as (s1' & start & -> & Hd1).
    simpl. rewrite (probeDuration_failure _ _ _ _ Herr) in Hd1.
    change (float64 (-1)) with (-1) in Hd1.
    destruct (run_differs _ _ _ _ _ _ _ _ _ Hd1 Hrun) as (s' & Hrun' & Hd).
    by eexists s', _.
  - intros s'. rewrite !run_app. simpl.
    destruct (run NewMetrics evs1 boot) as [s0|]; simpl; [| done].
    destruct (step NewMetrics (Response i j r') s0) as [s1'|] eqn:Hstep; simpl; [| done].
    intros Hrun'.
    destruct (Response_differs s0 i j r' r s1' Hstep) as (s1 & start & -> & Hd1).
    simpl. rewrite (probeDuration_failure _ _ _ _ Herr) in Hd1.
    change (float64 (-1)) with (-1) in Hd1.
    destruct (run_differs _ _ _ _ _ _ _ _ _ Hd1 Hrun') as (s & Hrun & Hd).
    eexists s, _. split; [done |]. by apply differs_at_sym.
  - intros v' s s'. apply differs_at_spec.
  - intros s s1 Hstep.
    apply step_Response_inv in Hstep as (call & t & start & url & Hcr & _ & _ & _ & ->).
    by rewrite healthCheck_metric_NewMetrics.
Qed.

Lemma failed_probe_is_local_witness :
  let failing := scrapeABstarted ++ Response 0 0 refused :: scrapeABrest in
  let answered := scrapeABstarted ++ Response 0 0 (status 200) :: scrapeABrest in
  http.err refused = Some "connect: connection refused" ∧
  run NewMetrics failing boot = Some (stateAfter failing) ∧
  run NewMetrics answered boot = Some (stateAfter answered) ∧
  differs_at 0 0 (-1) 2000 (stateAfter failing) (stateAfter answered) ∧
  prometheus.value <$> ch (firstCall (stateAfter failing)) = [-1] ∧
  prometheus.value <$> ch (firstCall (stateAfter answered)) = [2000] ∧
  phase (firstCall (stateAfter failing)) = Returned.
Proof.
  intros failing answered.
  assert (Herr : http.err refused = Some "connect: connection refused") by reflexivity.
  assert (Hrun : run NewMetrics failing boot = Some (stateAfter failing))
    by (vm_compute; reflexivity).
  assert (Hrun' : run NewMetrics answered boot = Some (stateAfter answered))
    by (vm_compute; reflexivity).
  split; [exact Herr |]. split; [exact Hrun |]. split; [exact Hrun' |].
  destruct (failed_probe_is_local scrapeABstarted scrapeABrest 0 0 refused (status 200) _ Herr)
    as (H1 & _).
  destruct (H1 _ Hrun) as (s' & v' & Hs' & Hd).
  fold answered in Hs'. rewrite Hrun' in Hs'. injection Hs' as <-.
  split; [| vm_compute; by split_and!].
  assert (Hv : v' = 2000); [| by rewrite <- Hv].
  destruct Hd as (call & call' & Hi & Heq & _ & _ & _ & t & t' & _ & _ & Hj & Htasks & [_ Ht] & _).
  assert (Hc' : calls (stateAfter answered) !! 0%nat = Some call').
  { rewrite Heq. simpl. apply list_lookup_insert_eq. by eapply lookup_lt_Some. }
  assert (Ht' : tasks call' !! 0%nat = Some t').
  { rewrite Htasks. apply list_lookup_insert_eq. by eapply lookup_lt_Some. }
  vm_compute in Hc'. injection Hc' as <-.
  vm_compute in Ht'. injection Ht' as <-.
  simpl in Ht. destruct (tstate t) as [| | m | [m|]]; try done.
  by destruct Ht as (_ & _ & <-).
Defined.



(** C9: of two calls of [Collect] on the collector, while one is past
    [Lock] and has not returned, or has a goroutine that has not
    returned, the other is neither, and can take no step at all: it is
    blocked in [Lock] or has returned with all its goroutines.  Once a
    panic has ended the process, on the error path of the list call as
    on any other, no call takes a step. *)
Theorem collects_never_overlap s i1 i2 c1 c2 :
  reachable s → calls s !! i1 = Some c1 → calls s !! i2 = Some c2 →
  i1 ≠ i2 → busy c1 →
  ¬ busy c2 ∧
  (∀ e, caller e = Some i2 → step NewMetrics e s = None) ∧
  (∀ msg s', step NewMetrics (List i1 (ListErr msg)) s = Some s' →
     crashed s' = Some msg ∧ ∀ e, step NewMetrics e s' = None).
Proof.
  intros Hs H1 H2 Hne Hbusy. pose proof (reachable_ok _ Hs) as Hok.
  pose proof (proc_ok_lookup _ _ _ Hok H1) as Hc1.
  pose proof (proc_ok_lookup _ _ _ Hok H2) as Hc2.
  destruct Hok as (_ & _ & Hone & Hmutex).
  pose proof (busy_active _ _ _ Hc1 Hbusy) as A1.
  assert (A2 : active c2 = false).
  { destruct (active c2) eqn:A2; [| done]. destruct Hne. by eapply Hone. }
  split; [| split].
  - intros Hb2. apply (busy_active _ _ _ Hc2) in Hb2. congruence.
  - intros e He. eapply idle_call_cannot_step; try done.
    intros Hcr. apply (Hmutex Hcr). eauto.
  - intros msg s'. unfold step. destruct (crashed s) eqn:Hcr; [done |]. simpl.
    rewrite H1. simpl. unfold Collect_List. destruct (phase c1); try done.
    intros [= <-]. split; [done |]. intros e. unfold step. done.
Qed.

Lemma collects_never_overlap_witness :
  let s := stateAfter twoScrapes in
  let c1 := default newCall (calls s !! 1%nat) in
  (reachable s ∧ calls s !! 1%nat = Some c1 ∧ calls s !! 0%nat = Some (firstCall s) ∧
   1%nat ≠ 0%nat ∧ busy c1) ∧
  ¬ busy (firstCall s) ∧ step NewMetrics (Lock 0) s = None.
Proof.
  intros s c1.
  assert (Hr : reachable s) by (apply reachable_stateAfter; vm_compute; eauto).
  assert (H1 : calls s !! 1%nat = Some c1) by (vm_compute; reflexivity).
  assert (H0 : calls s !! 0%nat = Some (firstCall s)) by (vm_compute; reflexivity).
  assert (Hb : busy c1) by (left; vm_compute; reflexivity).
  assert (Hne : 1%nat ≠ 0%nat) by discriminate.
  split; [by split_and! |].
  destruct (collects_never_overlap s 1%nat 0%nat _ _ Hr H1 H0 Hne Hb) as (N & B & _).
  split; [exact N | by apply B].
Defined.

(** C10: for a pod whose probe names its port, the number in the port
    field is 0, and the goroutine does issue the GET, for the URL with
    port 0. *)
Theorem named_port_probes_port_zero s i j call t httpGet name :
  crashed s = None → calls s !! i = Some call → tasks call !! j = Some t →
  tstate t = Ready →
  declares (tpod t) httpGet → coreV1.Port httpGet = intstr.FromString name →
  let url := probeScheme httpGet +:+ coreV1.PodIP (coreV1.Status (tpod t))
               +:+ ":0" +:+ coreV1.Path httpGet in
  healthCheck_target (tpod t) = Ok (Some url) ∧
  step NewMetrics (Start i j) s
  = Some (set_call i (set_task j (at_state (InFlight (clock s) url) t) call) s).
Proof.
  intros Hcr Hi Hj Hst Hd Hport url.
  assert (Htarget : healthCheck_target (tpod t) = Ok (Some url)).
  { rewrite (healthCheck_target_declares _ _ Hd). unfold probeURL, url.
    by rewrite Hport. }
  split; [done |].
  unfold step. rewrite Hcr. simpl. rewrite Hi. simpl. rewrite Hj. simpl.
  unfold healthCheck_start. by rewrite Hst, Htarget.
Qed.

Lemma named_port_probes_port_zero_witness :
  let s := stateAfter (listed 0 [podNamedPort] ++ [Go 0]) in
  let t := {| tpod := podNamedPort; tstate := Ready |} in
  (crashed s = None ∧ calls s !! 0%nat = Some (firstCall s) ∧
   tasks (firstCall s) !! 0%nat = Some t ∧ tstate t = Ready ∧
   declares (tpod t) getNamedPort ∧
   coreV1.Port getNamedPort = intstr.FromString "web") ∧
  healthCheck_target podNamedPort = Ok (Some "http://10.0.0.6:0/healthz") ∧
  is_Some (step NewMetrics (Start 0 0) s).
Proof.
  intros s t.
  assert (Hcr : crashed s = None) by (vm_compute; reflexivity).
  assert (Hi : calls s !! 0%nat = Some (firstCall s)) by (vm_compute; reflexivity).
  assert (Hj : tasks (firstCall s) !! 0%nat = Some t) by (vm_compute; reflexivity).
  assert (Hd : declares (tpod t) getNamedPort) by apply declares_httpProbe.
  split; [by split_and! |].
  destruct (named_port_probes_port_zero s 0%nat 0%nat (firstCall s) t getNamedPort "web"
              Hcr Hi Hj eq_refl Hd eq_refl) as (H1 & H2).
  split; [exact H1 |]. rewrite H2. by eexists.
Defined.

(** * Further properties *)

(** ** What one event does to the calls *)

Lemma calls_Done_eq i j t o call s :
  calls (Done i j t o call s)
  = <[i := set_wg (if wg call - 1 <? 0 then wg call else wg call - 1)
              (set_task j (at_state (Finished o) t) call)]> (calls s).
Proof. unfold Done. simpl. by destruct (wg call - 1 <? 0). Qed.

Lemma clock_Done i j t o call s : clock (Done i j t o call s) = clock s.
Proof. unfold Done. simpl. by destruct (_ <? 0). Qed.

Lemma clock_Unlock s : clock (Unlock s) = clock s.
Proof. unfold Unlock. by destruct (mutex s). Qed.

(** An event leaves the list of calls as it is, adds a new call at its
    end, or replaces one call by a state of it in which the channel is
    the same or longer by one sample stamped with the present time, the
    goroutines that had returned are as they were, and no goroutine is
    gone. *)
Lemma step_calls c e s s' :
  step c e s = Some s' →
  time.mono (clock s) ≤ time.mono (clock s') ∧
  (calls s' = calls s ∨ calls s' = calls s ++ [newCall] ∨
   ∃ k call X,
     calls s !! k = Some call ∧ calls s' = <[k := X]> (calls s) ∧
     clock s' = clock s ∧
     (ch X = ch call ∨
      ∃ m, ch X = ch call ++ [prometheus.NewMetricWithTimestamp (clock s) m]) ∧
     (∀ j t, tasks call !! j = Some t → finished t = true → tasks X !! j = Some t) ∧
     (length (tasks call) ≤ length (tasks X))%nat).
Proof.
  unfold step. destruct (crashed s); [done |].
  destruct e as [dt | w | | i | i res | i | i | i j | i j r | i j]; simpl.
  - unfold tick. destruct (Z.leb_spec 0 dt); simpl; [| done].
    destruct (_ <=? _); [| done]. intros [= <-]. simpl. split; [lia | by left].
  - intros [= <-]. simpl. split; [lia | by left].
  - intros [= <-]. simpl. split; [lia | right; by left].
  - destruct (calls s !! i) as [call|] eqn:Hi; simpl; [| done].
    unfold Collect_Lock. destruct (phase call); try done.
    destruct (mutex s); [done |]. intros [= <-]. simpl. split; [lia |].
    right; right. exists i, call. eexists. split_and!; try done; try (by left); simpl; lia.
  - destruct (calls s !! i) as [call|] eqn:Hi; simpl; [| done].
    unfold Collect_List. destruct (phase call); try done.
    destruct res; intros [= <-]; simpl.
    + split; [lia |]. right; right. exists i, call. eexists.
      split_and!; try done; try (by left); simpl; lia.
    + rewrite clock_Unlock, calls_Unlock. split; [lia | by left].
  - destruct (calls s !! i) as [call|] eqn:Hi; simpl; [| done].
    unfold Collect_go. destruct (phase call) as [| | [|item rest] |]; try done.
    intros [= <-]. simpl. split; [lia |]. right; right. exists i, call. eexists.
    split_and!; try done; simpl.
    + by left.
    + intros j t Hj _. by apply lookup_app_l_Some.
    + rewrite length_app. lia.
  - destruct (calls s !! i) as [call|] eqn:Hi; simpl; [| done].
    unfold Collect_Wait. destruct (phase call) as [| | [|item rest] |]; try done.
    case_bool_decide; [| done]. intros [= <-].
    rewrite clock_Unlock, calls_Unlock. simpl. split; [lia |].
    right; right. exists i, call. eexists. split_and!; try done; try (by left); simpl; lia.
  - destruct (calls s !! i) as [call|] eqn:Hi; simpl; [| done].
    destruct (tasks call !! j) as [t|] eqn:Hj; simpl; [| done].
    unfold healthCheck_start. destruct (tstate t) eqn:Hst; try done.
    assert (Hother : ∀ t', ∀ j' t'', tasks call !! j' = Some t'' → finished t'' = true →
                           <[j := t']> (tasks call) !! j' = Some t'').
    { intros t' j' t'' Hj' Hfin. destruct (decide (j = j')) as [<- | Hne].
      - rewrite Hj in Hj'. injection Hj' as <-. unfold finished in Hfin.
        by rewrite Hst in Hfin.
      - by rewrite list_lookup_insert_ne. }
    destruct (healthCheck_target (tpod t)) as [[url|]|msg]; intros [= <-]; simpl;
      rewrite ?clock_Done, ?calls_Done_eq; (split; [lia |]); right; right;
      exists i, call; eexists; split_and!; try done; simpl;
      try (by left); try apply Hother; by rewrite length_insert.
  - destruct (calls s !! i) as [call|] eqn:Hi; simpl; [| done].
    destruct (tasks call !! j) as [t|] eqn:Hj; simpl; [| done].
    unfold healthCheck_response. destruct (tstate t) eqn:Hst; try done.
    assert (Hother : ∀ t', ∀ j' t'', tasks call !! j' = Some t'' → finished t'' = true →
                           <[j := t']> (tasks call) !! j' = Some t'').
    { intros t' j' t'' Hj' Hfin. destruct (decide (j = j')) as [<- | Hne].
      - rewrite Hj in Hj'. injection Hj' as <-. unfold finished in Hfin.
        by rewrite Hst in Hfin.
      - by rewrite list_lookup_insert_ne. }
    destruct (healthCheck_metric _ _ _ _ _); intros [= <-]; simpl;
      rewrite ?clock_Done, ?calls_Done_eq; (split; [lia |]); right; right;
      exists i, call; eexists; split_and!; try done; simpl;
      try (by left); try apply Hother; by rewrite length_insert.
  - destruct (calls s !! i) as [call|] eqn:Hi; simpl; [| done].
    destruct (tasks call !! j) as [t|] eqn:Hj; simpl; [| done].
    unfold healthCheck_send. destruct (tstate t) eqn:Hst; try done.
    intros [= <-]. rewrite clock_Done, calls_Done_eq. split; [lia |].
    right; right. exists i, call. eexists. split_and!; try done; simpl.
    + right. by eexists.
    + intros j' t'' Hj' Hfin. destruct (decide (j = j')) as [<- | Hne].
      * rewrite Hj in Hj'. injection Hj' as <-. unfold finished in Hfin.
        by rewrite Hst in Hfin.
      * by rewrite list_lookup_insert_ne.
    + by rewrite length_insert.
Qed.

(** ** What ends the process *)

(** X1: a step ends the process with a panic in two cases only.  Either
    the list call of [Collect] returned an error: the panic carries the
    text of the error, and the deferred [Unlock] has run.  Or a goroutine
    was started for a pod without containers: the panic is the index
    error of line 164, and the mutex stays locked.  No other event ends
    a process that has got so far, whatever the pods and the answers of
    the network. *)
Theorem only_two_panics e s s' msg :
  reachable s → step NewMetrics e s = Some s' → crashed s' = Some msg →
  (∃ i, e = List i (ListErr msg) ∧ mutex s' = false) ∨
  (∃ i j call t,
     e = Start i j ∧ calls s !! i = Some call ∧ tasks call !! j = Some t ∧
     coreV1.Containers (coreV1.Spec (tpod t)) = [] ∧
     msg = "runtime error: index out of range [0] with length 0" ∧
     mutex s' = true).
Proof.
  intros Hs Hstep Hcr'. pose proof (reachable_ok _ Hs) as Hok.
  revert Hstep. unfold step. destruct (crashed s) eqn:Hcr; [done |].
  destruct e as [dt | w | | i | i res | i | i | i j | i j r | i j]; simpl.
  - unfold tick. destruct (_ && _); [| done]. intros [= <-]. simpl in Hcr'. congruence.
  - intros [= <-]. simpl in Hcr'. congruence.
  - intros [= <-]. simpl in Hcr'. congruence.
  - destruct (calls s !! i) as [call|] eqn:Hi; simpl; [| done].
    unfold Collect_Lock. destruct (phase call); try done.
    destruct (mutex s); [done |]. intros [= <-]. simpl in Hcr'. congruence.
  - destruct (calls s !! i) as [call|] eqn:Hi; simpl; [| done].
    unfold Collect_List. destruct (phase call) eqn:Hph; try done.
    destruct res as [pods | m]; intros [= <-]; simpl in Hcr'; [congruence |].
    injection Hcr' as <-. left. exists i. split; [done |].
    assert (Hmu : mutex s = true).
    { destruct Hok as (_ & _ & _ & Hmutex). apply (Hmutex Hcr).
      exists i, call. split; [done |]. unfold active. by rewrite Hph. }
    unfold Unlock. rewrite Hmu. done.
  - destruct (calls s !! i) as [call|] eqn:Hi; simpl; [| done].
    unfold Collect_go. destruct (phase call) as [| | [|item rest] |]; try done.
    intros [= <-]. simpl in Hcr'. congruence.
  - destruct (calls s !! i) as [call|] eqn:Hi; simpl; [| done].
    unfold Collect_Wait. destruct (phase call) as [| | [|item rest] |] eqn:Hph; try done.
    case_bool_decide; [| done]. intros [= <-].
    destruct (proc_ok_Wait s i call) as [HU _]; try done.
    rewrite HU in Hcr'. simpl in Hcr'. congruence.
  - destruct (calls s !! i) as [call|] eqn:Hi; simpl; [| done].
    destruct (tasks call !! j) as [t|] eqn:Hj; simpl; [| done].
    unfold healthCheck_start. destruct (tstate t) eqn:Hst; try done.
    assert (Hun : finished t = false) by (unfold finished; by rewrite Hst).
    pose proof (proc_ok_lookup _ _ _ Hok Hi) as Hcall.
    pose proof Hcall as (Hwg & _ & _ & Hp).
    destruct (healthCheck_target (tpod t)) as [[url|]|m] eqn:Htarget; intros [= <-].
    + simpl in Hcr'. congruence.
    + rewrite Done_eq in Hcr' by done. simpl in Hcr'. congruence.
    + simpl in Hcr'. injection Hcr' as <-.
      apply healthCheck_target_Panic, livenessHTTPGet_Panic in Htarget as [Hnil ->].
      right. exists i, j, call, t. split_and!; try done.
      rewrite Done_eq by done. simpl.
      destruct Hok as (_ & _ & _ & Hmutex). apply (Hmutex Hcr).
      exists i, call. split; [done |]. apply (busy_active _ _ _ Hcall).
      right. exists t. split; [by eapply list_elem_of_lookup_2 | done].
  - destruct (calls s !! i) as [call|] eqn:Hi; simpl; [| done].
    destruct (tasks call !! j) as [t|] eqn:Hj; simpl; [| done].
    unfold healthCheck_response. destruct (tstate t) eqn:Hst; try done.
    rewrite healthCheck_metric_NewMetrics. intros [= <-]. simpl in Hcr'. congruence.
  - destruct (calls s !! i) as [call|] eqn:Hi; simpl; [| done].
    destruct (tasks call !! j) as [t|] eqn:Hj; simpl; [| done].
    unfold healthCheck_send. destruct (tstate t) eqn:Hst; try done.
    assert (Hun : finished t = false) by (unfold finished; by rewrite Hst).
    pose proof (proc_ok_lookup _ _ _ Hok Hi) as (Hwg & _).
    intros [= <-]. rewrite Done_eq in Hcr' by done. simpl in Hcr'. congruence.
Qed.

Lemma only_two_panics_witness :
  let s := stateAfter (listed 0 [podA; podNoContainer] ++ [Go 0; Go 0]) in
  let s' := stateAfter scrapeNoContainer in
  let msg := "runtime error: index out of range [0] with length 0" in
  (reachable s ∧ step NewMetrics (Start 0 1) s = Some s' ∧ crashed s' = Some msg) ∧
  ((∃ i, Start 0 1 = List i (ListErr msg) ∧ mutex s' = false) ∨
   (∃ i j call t,
      Start 0 1 = Start i j ∧ calls s !! i = Some call ∧ tasks call !! j = Some t ∧
      coreV1.Containers (coreV1.Spec (tpod t)) = [] ∧
      msg = "runtime error: index out of range [0] with length 0" ∧
      mutex s' = true)).
Proof.
  intros s s' msg.
  assert (Hr : reachable s) by (apply reachable_stateAfter; vm_compute; eauto).
  assert (Hstep : step NewMetrics (Start 0 1) s = Some s') by (vm_compute; reflexivity).
  assert (Hcr : crashed s' = Some msg) by (vm_compute; reflexivity).
  split; [by split_and! |].
  exact (only_two_panics (Start 0 1) s s' msg Hr Hstep Hcr).
Defined.

(** ** The wait group *)

Lemma running_le_length l : running l ≤ Z.of_nat (length l).
Proof. induction l as [|t l IH]; simpl; [lia | destruct (finished t); lia]. Qed.

Lemma running_finished l : Forall (λ t, finished t = true) l → running l = 0.
Proof. induction 1 as [|t l Ht _ IH]; simpl; [done | rewrite Ht; lia]. Qed.

(** X2: in every state of the process the counter of a call's wait group
    is the number of its goroutines that have not returned; it is never
    negative and never more than the number of goroutines started.
    While the process runs, [wg.Wait()] returns exactly when the loop has
    visited every pod and every goroutine has returned. *)
Theorem wait_group_counts_goroutines s i call :
  reachable s → calls s !! i = Some call →
  wg call = running (tasks call) ∧
  0 ≤ wg call ≤ Z.of_nat (length (tasks call)) ∧
  (crashed s = None →
   (is_Some (step NewMetrics (Wait i) s) ↔
    phase call = Looping [] ∧ Forall (λ t, finished t = true) (tasks call))).
Proof.
  intros Hs Hi. pose proof (reachable_call _ _ _ Hs Hi) as (Hwg & _).
  split; [done |]. split.
  - rewrite Hwg. split; [apply running_nonneg | apply running_le_length].
  - intros Hcr. unfold step. rewrite Hcr. simpl. rewrite Hi. simpl.
    unfold Collect_Wait. split.
    + destruct (phase call) as [| | [|item rest] |];
        try (intros [? ?]; done). case_bool_decide as Hz; [| intros [? ?]; done].
      intros _. split; [done |]. apply running_zero. congruence.
    + intros [-> Hfin]. rewrite bool_decide_eq_true_2; [by eexists |].
      rewrite Hwg. by apply running_finished.
Qed.

Lemma wait_group_counts_goroutines_witness :
  let s := stateAfter (listed 0 [podA; podB] ++ [Go 0; Go 0; Start 0 1]) in
  let call := firstCall s in
  (reachable s ∧ calls s !! 0%nat = Some call) ∧
  wg call = 1 ∧
  wg call = running (tasks call) ∧
  0 ≤ wg call ≤ Z.of_nat (length (tasks call)) ∧
  (crashed s = None →
   (is_Some (step NewMetrics (Wait 0) s) ↔
    phase call = Looping [] ∧ Forall (λ t, finished t = true) (tasks call))).
Proof.
  intros s call.
  assert (Hr : reachable s) by (apply reachable_stateAfter; vm_compute; eauto).
  assert (Hi : calls s !! 0%nat = Some call) by (vm_compute; reflexivity).
  split; [by split |]. split; [vm_compute; reflexivity |].
  exact (wait_group_counts_goroutines s 0%nat call Hr Hi).
Defined.

(** ** One goroutine for each pod, in the order of the list *)

(** X3: [Collect] starts its goroutines in the order of the pod list, one
    for each pod: the pods of the goroutines started are a prefix of the
    list fetched, goroutine [j] has the pod at place [j], what is left of
    the loop is the rest of the list, at the return every pod has its
    goroutine, and there is no goroutine before the list has returned. *)
Theorem goroutines_follow_the_list s i call :
  reachable s → calls s !! i = Some call →
  (tpod <$> tasks call) `prefix_of` items call ∧
  (∀ j t, tasks call !! j = Some t → items call !! j = Some (tpod t)) ∧
  (∀ rest, phase call = Looping rest →
     items call = (tpod <$> tasks call) ++ rest) ∧
  (phase call = Returned → tpod <$> tasks call = items call) ∧
  (phase call = Blocked ∨ phase call = Listing → tasks call = []).
Proof.
  intros Hs Hi. pose proof (reachable_call _ _ _ Hs Hi) as (_ & _ & _ & Hp).
  assert (Hpre : (tpod <$> tasks call) `prefix_of` items call).
  { destruct (phase call) as [| | rest |].
    - rewrite Hp. apply prefix_nil.
    - rewrite Hp. apply prefix_nil.
    - by exists rest.
    - destruct Hp as [-> _]. done. }
  split; [done |]. split_and!.
  - intros j t Hj. destruct Hpre as [rest ->]. apply lookup_app_l_Some.
    by rewrite list_lookup_fmap, Hj.
  - intros rest Hph. by rewrite Hph in Hp.
  - intros Hph. rewrite Hph in Hp. by destruct Hp.
  - intros [Hph | Hph]; by rewrite Hph in Hp.
Qed.

Lemma goroutines_follow_the_list_witness :
  let s := stateAfter (listed 0 [podA; podB; podNoIP] ++ [Go 0; Go 0; Start 0 1]) in
  let call := firstCall s in
  (reachable s ∧ calls s !! 0%nat = Some call) ∧
  (tpod <$> tasks call) = [podA; podB] ∧
  (tpod <$> tasks call) `prefix_of` items call ∧
  (∀ j t, tasks call !! j = Some t → items call !! j = Some (tpod t)) ∧
  (∀ rest, phase call = Looping rest →
     items call = (tpod <$> tasks call) ++ rest) ∧
  (phase call = Returned → tpod <$> tasks call = items call) ∧
  (phase call = Blocked ∨ phase call = Listing → tasks call = []).
Proof.
  intros s call.
  assert (Hr : reachable s) by (apply reachable_stateAfter; vm_compute; eauto).
  assert (Hi : calls s !! 0%nat = Some call) by (vm_compute; reflexivity).
  split; [by split |]. split; [vm_compute; reflexivity |].
  exact (goroutines_follow_the_list s 0%nat call Hr Hi).
Defined.

(** ** The value of a sample tells failure from success *)

(** X6: when the GET of a goroutine returns, the value of the metric
    built is [-1] exactly if [Get] returned an error, and is not negative
    exactly if it returned none: [-1] is never the duration of a probe
    that was answered. *)
Theorem minus_one_means_failure s s1 i j r :
  reachable s → step NewMetrics (Response i j r) s = Some s1 →
  ∃ call t metric,
    calls s1 !! i = Some call ∧ tasks call !! j = Some t ∧
    tstate t = Built metric ∧
    (prometheus.value metric = -1 ↔ is_Some (http.err r)) ∧
    (0 ≤ prometheus.value metric ↔ http.err r = None).
Proof.
  intros Hs Hstep. pose proof (reachable_ok _ Hs) as Hok.
  apply step_Response_inv in Hstep as (call & t & start & url & Hcr & Hi & Hj & Hst & ->).
  pose proof (proc_ok_lookup _ _ _ Hok Hi) as (_ & _ & Htasks & _).
  eapply Forall_lookup_1 in Htasks; [| done]. unfold task_ok in Htasks.
  rewrite Hst in Htasks. destruct Htasks as [_ Hstart].
  destruct Hok as ([_ Hmax] & _).
  rewrite healthCheck_metric_NewMetrics.
  eexists _, _, _. split; [by apply (lookup_set_call s i call) |].
  split; [simpl; apply list_lookup_insert_eq; by eapply lookup_lt_Some |].
  split; [done |]. simpl.
  destruct (http.err r) as [msg|] eqn:Herr.
  - rewrite (probeDuration_failure _ _ _ msg) by done.
    change (float64 (-1)) with (-1).
    split; split; intros; try done; try (by eexists); lia.
  - assert (0 ≤ float64 (probeDuration start r (clock s))).
    { apply float64_nonneg. rewrite probeDuration_success by done. lia. }
    split; split; intros; try done; try lia; by destruct (is_Some_None (A := string)).
Qed.

Lemma minus_one_means_failure_witness :
  let s := stateAfter (inFlight podA 3000) in
  let s1 := stateAfter (inFlight podA 3000 ++ [Response 0 0 refused]) in
  (reachable s ∧ step NewMetrics (Response 0 0 refused) s = Some s1) ∧
  ∃ call t metric,
    calls s1 !! 0%nat = Some call ∧ tasks call !! 0%nat = Some t ∧
    tstate t = Built metric ∧
    (prometheus.value metric = -1 ↔ is_Some (http.err refused)) ∧
    (0 ≤ prometheus.value metric ↔ http.err refused = None).
Proof.
  intros s s1.
  assert (Hr : reachable s) by (apply reachable_stateAfter; vm_compute; eauto).
  assert (Hstep : step NewMetrics (Response 0 0 refused) s = Some s1)
    by (vm_compute; reflexivity).
  split; [by split |].
  exact (minus_one_means_failure s s1 0%nat 0%nat refused Hr Hstep).
Defined.

(** ** How exact the value is *)

Lemma float64_close i : 2 ^ 53 * Z.abs (float64 i - i) ≤ Z.abs i.
Proof.
  unfold float64. destruct (Z.ltb_spec (Z.abs i) (2 ^ 53)) as [|Hbig].
  { rewrite Z.sub_diag. simpl. lia. }
  set (a := Z.abs i) in *. set (e := Z.log2 a - 52).
  assert (Ha : 0 < a) by lia.
  pose proof (Z.log2_spec a Ha) as [Hlo Hhi].
  assert (H53 : 53 ≤ Z.log2 a).
  { apply Z.log2_le_pow2; lia. }
  assert (He : 1 ≤ e) by (unfold e; lia).
  rewrite Z.shiftr_div_pow2 by lia. rewrite Z.land_ones by lia.
  rewrite !Z.shiftl_mul_pow2 by lia. rewrite Z.mul_1_l.
  set (p := 2 ^ e). set (h := 2 ^ (e - 1)).
  assert (Hp : p = 2 * h).
  { unfold p, h. replace e with (Z.succ (e - 1)) at 1 by lia.
    rewrite Z.pow_succ_r by lia. done. }
  assert (Hh : 0 < h) by (unfold h; apply Z.pow_pos_nonneg; lia).
  assert (Hh53 : 2 ^ 53 * h ≤ a).
  { unfold h. rewrite <- Z.pow_add_r by lia.
    replace (53 + (e - 1)) with (Z.log2 a) by (unfold e; lia). done. }
  pose proof (Z.div_mod a p ltac:(lia)) as Hdm.
  pose proof (Z.mod_pos_bound a p ltac:(lia)) as Hr.
  set (q := a / p) in *. set (r := a mod p) in *.
  assert (Hgoal : ∀ q', Z.abs (q' * p - a) ≤ h →
                        2 ^ 53 * Z.abs (Z.sgn i * (q' * p) - i) ≤ a).
  { intros q' Hq'. assert (Z.abs (Z.sgn i * (q' * p) - i) = Z.abs (q' * p - a)) as ->.
    { unfold a. destruct (Z.sgn_spec i) as [[? ->] | [[? ->] | [? ->]]]; lia. }
    nia. }
  apply Hgoal.
  destruct (Z.ltb_spec r h); [nia |].
  destruct (Z.ltb_spec h r); [nia |].
  destruct (Z.even q); nia.
Qed.

(** X7: when a GET returns without an error, the value is the monotonic
    time since line 170 in nanoseconds, converted to a double: that
    number exactly when it is below [2^53] (some 104 days), and within
    one part in [2^53] of it always.  The wall clock has no part in it. *)
Theorem value_is_the_time_waited s s1 i j r :
  reachable s → http.err r = None →
  step NewMetrics (Response i j r) s = Some s1 →
  ∃ call t start url metric,
    calls s !! i = Some call ∧ tasks call !! j = Some t ∧
    tstate t = InFlight start url ∧
    calls s1 !! i = Some (set_task j (at_state (Built metric) t) call) ∧
    let waited := time.mono (clock s) - time.mono start in
    0 ≤ waited ∧
    2 ^ 53 * Z.abs (prometheus.value metric - waited) ≤ waited ∧
    (waited < 2 ^ 53 → prometheus.value metric = waited).
Proof.
  intros Hs Herr Hstep. pose proof (reachable_ok _ Hs) as Hok.
  apply step_Response_inv in Hstep as (call & t & start & url & Hcr & Hi & Hj & Hst & ->).
  pose proof (proc_ok_lookup _ _ _ Hok Hi) as (_ & _ & Htasks & _).
  eapply Forall_lookup_1 in Htasks; [| done]. unfold task_ok in Htasks.
  rewrite Hst in Htasks. destruct Htasks as [_ Hstart].
  destruct Hok as ([_ Hmax] & _).
  rewrite healthCheck_metric_NewMetrics.
  eexists call, t, start, url, _. split_and!; try done.
  - by apply (lookup_set_call s i call).
  - simpl. rewrite probeDuration_success by done.
    split; [lia |]. split.
    + pose proof (float64_close (time.mono (clock s) - time.mono start)). lia.
    + intros Hsmall. apply float64_exact. lia.
Qed.

Lemma value_is_the_time_waited_witness :
  let s := stateAfter (inFlight podA 3000) in
  let s1 := stateAfter (inFlight podA 3000 ++ [Response 0 0 (status 503)]) in
  (reachable s ∧ http.err (status 503) = None ∧
   step NewMetrics (Response 0 0 (status 503)) s = Some s1) ∧
  ∃ call t start url metric,
    calls s !! 0%nat = Some call ∧ tasks call !! 0%nat = Some t ∧
    tstate t = InFlight start url ∧
    calls s1 !! 0%nat = Some (set_task 0 (at_state (Built metric) t) call) ∧
    let waited := time.mono (clock s) - time.mono start in
    0 ≤ waited ∧
    2 ^ 53 * Z.abs (prometheus.value metric - waited) ≤ waited ∧
    (waited < 2 ^ 53 → prometheus.value metric = waited).
Proof.
  intros s s1.
  assert (Hr : reachable s) by (apply reachable_stateAfter; vm_compute; eauto).
  assert (Hstep : step NewMetrics (Response 0 0 (status 503)) s = Some s1)
    by (vm_compute; reflexivity).
  split; [by split_and! |].
  exact (value_is_the_time_waited s s1 0%nat 0%nat (status 503) Hr eq_refl Hstep).
Defined.

(** ** What [Describe] announces is what [Collect] sends *)

(** X8: every sample [Collect] sends has a descriptor that [Describe]
    sends, is a gauge, and has as many label values as its descriptor has
    labels. *)
Theorem samples_are_described s i call sample :
  reachable s → calls s !! i = Some call → sample ∈ ch call →
  prometheus.desc sample ∈ Describe NewMetrics ∧
  prometheus.valType sample = prometheus.GaugeValue ∧
  length (prometheus.labelValues sample)
  = length (prometheus.variableLabels (prometheus.desc sample)).
Proof.
  intros Hs Hi Hin. pose proof (reachable_call _ _ _ Hs Hi) as (_ & Hch & Htasks & _).
  rewrite Hch in Hin. apply list_elem_of_omap in Hin as (t & Ht & Hsent).
  rewrite Forall_forall in Htasks. apply Htasks in Ht.
  destruct (task_ok_sent _ _ _ _ Ht Hsent) as (_ & Hdesc & Hval & Hlabels & _).
  rewrite Describe_NewMetrics, Hdesc, Hlabels. split; [by apply list_elem_of_singleton |].
  done.
Qed.

Lemma samples_are_described_witness :
  let s := stateAfter scrapeTwo in
  let call := firstCall s in
  let sample := sampleAt 1005 1005 ["default"; "svcA"; "a"] in
  (reachable s ∧ calls s !! 0%nat = Some call ∧ sample ∈ ch call) ∧
  prometheus.desc sample ∈ Describe NewMetrics ∧
  prometheus.valType sample = prometheus.GaugeValue ∧
  length (prometheus.labelValues sample)
  = length (prometheus.variableLabels (prometheus.desc sample)).
Proof.
  intros s call sample.
  assert (Hr : reachable s) by (apply reachable_stateAfter; vm_compute; eauto).
  assert (Hi : calls s !! 0%nat = Some call) by (vm_compute; reflexivity).
  assert (Hin : sample ∈ ch call).
  { apply (list_elem_of_lookup_2 _ 1%nat). vm_compute. reflexivity. }
  split; [by split_and! |].
  exact (samples_are_described s 0%nat call sample Hr Hi Hin).
Defined.

(** ** The mutex is free again when [Collect] returns *)

(** X9: when [wg.Wait()] of a call returns, the deferred [Unlock] runs
    without a panic: the mutex is free, no call is between [Lock] and its
    return, and any call blocked in [Lock] can take the mutex and go on
    to list the pods. *)
Theorem return_frees_the_mutex s s' i :
  reachable s → step NewMetrics (Wait i) s = Some s' →
  crashed s' = None ∧ mutex s' = false ∧
  (∀ k call, calls s' !! k = Some call → active call = false) ∧
  (∀ k call, calls s' !! k = Some call → phase call = Blocked →
     ∃ s'', step NewMetrics (Lock k) s' = Some s'' ∧ mutex s'' = true ∧
            ∃ call', calls s'' !! k = Some call' ∧ phase call' = Listing).
Proof.
  intros Hs Hstep. pose proof (reachable_ok _ Hs) as Hok.
  pose proof (step_ok _ _ _ Hok Hstep) as Hok'.
  revert Hstep. unfold step at 1. destruct (crashed s) eqn:Hcr; [done |]. simpl.
  destruct (calls s !! i) as [call|] eqn:Hi; simpl; [| done].
  unfold Collect_Wait. destruct (phase call) as [| | [|item rest] |] eqn:Hph; try done.
  case_bool_decide; [| done]. intros [= <-].
  destruct (proc_ok_Wait s i call) as [HU _]; try done.
  rewrite HU in *. simpl in *.
  assert (Hnone : ∀ k c, <[i := set_phase Returned call]> (calls s) !! k = Some c →
                         active c = false).
  { intros k c Hk. destruct (active c) eqn:A; [| done].
    destruct Hok' as (_ & _ & _ & Hmutex). simpl in Hmutex.
    assert (false = true); [| done]. apply (Hmutex Hcr). eauto. }
  split_and!; try done.
  intros k c Hk Hphk. unfold step. simpl. rewrite Hcr, Hk. simpl.
  unfold Collect_Lock. rewrite Hphk. simpl. eexists. split; [reflexivity |].
  split; [done |]. exists (set_phase Listing c). split; [| done].
  simpl. apply list_lookup_insert_eq. by eapply lookup_lt_Some.
Qed.

Lemma return_frees_the_mutex_witness :
  let evs := [Invoke; Invoke; Lock 1; List 1 (ListOk [podB]); Go 1; Start 1 0] in
  let s := stateAfter evs in
  let s' := stateAfter (evs ++ [Wait 1]) in
  (reachable s ∧ step NewMetrics (Wait 1) s = Some s') ∧
  mutex s = true ∧
  crashed s' = None ∧ mutex s' = false ∧
  (∀ k call, calls s' !! k = Some call → active call = false) ∧
  (∀ k call, calls s' !! k = Some call → phase call = Blocked →
     ∃ s'', step NewMetrics (Lock k) s' = Some s'' ∧ mutex s'' = true ∧
            ∃ call', calls s'' !! k = Some call' ∧ phase call' = Listing).
Proof.
  intros evs s s'.
  assert (Hr : reachable s) by (apply reachable_stateAfter; vm_compute; eauto).
  assert (Hstep : step NewMetrics (Wait 1) s = Some s') by (vm_compute; reflexivity).
  split; [by split |]. split; [vm_compute; reflexivity |].
  exact (return_frees_the_mutex s s' 1%nat Hr Hstep).
Defined.

(** ** Samples are only ever added, at the end *)

Lemma step_grows c e s s' i call :
  step c e s = Some s' → calls s !! i = Some call →
  ∃ call', calls s' !! i = Some call' ∧ ch call `prefix_of` ch call' ∧
    (∀ j t, tasks call !! j = Some t → finished t = true → tasks call' !! j = Some t).
Proof.
  intros Hstep Hi. destruct (step_calls _ _ _ _ Hstep) as [_ [-> | [-> | H]]].
  - by exists call.
  - exists call. split; [by apply lookup_app_l_Some | done].
  - destruct H as (k & callk & X & Hk & -> & _ & Hch & Htasks & _).
    destruct (decide (k = i)) as [-> | Hne].
    + rewrite Hi in Hk. injection Hk as <-. exists X.
      split; [apply list_lookup_insert_eq; by eapply lookup_lt_Some |].
      split; [| done]. destruct Hch as [-> | [m ->]]; [done | by eexists].
    + exists call. by rewrite list_lookup_insert_ne.
Qed.

(** X4: whatever happens later, and for any collector, a sample once on
    the channel of a call stays where it is, later samples come after it,
    and a goroutine that has returned stays as it was. *)
Theorem channel_only_grows c evs s s' i call :
  run c evs s = Some s' → calls s !! i = Some call →
  ∃ call', calls s' !! i = Some call' ∧ ch call `prefix_of` ch call' ∧
    (∀ j t, tasks call !! j = Some t → finished t = true → tasks call' !! j = Some t).
Proof.
  revert s call. induction evs as [|e evs IH]; simpl; intros s call.
  - intros [= <-] Hi. by exists call.
  - destruct (step c e s) as [s1|] eqn:Hstep; simpl; [| done]. intros Hrun Hi.
    destruct (step_grows _ _ _ _ _ _ Hstep Hi) as (call1 & Hi1 & Hpre1 & Hfin1).
    destruct (IH _ _ Hrun Hi1) as (call' & Hi' & Hpre' & Hfin').
    exists call'. split; [done |]. split; [by etrans |]. eauto.
Qed.

Lemma channel_only_grows_witness :
  let s := stateAfter scrapeBA in
  let evs := [Wait 0; Invoke; Lock 1; List 1 (ListOk [podA])] in
  let s' := stateAfter (scrapeBA ++ evs) in
  (run NewMetrics evs s = Some s' ∧ calls s !! 0%nat = Some (firstCall s)) ∧
  ∃ call', calls s' !! 0%nat = Some call' ∧
    ch (firstCall s) `prefix_of` ch call' ∧
    (∀ j t, tasks (firstCall s) !! j = Some t → finished t = true →
            tasks call' !! j = Some t).
Proof.
  intros s evs s'.
  assert (Hrun : run NewMetrics evs s = Some s') by (vm_compute; reflexivity).
  assert (Hi : calls s !! 0%nat = Some (firstCall s)) by (vm_compute; reflexivity).
  split; [by split |].
  exact (channel_only_grows NewMetrics evs s s' 0%nat (firstCall s) Hrun Hi).
Defined.

(** ** Samples are on the channel in the order of their time stamps *)








(** ** Every goroutine does what [healthCheck] does *)

Lemma explained_later now now' cr t :
  time.mono now ≤ time.mono now' → explained now cr t → explained now' cr t.
Proof.
  intros Hle. unfold explained. destruct (tstate t) as [| start url | metric | o].
  - done.
  - intros [? ?]. split; [done | lia].
  - intros (start & url & r & t1 & ? & ? & ?). exists start, url, r, t1.
    split; [done |]. split; [done | lia].
  - intros (t0 & net & t1 & t2 & ? & ? & ?). exists t0, net, t1, t2.
    split; [done |]. split; [lia | done].
Qed.

Lemma Forall_explained_insert now cr l j t :
  Forall (explained now cr) l → explained now cr t →
  Forall (explained now cr) (<[j := t]> l).
Proof. intros Hl Ht. by apply Forall_insert. Qed.

Lemma step_explained e s s' :
  step NewMetrics e s = Some s' →
  Forall (λ call, Forall (explained (clock s) (crashed s)) (tasks call)) (calls s) →
  Forall (λ call, Forall (explained (clock s') (crashed s')) (tasks call)) (calls s').
Proof.
  intros Hstep Hall.
  assert (Hcr : crashed s = None).
  { revert Hstep. unfold step. by destruct (crashed s). }
  rewrite Hcr in Hall.
  assert (Hcall : ∀ i call, calls s !! i = Some call →
                   ∀ j t, tasks call !! j = Some t → explained (clock s) None t).
  { intros i call Hi j t Hj.
    eapply Forall_lookup_1 in Hall; [| done]. by eapply Forall_lookup_1 in Hall. }
  assert (Hkeep : ∀ now cr t, explained now None t → explained now cr t).
  { intros now cr t. unfold explained. destruct (tstate t); try done.
    intros (t0 & net & t1 & t2 & ? & ? & Ho). exists t0, net, t1, t2.
    split; [done |]. split; [done |]. revert Ho. unfold outcome_of.
    destruct (healthCheck _ _ _ _ _ _); [done | by intros [_ ?]]. }
  assert (Hold : Forall (λ call, Forall (explained (clock s) (crashed s')) (tasks call))
                   (calls s)).
  { eapply Forall_impl; [exact Hall |]. simpl. intros call Hc.
    eapply Forall_impl; [exact Hc |]. intros t. apply Hkeep. }
  assert (Hset : ∀ i X, clock s' = clock s → calls s' = <[i := X]> (calls s) →
                   Forall (explained (clock s) (crashed s')) (tasks X) →
                   Forall (λ call, Forall (explained (clock s') (crashed s')) (tasks call))
                     (calls s')).
  { intros i X -> -> HX. by apply Forall_insert. }
  revert Hstep. unfold step. rewrite Hcr.
  destruct e as [dt | w | | i | i res | i | i | i j | i j r | i j]; simpl.
  - unfold tick. destruct (Z.leb_spec 0 dt); simpl; [| done].
    destruct (_ <=? _); [| done]. intros [= <-]. simpl. rewrite Hcr.
    eapply Forall_impl; [exact Hall |]. simpl. intros call Hc.
    eapply Forall_impl; [exact Hc |]. intros t. apply explained_later. simpl. lia.
  - intros [= <-]. simpl. rewrite Hcr.
    eapply Forall_impl; [exact Hall |]. simpl. intros call Hc.
    eapply Forall_impl; [exact Hc |]. intros t. apply explained_later. simpl. lia.
  - intros [= <-]. simpl. apply Forall_app. split; [by rewrite Hcr |].
    constructor; [| constructor]. simpl. constructor.
  - destruct (calls s !! i) as [call|] eqn:Hi; simpl; [| done].
    unfold Collect_Lock. destruct (phase call); try done.
    destruct (mutex s); [done |]. intros [= <-]. apply (Hset i (set_phase Listing call)); try done.
    simpl. rewrite Hcr. by eapply Forall_lookup_1 in Hall.
  - destruct (calls s !! i) as [call|] eqn:Hi; simpl; [| done].
    unfold Collect_List. destruct (phase call); try done.
    destruct res as [pods | msg]; intros [= <-].
    + apply (Hset i (set_phase (Looping pods) (set_items pods call))); try done.
      simpl. rewrite Hcr. by eapply Forall_lookup_1 in Hall.
    + simpl. rewrite clock_Unlock, calls_Unlock.
      simpl in Hold. exact Hold.
  - destruct (calls s !! i) as [call|] eqn:Hi; simpl; [| done].
    unfold Collect_go. destruct (phase call) as [| | [|item rest] |]; try done.
    intros [= <-]. eapply (Hset i); try done. simpl. rewrite Hcr.
    apply Forall_app. split.
    + by eapply Forall_lookup_1 in Hall.
    + constructor; [done | constructor].
  - destruct (calls s !! i) as [call|] eqn:Hi; simpl; [| done].
    unfold Collect_Wait. destruct (phase call) as [| | [|item rest] |]; try done.
    case_bool_decide; [| done]. intros [= <-].
    eapply (Hset i (set_phase Returned call)).
    { by rewrite clock_Unlock. }
    { by rewrite calls_Unlock. }
    simpl. apply Forall_lookup_2. intros j t Hj. apply Hkeep. eauto.
  - destruct (calls s !! i) as [call|] eqn:Hi; simpl; [| done].
    destruct (tasks call !! j) as [t|] eqn:Hj; simpl; [| done].
    unfold healthCheck_start. destruct (tstate t) eqn:Hst; try done.
    assert (Hrest : ∀ cr, Forall (explained (clock s) cr) (tasks call)).
    { intros cr. apply Forall_lookup_2. intros j' t' Hj'. apply Hkeep. eauto. }
    destruct (healthCheck_target (tpod t)) as [[url|]|msg] eqn:Htarget; intros [= <-].
    + eapply (Hset i); try done. simpl. apply Forall_insert; [apply Hrest |].
      unfold explained. simpl. split; [done | lia].
    + eapply (Hset i); [apply clock_Done | apply calls_Done_eq |]. simpl.
      apply Forall_insert; [apply Hrest |]. unfold explained. simpl.
      exists (clock s), (λ _, refused), (clock s), (clock s).
      split; [lia |]. split; [lia |]. unfold healthCheck. rewrite Htarget. done.
    + eapply (Hset i); [simpl; apply clock_Done | simpl; apply calls_Done_eq |]. simpl.
      apply Forall_insert; [apply Hrest |]. unfold explained. simpl.
      exists (clock s), (λ _, refused), (clock s), (clock s).
      split; [lia |]. split; [lia |]. unfold healthCheck. rewrite Htarget. done.
  - destruct (calls s !! i) as [call|] eqn:Hi; simpl; [| done].
    destruct (tasks call !! j) as [t|] eqn:Hj; simpl; [| done].
    unfold healthCheck_response. destruct (tstate t) as [| start url | |] eqn:Hst; try done.
    assert (Hrest : ∀ cr, Forall (explained (clock s) cr) (tasks call)).
    { intros cr. apply Forall_lookup_2. intros j' t' Hj'. apply Hkeep. eauto. }
    pose proof (Hcall _ _ Hi _ _ Hj) as Ht. unfold explained in Ht. rewrite Hst in Ht.
    destruct Ht as [Htarget Hstart].
    rewrite healthCheck_metric_NewMetrics. intros [= <-].
    eapply (Hset i); try done. simpl. apply Forall_insert; [apply Hrest |].
    unfold explained. simpl. exists start, url, r, (clock s).
    split; [done |]. split; [by rewrite healthCheck_metric_NewMetrics | lia].
  - destruct (calls s !! i) as [call|] eqn:Hi; simpl; [| done].
    destruct (tasks call !! j) as [t|] eqn:Hj; simpl; [| done].
    unfold healthCheck_send. destruct (tstate t) as [| | metric |] eqn:Hst; try done.
    assert (Hrest : ∀ cr, Forall (explained (clock s) cr) (tasks call)).
    { intros cr. apply Forall_lookup_2. intros j' t' Hj'. apply Hkeep. eauto. }
    pose proof (Hcall _ _ Hi _ _ Hj) as Ht. unfold explained in Ht. rewrite Hst in Ht.
    destruct Ht as (start & url & r & t1 & Htarget & Hmetric & Hle).
    intros [= <-]. eapply (Hset i); [apply clock_Done | apply calls_Done_eq |]. simpl.
    apply Forall_insert; [apply Hrest |]. unfold explained. simpl.
    exists start, (λ _, r), t1, (clock s). split; [lia |]. split; [lia |].
    unfold healthCheck. rewrite Htarget. simpl. rewrite Hmetric. done.
Qed.

Lemma reachable_explained s :
  reachable s →
  Forall (λ call, Forall (explained (clock s) (crashed s)) (tasks call)) (calls s).
Proof.
  intros [evs Hrun].
  assert (H0 : Forall (λ call, Forall (explained (clock boot) (crashed boot)) (tasks call))
                 (calls boot)) by constructor.
  revert Hrun H0. generalize boot. induction evs as [|e evs IH]; simpl; intros s0.
  - by intros [= <-].
  - destruct (step NewMetrics e s0) as [s1|] eqn:Hstep; simpl; [| done].
    intros Hrun H0. apply (IH s1 Hrun). by eapply step_explained.
Qed.

(** X10: a goroutine that has returned, however its steps were
    interleaved with those of the others, did what [healthCheck] does
    when run in one go on the pod at its place in the list, for some
    three readings of the clock in order, none later than the present,
    and some answer of the network: it sent what [healthCheck] sends, or,
    where [healthCheck] panics, sent nothing, and that panic ended the
    process. *)
Theorem goroutine_is_healthCheck s i call j t o :
  reachable s → calls s !! i = Some call → tasks call !! j = Some t →
  tstate t = Finished o →
  items call !! j = Some (tpod t) ∧
  ∃ t0 net t1 t2,
    time.mono t0 ≤ time.mono t1 ≤ time.mono t2 ∧ time.mono t2 ≤ time.mono (clock s) ∧
    match healthCheck NewMetrics (tpod t) t0 net t1 t2 with
    | Ok l => l = option_list o
    | Panic msg => o = None ∧ crashed s = Some msg
    end.
Proof.
  intros Hs Hi Hj Hst. split.
  - pose proof (reachable_call _ _ _ Hs Hi) as (_ & _ & _ & Hp).
    assert (Hpre : ∃ rest, items call = (tpod <$> tasks call) ++ rest).
    { destruct (phase call) as [| | rest |].
      - rewrite Hp. by exists (items call).
      - rewrite Hp. by exists (items call).
      - by exists rest.
      - destruct Hp as [<- _]. exists []. by rewrite app_nil_r. }
    destruct Hpre as [rest ->]. apply lookup_app_l_Some.
    by rewrite list_lookup_fmap, Hj.
  - pose proof (reachable_explained s Hs) as Hall.
    eapply Forall_lookup_1 in Hall; [| done]. eapply Forall_lookup_1 in Hall; [| done].
    unfold explained in Hall. by rewrite Hst in Hall.
Qed.

Lemma goroutine_is_healthCheck_witness :
  let s := stateAfter scrapeTwo in
  let call := firstCall s in
  let sample := sampleAt 705 (-1) ["default"; "svcE"; "e"] in
  let t := {| tpod := podNoIP; tstate := Finished (Some sample) |} in
  (reachable s ∧ calls s !! 0%nat = Some call ∧ tasks call !! 1%nat = Some t ∧
   tstate t = Finished (Some sample)) ∧
  items call !! 1%nat = Some (tpod t) ∧
  ∃ t0 net t1 t2,
    time.mono t0 ≤ time.mono t1 ≤ time.mono t2 ∧ time.mono t2 ≤ time.mono (clock s) ∧
    match healthCheck NewMetrics (tpod t) t0 net t1 t2 with
    | Ok l => l = option_list (Some sample)
    | Panic msg => Some sample = None ∧ crashed s = Some msg
    end.
Proof.
  intros s call sample t.
  assert (Hr : reachable s) by (apply reachable_stateAfter; vm_compute; eauto).
  assert (Hi : calls s !! 0%nat = Some call) by (vm_compute; reflexivity).
  assert (Hj : tasks call !! 1%nat = Some t) by (vm_compute; reflexivity).
  split; [by split_and! |].
  exact (goroutine_is_healthCheck s 0%nat call 1%nat t (Some sample) Hr Hi Hj eq_refl).
Defined.

(** ** The command line *)

(** What [parseOne] does without an error depends on the flags defined
    only in that the flag named is one of them: it leaves its argument,
    and writes at most one value. *)
Lemma parseOne_updates f f' seen err :
  flag.parseOne f = (f', seen, err) → seen = true ∨ err = None →
  ∃ u, (∀ n, is_Some (u !! n) → is_Some (flag.formal f !! n)) ∧
       ∀ g, flag.args g = flag.args f →
            (∀ n, is_Some (flag.formal f !! n) → is_Some (flag.formal g !! n)) →
            flag.parseOne g = (updated u (flag.args f') g, seen, err).
Proof.
  assert (Hnone : ∀ rest g, updated ∅ rest g = flag.set_args rest g).
  { intros rest g. unfold updated, flag.set_args. f_equal. apply (left_id_L ∅ (∪)). }
  assert (Hsame : ∀ g l, flag.args g = l → updated ∅ l g = g).
  { intros g l <-. rewrite Hnone. by destruct g. }
  assert (Hempty : ∀ n, is_Some ((∅ : gmap string string) !! n) →
                        is_Some (flag.formal f !! n)).
  { intros n. rewrite lookup_empty. by intros [? ?]. }
  unfold flag.parseOne at 1.
  destruct (flag.args f) as [|s rest] eqn:Hargs.
  { intros [= <- <- <-] _. exists ∅. split; [done |]. intros g Hg _.
    unfold flag.parseOne. rewrite Hg, Hargs. by rewrite Hsame. }
  destruct s as [|a [|c s2]].
  { intros [= <- <- <-] _. exists ∅. split; [done |]. intros g Hg _.
    unfold flag.parseOne. rewrite Hg, Hargs. by rewrite Hsame. }
  { destruct a as [[] [] [] [] [] [] [] []]; intros [= <- <- <-] _;
      exists ∅; (split; [done |]); intros g Hg _;
      unfold flag.parseOne; rewrite Hg, Hargs; by rewrite Hsame. }
  destruct a as [[] [] [] [] [] [] [] []];
    try (intros [= <- <- <-] _;
         exists ∅; (split; [done |]); intros g Hg _;
         unfold flag.parseOne; rewrite Hg, Hargs; by rewrite Hsame).
  clear Hsame.
  destruct (Ascii.eqb c "-" && String.eqb s2 "") eqn:Hterm.
  { intros [= <- <- <-] _. exists ∅. split; [done |]. intros g Hg _.
    unfold flag.parseOne. rewrite Hg, Hterm. simpl. by rewrite Hnone. }
  destruct (if Ascii.eqb c "-" then s2 else String c s2) as [|c0 name'] eqn:Hname.
  { intros [= <- <- <-] [? | ?]; done. }
  destruct (Ascii.eqb c0 "-" || Ascii.eqb c0 "=") eqn:Hbad.
  { intros [= <- <- <-] [? | ?]; done. }
  destruct (flag.cut name') as [n value] eqn:Hcut. simpl.
  destruct (flag.formal f !! String c0 n) as [old|] eqn:Hn.
  - assert (Hone : ∀ x, ∀ k, is_Some (({[String c0 n := x]} : gmap string string) !! k) →
                              is_Some (flag.formal f !! k)).
    { intros x k [y Hy]. apply lookup_singleton_Some in Hy as [<- _]. by eexists. }
    assert (Hg : ∀ g,
                   (∀ k, is_Some (flag.formal f !! k) → is_Some (flag.formal g !! k)) →
                   ∃ y, flag.formal g !! String c0 n = Some y).
    { intros g Hdom. apply Hdom. by eexists. }
    destruct value as [value|]; [| destruct rest as [|value rest]].
    + intros [= <- <- <-] _. exists {[String c0 n := value]}. split; [apply Hone |].
      intros g Hgargs Hdom. destruct (Hg g Hdom) as [y Hy].
      unfold flag.parseOne. rewrite Hgargs, Hterm, Hname, Hbad, Hcut. simpl. rewrite Hy.
      unfold updated, flag.set_formal. simpl. by rewrite insert_union_singleton_l.
    + intros [= <- <- <-] [? | ?]; done.
    + intros [= <- <- <-] _. exists {[String c0 n := value]}. split; [apply Hone |].
      intros g Hgargs Hdom. destruct (Hg g Hdom) as [y Hy].
      unfold flag.parseOne. rewrite Hgargs, Hterm, Hname, Hbad, Hcut. simpl. rewrite Hy.
      unfold updated, flag.set_formal. simpl. by rewrite insert_union_singleton_l.
  - match goal with |- (if ?b then _ else _) = _ → _ => destruct b end;
      intros [= <- <- <-] [? | ?]; done.
Qed.

Lemma updated_updated u1 u2 l1 l2 g :
  updated u2 l2 (updated u1 l1 g) = updated (u2 ∪ u1) l2 g.
Proof. unfold updated. simpl. f_equal. apply (assoc_L (∪)). Qed.

Lemma updated_self g : updated ∅ (flag.args g) g = g.
Proof. unfold updated. destruct g. simpl. f_equal. apply (left_id_L ∅ (∪)). Qed.

Lemma parseLoop_updates n : ∀ f f',
  flag.parseLoop n f = (f', None) →
  ∃ u, (∀ k, is_Some (u !! k) → is_Some (flag.formal f !! k)) ∧
       ∀ g, flag.args g = flag.args f →
            (∀ k, is_Some (flag.formal f !! k) → is_Some (flag.formal g !! k)) →
            flag.parseLoop n g = (updated u (flag.args f') g, None).
Proof.
  induction n as [|n IH]; simpl; intros f f'.
  - intros [= <-]. exists ∅. split.
    + intros k. rewrite lookup_empty. by intros [? ?].
    + intros g <- _. by rewrite updated_self.
  - destruct (flag.parseOne f) as [[f1 seen] err] eqn:Hone. destruct seen.
    + intros Hloop.
      destruct (parseOne_updates _ _ _ _ Hone) as (u1 & Hu1 & Hg1); [by left |].
      destruct (IH _ _ Hloop) as (u2 & Hu2 & Hg2).
      assert (Hf1 : f1 = updated u1 (flag.args f1) f).
      { specialize (Hg1 f eq_refl (λ _ H, H)). congruence. }
      assert (Hdom1 : ∀ k, is_Some (flag.formal f1 !! k) → is_Some (flag.formal f !! k)).
      { intros k. rewrite Hf1. simpl. rewrite lookup_union_is_Some. intros [? | ?]; auto. }
      exists (u2 ∪ u1). split.
      * intros k. rewrite lookup_union_is_Some. intros [? | ?]; auto.
      * intros g Hargs Hdom. rewrite (Hg1 g Hargs Hdom).
        rewrite (Hg2 (updated u1 (flag.args f1) g)).
        -- by rewrite updated_updated.
        -- done.
        -- intros k Hk. simpl. rewrite lookup_union_is_Some. right. auto.
    + intros [= -> ->].
      destruct (parseOne_updates _ _ _ _ Hone) as (u1 & Hu1 & Hg1); [by right |].
      exists u1. split; [done |]. intros g Hargs Hdom. by rewrite (Hg1 g Hargs Hdom).
Qed.

(** A parse that goes through does so again with more flags defined and
    with other values, and writes the same values. *)
Lemma Parse_updates f arguments f' :
  flag.Parse f arguments = Returns f' →
  ∃ u, (∀ k, is_Some (u !! k) → is_Some (flag.formal f !! k)) ∧
       ∀ g, (∀ k, is_Some (flag.formal f !! k) → is_Some (flag.formal g !! k)) →
            flag.Parse g arguments = Returns (updated u (flag.args f') g).
Proof.
  unfold flag.Parse.
  destruct (flag.parseLoop _ (flag.set_args arguments f)) as [f1 [[|msg]|]] eqn:Hloop;
    try done.
  intros [= ->]. destruct (parseLoop_updates _ _ _ Hloop) as (u & Hu & Hg).
  exists u. split; [done |]. intros g Hdom.
  by rewrite (Hg (flag.set_args arguments g) eq_refl Hdom).
Qed.

(** One turn more than there are arguments is enough for the loop. *)
Lemma parseOne_args f f' err :
  flag.parseOne f = (f', true, err) →
  (length (flag.args f') < length (flag.args f))%nat.
Proof.
  unfold flag.parseOne.
  destruct (flag.args f) as [|s rest] eqn:Hargs; [done |].
  destruct s as [|a [|c s2]]; [done | |].
  { by destruct a as [[] [] [] [] [] [] [] []]. }
  destruct a as [[] [] [] [] [] [] [] []]; try done.
  destruct (Ascii.eqb c "-" && String.eqb s2 ""); [done |].
  destruct (if Ascii.eqb c "-" then s2 else String c s2) as [|c0 name']; [done |].
  destruct (Ascii.eqb c0 "-" || Ascii.eqb c0 "="); [done |].
  destruct (flag.cut name') as [n value]. simpl.
  destruct (flag.formal f !! String c0 n) as [old|] eqn:Hn.
  - destruct value as [value|]; [| destruct rest as [|value rest]];
      intros [= <- <-]; simpl; lia.
  - by match goal with |- (if ?b then _ else _) = _ → _ => destruct b end.
Qed.

Lemma parseLoop_turns n : ∀ m f,
  (length (flag.args f) < n)%nat → (length (flag.args f) < m)%nat →
  flag.parseLoop n f = flag.parseLoop m f.
Proof.
  induction n as [|n IH]; intros m f Hn Hm; [lia |].
  destruct m as [|m]; [lia |]. simpl.
  destruct (flag.parseOne f) as [[f1 seen] err] eqn:Hone.
  destruct seen; [| done].
  apply parseOne_args in Hone. apply IH; lia.
Qed.

(** ** [main] and [NewMetrics] *)

Lemma main_unfold {Config} (o : Outside Config) env program arguments :
  main o env program arguments
  = (cmd ← flag.Parse (mainFlags program) arguments;
     '(cmd, config, metrics) ← NewMetrics_from o env arguments cmd;
     mux ← ServeMux.Handle [] (flag.value cmd "web.telemetry-path");
     mux ← ServeMux.Handle mux "/";
     Returns {| addr := ":" +:+ flag.value cmd "web.listen-port"; patterns := mux;
                config := config; collector := metrics |}).
Proof. reflexivity. Qed.

Lemma String_fresh f k v :
  flag.formal f !! k = None → flag.String f k v = Returns (define k v f).
Proof. intros H. unfold flag.String. by rewrite H. Qed.

Lemma String_kubeconfig {Config} (o : Outside Config) env cmd :
  (if negb (String.eqb (homeDir env) "")
   then flag.String cmd "kubeconfig" (Join o [homeDir env; ".kube"; "config"])
   else flag.String cmd "kubeconfig" "")
  = flag.String cmd "kubeconfig" (defaultKubeconfig o env).
Proof. unfold defaultKubeconfig. by destruct (String.eqb (homeDir env) ""). Qed.

(** The second parse, of the same arguments with one more flag defined:
    the flag keeps its default, and the others get their values again. *)
Lemma second_parse f arguments f1 k v :
  flag.formal f !! k = None →
  flag.Parse f arguments = Returns f1 →
  flag.formal f1 !! k = None ∧
  ∃ f2, flag.Parse (define k v f1) arguments = Returns f2 ∧
        flag.value f2 k = v ∧
        ∀ n, n ≠ k → flag.value f2 n = flag.value f1 n.
Proof.
  intros Hk Hparse. destruct (Parse_updates _ _ _ Hparse) as (u & Hu & Hg).
  assert (Hf1 : f1 = updated u (flag.args f1) f).
  { specialize (Hg f (λ _ H, H)). congruence. }
  assert (Huk : u !! k = None).
  { destruct (u !! k) eqn:E; [| done]. destruct (Hu k) as [x Hx]; [by eexists |].
    congruence. }
  assert (Hk1 : flag.formal f1 !! k = None).
  { rewrite Hf1. simpl. apply lookup_union_None. by split. }
  split; [done |]. eexists. split.
  - apply Hg. intros n Hn. unfold define. simpl.
    destruct (decide (k = n)) as [<- | Hne].
    + rewrite lookup_insert_eq. by eexists.
    + rewrite lookup_insert_ne by done. rewrite Hf1. simpl.
      rewrite lookup_union_is_Some. by right.
  - unfold flag.value. simpl. split.
    + rewrite lookup_union_r by done. by rewrite lookup_insert_eq.
    + intros n Hn. f_equal. rewrite Hf1 at 2. simpl.
      destruct (u !! n) as [x|] eqn:E.
      * by rewrite !(lookup_union_Some_l _ _ _ x).
      * rewrite !lookup_union_r by done. rewrite lookup_insert_ne by done.
        rewrite Hf1. simpl. by rewrite lookup_union_r.
Qed.

(** X11: the configuration [main] runs with is chosen by the environment
    alone.  Inside a cluster (both service variables set and not empty)
    it is that of [rest.InClusterConfig]; else it is that of the
    kubeconfig file at the default path, [.kube/config] under [HOME], or
    under [USERPROFILE] when [HOME] is empty, and the empty path when
    both are.  The command line has no part in it, and the second parse,
    in [NewMetrics], leaves the address and the telemetry path as the
    parse of [main] gave them. *)
Theorem config_comes_from_the_environment {Config} (o : Outside Config)
    env program arguments srv :
  main o env program arguments = Returns srv →
  (if inCluster env then InClusterConfig o
   else BuildConfigFromFlags o "" (defaultKubeconfig o env)) = inl (config srv) ∧
  ∃ cmd, flag.Parse (mainFlags program) arguments = Returns cmd ∧
         addr srv = ":" +:+ flag.value cmd "web.listen-port" ∧
         patterns srv = [flag.value cmd "web.telemetry-path"; "/"].
Proof.
  rewrite main_unfold.
  destruct (flag.Parse (mainFlags program) arguments) as [cmd1| |] eqn:Hparse; try done.
  simpl. unfold NewMetrics_from, NewMetrics_config.
  assert (Hmux : ∀ (cmd : flag.FlagSet) (c : Config) m,
            (mux ← ServeMux.Handle [] (flag.value cmd "web.telemetry-path");
             mux ← ServeMux.Handle mux "/";
             Returns {| addr := ":" +:+ flag.value cmd "web.listen-port"; patterns := mux;
                        config := c; collector := m |}) = Returns srv →
            config srv = c ∧ addr srv = ":" +:+ flag.value cmd "web.listen-port" ∧
            patterns srv = [flag.value cmd "web.telemetry-path"; "/"]).
  { intros cmd c m. unfold ServeMux.Handle.
    destruct (String.eqb (flag.value cmd "web.telemetry-path") ""); [done |]. simpl.
    case_bool_decide; [done |]. simpl. by intros [= <-]. }
  destruct (inCluster env).
  - destruct (InClusterConfig o) as [c | err]; [| done]. simpl.
    destruct (NewForConfig o c); [done |]. simpl. intros Hsrv.
    apply Hmux in Hsrv as (<- & Haddr & Hpat). split; [done |]. by exists cmd1.
  - rewrite String_kubeconfig.
    destruct (second_parse (mainFlags program) arguments cmd1 "kubeconfig"
                (defaultKubeconfig o env) eq_refl Hparse) as (Hk1 & cmd2 & Hparse2 & Hv & Hsame).
    rewrite (String_fresh _ _ _ Hk1). simpl. rewrite Hparse2. simpl. rewrite Hv.
    destruct (BuildConfigFromFlags o "" (defaultKubeconfig o env)) as [c | err]; [| done].
    simpl. destruct (NewForConfig o c); [done |]. simpl. intros Hsrv.
    apply Hmux in Hsrv as (<- & Haddr & Hpat). split; [done |]. exists cmd1.
    split; [done |]. rewrite <- !Hsame; done.
Qed.

Lemma config_comes_from_the_environment_witness :
  let arguments := ["-web.listen-port=9100"; "now"; "-kubeconfig=/tmp/k"] in
  let srv := {| addr := ":9100"; patterns := ["/metrics"; "/"];
                config := "/home/u/.kube/config"; collector := NewMetrics |} in
  main laptop atHome "exporter" arguments = Returns srv ∧
  (if inCluster atHome then InClusterConfig laptop
   else BuildConfigFromFlags laptop "" (defaultKubeconfig laptop atHome))
  = inl (config srv) ∧
  ∃ cmd, flag.Parse (mainFlags "exporter") arguments = Returns cmd ∧
         addr srv = ":" +:+ flag.value cmd "web.listen-port" ∧
         patterns srv = [flag.value cmd "web.telemetry-path"; "/"].
Proof.
  intros arguments srv.
  assert (Hmain : main laptop atHome "exporter" arguments = Returns srv)
    by (vm_compute; reflexivity).
  split; [done |].
  exact (config_comes_from_the_environment laptop atHome "exporter" arguments srv Hmain).
Defined.

(** X12: the flag [-kubeconfig] that [NewMetrics] defines cannot be
    given to the program: [main] parses the command line before
    [NewMetrics] defines the flag, so with the flag as its first
    argument, in any of its forms, the process exits with status 2,
    inside a cluster or outside. *)
Theorem kubeconfig_flag_is_refused {Config} (o : Outside Config)
    env program path rest :
  main o env program ("-kubeconfig" :: path :: rest) = Exits 2 ∧
  main o env program ("--kubeconfig" :: path :: rest) = Exits 2 ∧
  main o env program (("-kubeconfig=" +:+ path) :: rest) = Exits 2 ∧
  main o env program (("--kubeconfig=" +:+ path) :: rest) = Exits 2.
Proof.
  rewrite !main_unfold. split_and!.
  - assert (flag.Parse (mainFlags program) ("-kubeconfig" :: path :: rest) = Exits 2)
      as -> by (vm_compute; reflexivity). done.
  - assert (flag.Parse (mainFlags program) ("--kubeconfig" :: path :: rest) = Exits 2)
      as -> by (vm_compute; reflexivity). done.
  - assert (flag.Parse (mainFlags program) (("-kubeconfig=" +:+ path) :: rest) = Exits 2)
      as -> by (vm_compute; reflexivity). done.
  - assert (flag.Parse (mainFlags program) (("--kubeconfig=" +:+ path) :: rest) = Exits 2)
      as -> by (vm_compute; reflexivity). done.
Qed.

(** [NewMetrics] leaves the values of the flags defined before it as
    they were after the parse of [main]. *)
Lemma NewMetrics_from_flags {Config} (o : Outside Config) env f arguments cmd1 cmd2 c m :
  flag.formal f !! "kubeconfig" = None →
  flag.Parse f arguments = Returns cmd1 →
  NewMetrics_from o env arguments cmd1 = Returns (cmd2, c, m) →
  ∀ n, n ≠ "kubeconfig" → flag.value cmd2 n = flag.value cmd1 n.
Proof.
  intros Hk Hparse. unfold NewMetrics_from, NewMetrics_config.
  destruct (inCluster env).
  - destruct (InClusterConfig o) as [c' | err]; [| done]. simpl.
    destruct (NewForConfig o c'); [done |]. by intros [= <- _ _].
  - rewrite String_kubeconfig.
    destruct (second_parse f arguments cmd1 "kubeconfig"
                (defaultKubeconfig o env) Hk Hparse) as (Hk1 & cmd' & Hparse2 & Hv & Hsame).
    rewrite (String_fresh _ _ _ Hk1). simpl. rewrite Hparse2. simpl.
    destruct (BuildConfigFromFlags o "" _) as [c' | err]; [| done]. simpl.
    destruct (NewForConfig o c'); [done |]. by intros [= <- _ _].
Qed.

(** X13: outside a cluster [NewMetrics] can be called once in a process:
    a second call, whatever its environment outside a cluster and the
    arguments, defines the flag [kubeconfig] again and panics. *)
Theorem NewMetrics_only_once {Config} (o o' : Outside Config)
    env env' arguments arguments' cmd cmd' c m :
  inCluster env = false → inCluster env' = false →
  NewMetrics_from o env arguments cmd = Returns (cmd', c, m) →
  NewMetrics_from o' env' arguments' cmd'
  = Panics (if String.eqb (flag.name cmd) "" then "flag redefined: kubeconfig"
            else flag.name cmd +:+ " flag redefined: kubeconfig").
Proof.
  intros Hout Hout'. unfold NewMetrics_from, NewMetrics_config. rewrite Hout, Hout'.
  rewrite !String_kubeconfig. unfold flag.String at 1.
  destruct (flag.formal cmd !! "kubeconfig") eqn:Hk; [done |]. simpl.
  destruct (flag.Parse _ arguments) as [cmd1| |] eqn:Hparse; try done. simpl.
  destruct (BuildConfigFromFlags o "" _) as [c1 | err]; [| done]. simpl.
  destruct (NewForConfig o c1); [done |]. intros [= <- _ _].
  destruct (Parse_updates _ _ _ Hparse) as (u & Hu & Hg).
  assert (Hcmd1 : cmd1 = updated u (flag.args cmd1)
                           (flag.set_formal (<["kubeconfig" := defaultKubeconfig o env]>
                                               (flag.formal cmd)) cmd)).
  { specialize (Hg _ (λ _ H, H)). congruence. }
  unfold flag.String. rewrite Hcmd1. simpl.
  destruct (u !! "kubeconfig") as [x|] eqn:E.
  - by rewrite (lookup_union_Some_l _ _ _ x).
  - rewrite lookup_union_r by done. by rewrite lookup_insert_eq.
Qed.

Lemma NewMetrics_only_once_witness :
  let cmd := mainFlags "exporter" in
  let cmd' := updated ∅ [] (define "kubeconfig" "/home/u/.kube/config" cmd) in
  (inCluster atHome = false ∧ inCluster atHome = false ∧
   NewMetrics_from laptop atHome [] cmd
   = Returns (cmd', "/home/u/.kube/config", NewMetrics)) ∧
  NewMetrics_from laptop atHome ["-kubeconfig=/tmp/k"] cmd'
  = Panics "exporter flag redefined: kubeconfig".
Proof.
  intros cmd cmd'.
  assert (Hout : inCluster atHome = false) by (vm_compute; reflexivity).
  assert (Hnew : NewMetrics_from laptop atHome [] cmd
                 = Returns (cmd', "/home/u/.kube/config", NewMetrics))
    by (vm_compute; reflexivity).
  split; [by split_and! |].
  exact (NewMetrics_only_once laptop laptop atHome atHome [] ["-kubeconfig=/tmp/k"]
           cmd cmd' "/home/u/.kube/config" NewMetrics Hout Hout Hnew).
Defined.

(** X14: with a telemetry path that is empty or [/], [main] panics when
    it registers its handlers, after [NewMetrics] has returned, and
    never listens. *)
Theorem telemetry_path_empty_or_root_panics {Config} (o : Outside Config)
    env program arguments cmd x :
  flag.Parse (mainFlags program) arguments = Returns cmd →
  NewMetrics_from o env arguments cmd = Returns x →
  flag.value cmd "web.telemetry-path" = "" ∨ flag.value cmd "web.telemetry-path" = "/" →
  ∃ msg, main o env program arguments = Panics msg.
Proof.
  intros Hparse Hnew Hpath. destruct x as [[cmd2 c] m].
  pose proof (NewMetrics_from_flags o env (mainFlags program) _ _ _ _ _ eq_refl Hparse Hnew
                "web.telemetry-path" ltac:(done)) as Hsame.
  rewrite main_unfold, Hparse.
  change (∃ msg,
    ('(cmd, config, metrics) ← NewMetrics_from o env arguments cmd;
     mux ← ServeMux.Handle [] (flag.value cmd "web.telemetry-path");
     mux ← ServeMux.Handle mux "/";
     Returns {| addr := ":" +:+ flag.value cmd "web.listen-port"; patterns := mux;
                config := config; collector := metrics |}) = Panics msg).
  rewrite Hnew.
  change (∃ msg,
    (mux ← ServeMux.Handle [] (flag.value cmd2 "web.telemetry-path");
     mux ← ServeMux.Handle mux "/";
     Returns {| addr := ":" +:+ flag.value cmd2 "web.listen-port"; patterns := mux;
                config := c; collector := m |}) = Panics msg).
  rewrite Hsame. destruct Hpath as [-> | ->]; vm_compute; by eexists.
Qed.

Lemma telemetry_path_empty_or_root_panics_witness :
  let arguments := ["-web.telemetry-path=/"] in
  let cmd := updated {[ "web.telemetry-path" := "/" ]} [] (mainFlags "exporter") in
  let x := (updated {[ "web.telemetry-path" := "/" ]} []
              (define "kubeconfig" "/home/u/.kube/config" cmd),
            "/home/u/.kube/config", NewMetrics) in
  (flag.Parse (mainFlags "exporter") arguments = Returns cmd ∧
   NewMetrics_from laptop atHome arguments cmd = Returns x ∧
   (flag.value cmd "web.telemetry-path" = "" ∨ flag.value cmd "web.telemetry-path" = "/")) ∧
  ∃ msg, main laptop atHome "exporter" arguments = Panics msg.
Proof.
  intros arguments cmd x.
  assert (Hparse : flag.Parse (mainFlags "exporter") arguments = Returns cmd)
    by (vm_compute; reflexivity).
  assert (Hnew : NewMetrics_from laptop atHome arguments cmd = Returns x)
    by (vm_compute; reflexivity).
  assert (Hpath : flag.value cmd "web.telemetry-path" = ""
                  ∨ flag.value cmd "web.telemetry-path" = "/")
    by (right; vm_compute; reflexivity).
  split; [by split_and! |].
  exact (telemetry_path_empty_or_root_panics laptop atHome "exporter" arguments cmd x
           Hparse Hnew Hpath).
Defined.
